(** * NNTools: the sample cache of the image datasets

    A shallow embedding of the caching code of NNTools
    ([nntools/utils/misc.py], [nntools/utils/io.py],
    [nntools/dataset/abstract_image_dataset.py],
    [nntools/dataset/classif_dataset.py] and
    [nntools/dataset/cache/disk.py]) and the properties of its
    specification that the code decides.

    Python exceptions are values of [exn]; a call that may raise returns a
    [result].  NumPy arrays are records of a dtype, a shape and the flat
    row-major list of their elements; an integer element is the integer it
    denotes, an element of any other dtype is its bit pattern.  A Python
    [float] is an IEEE 754 double with its rounding. *)

From Stdlib Require Import ZArith Lia Ascii SpecFloat.
From stdpp Require Import base option list strings gmap.

(** ** Exceptions and results *)

Inductive exn :=
  | ValueError | IndexError | KeyError | StopIteration | AttributeError
  | TypeError | UnboundLocalError | RuntimeError | AssertionError
  | FileNotFoundError | FileExistsError | OSError | BufferError | OverflowError.

#[global] Instance exn_eq_dec : EqDecision exn.
Proof. solve_decision. Defined.

(** [LookupError] is the base class of [IndexError] and [KeyError] only. *)
Definition is_lookup_error (e : exn) : bool :=
  match e with
  | IndexError | KeyError => true
  | _ => false
  end.

Inductive result (A : Type) : Type :=
  | Ok (a : A)
  | Raise (e : exn).
Arguments Ok {A} a.
Arguments Raise {A} e.

#[global] Instance result_ret : MRet result := @Ok.
#[global] Instance result_bind : MBind result := λ A B f r,
  match r with
  | Ok a => f a
  | Raise e => Raise e
  end.

Definition is_ok {A} (r : result A) : bool :=
  match r with
  | Ok _ => true
  | Raise _ => false
  end.

(** ** The fragment of NumPy the cache relies on *)

Module Np.

Inductive dtype :=
  | bool_ | uint8 | int8 | uint16 | int16 | uint32 | int32
  | uint64 | int64 | float32 | float64.

#[global] Instance dtype_eq_dec : EqDecision dtype.
Proof. solve_decision. Defined.

Definition itemsize (d : dtype) : nat :=
  match d with
  | bool_ | uint8 | int8 => 1
  | uint16 | int16 => 2
  | uint32 | int32 | float32 => 4
  | uint64 | int64 | float64 => 8
  end.

Definition is_signed (d : dtype) : bool :=
  match d with
  | int8 | int16 | int32 | int64 => true
  | _ => false
  end.

(** The values an element of dtype [d] ranges over. *)
Definition fits (d : dtype) (z : Z) : Prop :=
  if is_signed d
  then (- 2 ^ (8 * Z.of_nat (itemsize d) - 1) ≤ z < 2 ^ (8 * Z.of_nat (itemsize d) - 1))%Z
  else (0 ≤ z < 2 ^ (8 * Z.of_nat (itemsize d)))%Z.

Record ndarray := mk_ndarray {
  arr_dtype : dtype;
  arr_shape : list nat;
  arr_data : list Z;
}.

#[global] Instance ndarray_eq_dec : EqDecision ndarray.
Proof. solve_decision. Defined.

Definition prod_shape (s : list nat) : nat := foldr Nat.mul 1 s.

Definition ndim (a : ndarray) : nat := length (arr_shape a).
Definition size (a : ndarray) : nat := prod_shape (arr_shape a).
Definition nbytes (a : ndarray) : nat := size a * itemsize (arr_dtype a).

(** A well-formed array holds as many elements as its shape says, each in
    the range of its dtype. *)
Definition wf_ndarray (a : ndarray) : Prop :=
  length (arr_data a) = size a ∧ Forall (fits (arr_dtype a)) (arr_data a).

Definition zeros (s : list nat) (d : dtype) : ndarray :=
  mk_ndarray d s (replicate (prod_shape s) 0%Z).

(** *** Bytes of an element *)

Inductive byteorder := LittleEndian | BigEndian.

Fixpoint le_bytes (n : nat) (z : Z) : list Z :=
  match n with
  | O => []
  | S n' => (z mod 256)%Z :: le_bytes n' (z / 256)%Z
  end.

Fixpoint le_value (bs : list Z) : Z :=
  match bs with
  | [] => 0%Z
  | b :: bs' => (b + 256 * le_value bs')%Z
  end.

(** [n] successive chunks of [k] elements each. *)
Fixpoint chunks (k n : nat) {A} (l : list A) : list (list A) :=
  match n with
  | O => []
  | S n' => take k l :: chunks k n' (drop k l)
  end.

Section native.
(** The byte order of the machine, and NumPy's conversion of an element
    between two different dtypes, are fixed outside this code. *)
Variable bo : byteorder.
Variable cast : dtype → dtype → Z → Z.

Definition to_bytes (n : nat) (z : Z) : list Z :=
  match bo with
  | LittleEndian => le_bytes n z
  | BigEndian => reverse (le_bytes n z)
  end.

Definition of_bytes (bs : list Z) : Z :=
  match bo with
  | LittleEndian => le_value bs
  | BigEndian => le_value (reverse bs)
  end.

Definition encode (d : dtype) (z : Z) : list Z := to_bytes (itemsize d) z.

Definition decode (d : dtype) (bs : list Z) : Z :=
  let u := of_bytes bs in
  if is_signed d && (2 ^ (8 * Z.of_nat (itemsize d) - 1) <=? u)%Z
  then (u - 2 ^ (8 * Z.of_nat (itemsize d)))%Z
  else u.

(** [a.tobytes()] and [np.frombuffer(buf, dtype=d)]. *)
Definition tobytes (a : ndarray) : list Z :=
  flat_map (encode (arr_dtype a)) (arr_data a).

Definition frombuffer (d : dtype) (buf : list Z) : list Z :=
  decode d <$> chunks (itemsize d) (length buf / itemsize d) buf.

(** [a.view(dtype=d)]: the same bytes read at another dtype; the last
    axis is rescaled and has to hold a whole number of new elements. *)
Definition view (a : ndarray) (d : dtype) : result ndarray :=
  if decide (itemsize d = itemsize (arr_dtype a))
  then Ok (mk_ndarray d (arr_shape a) (frombuffer d (tobytes a)))
  else
    match reverse (arr_shape a) with
    | [] => Raise ValueError
    | c :: rest =>
        let nb := c * itemsize (arr_dtype a) in
        if decide (nb `mod` itemsize d = 0)
        then Ok (mk_ndarray d (reverse (nb / itemsize d :: rest))
                   (frombuffer d (tobytes a)))
        else Raise ValueError
    end.

(** [a.reshape(s)], every dimension given. *)
Definition reshape (a : ndarray) (s : list nat) : result ndarray :=
  if decide (prod_shape s = size a)
  then Ok (mk_ndarray (arr_dtype a) s (arr_data a))
  else Raise ValueError.

(** [a.reshape(k1, ..., kn, -1)]: the last dimension is inferred, which NumPy
    refuses when the known dimensions multiply to zero or do not divide
    the size. *)
Definition reshape_infer (a : ndarray) (known : list nat) : result ndarray :=
  let k := prod_shape known in
  if decide (k = 0) then Raise ValueError
  else if decide (size a `mod` k = 0)
  then Ok (mk_ndarray (arr_dtype a) (known ++ [size a / k]) (arr_data a))
  else Raise ValueError.

(** [a[:, :, :k]]. *)
Definition slice_axis2 (k : nat) (a : ndarray) : result ndarray :=
  match arr_shape a with
  | h :: w :: c :: rest =>
      let r := prod_shape rest in
      Ok (mk_ndarray (arr_dtype a) (h :: w :: (k `min` c) :: rest)
            (flat_map (take ((k `min` c) * r)) (chunks (c * r) (h * w) (arr_data a))))
  | _ => Raise IndexError
  end.

(** Broadcasting of data of shape [src] to the shape [tgt] of the same
    number of dimensions. *)
Fixpoint broadcast (tgt src : list nat) (d : list Z) : option (list Z) :=
  match tgt, src with
  | [], [] => Some d
  | t :: tgt', s :: src' =>
      if decide (s = t)
      then rs ← mapM (broadcast tgt' src') (chunks (prod_shape src') s d); Some (concat rs)
      else if decide (s = 1)
      then r ← broadcast tgt' src' d; Some (concat (replicate t r))
      else None
  | _, _ => None
  end.

(** Assignment drops the leading axes of length one that the value has
    in excess of the target. *)
Fixpoint strip_leading (extra : nat) (s : list nat) : list nat :=
  match extra, s with
  | S e, 1 :: s' => strip_leading e s'
  | _, _ => s
  end.

Definition astype (src dst : dtype) (z : Z) : Z :=
  if decide (src = dst) then z else cast src dst z.

(** [dst[...] = value] for a [dst] of shape [s] and dtype [d]: the
    elements that end up in [dst]. *)
Definition assign (d : dtype) (s : list nat) (value : ndarray) : result (list Z) :=
  let vs := strip_leading (ndim value - length s) (arr_shape value) in
  match broadcast s (replicate (length s - length vs) 1 ++ vs) (arr_data value) with
  | Some xs => Ok (astype (arr_dtype value) d <$> xs)
  | None => Raise ValueError
  end.

(** [np.concatenate([a, b], axis=2)] of two 3-D arrays of one dtype. *)
Definition concatenate_axis2 (a b : ndarray) : result ndarray :=
  match arr_shape a, arr_shape b with
  | [h; w; c1], [h'; w'; c2] =>
      if decide (h = h' ∧ w = w')
      then Ok (mk_ndarray (arr_dtype a) [h; w; c1 + c2]
                 (concat (zip_with app (chunks c1 (h * w) (arr_data a))
                                       (chunks c2 (h * w) (arr_data b)))))
      else Raise ValueError
  | _, _ => Raise ValueError
  end.

End native.

End Np.

Import Np.

(** ** [nntools/utils/misc.py] *)

Definition is_image (array : ndarray) : bool :=
  if decide (arr_dtype array = uint8) then
    match arr_shape array with
    | [_; _] => true
    | [_; _; c] => bool_decide (c ∈ [1; 3; 4])
    | _ => false
    end
  else false.

(** [can_be_stored_as_image] answers [True], a dtype, or [False]. *)
Inductive storable :=
  | StoredAsIs
  | StoredPacked (d : dtype)
  | NotStorable.

(** The truth value of such an answer: a dtype object is true. *)
Definition storable_truth (s : storable) : bool :=
  match s with
  | NotStorable => false
  | _ => true
  end.

Definition packable (d : dtype) : bool :=
  bool_decide (d ∈ [uint16; uint32; int16; int32]).

Definition can_be_stored_as_image (array : ndarray) : storable :=
  if is_image array then StoredAsIs
  else if packable (arr_dtype array) && bool_decide (ndim array = 2)
  then StoredPacked (arr_dtype array)
  else NotStorable.

(** [h, w = array.shape[:2]] *)
Definition shape_hw (a : ndarray) : result (nat * nat) :=
  match arr_shape a with
  | h :: w :: _ => Ok (h, w)
  | _ => Raise ValueError
  end.

Section misc.
Variable bo : byteorder.
Variable cast : dtype → dtype → Z → Z.

Definition convert_to_image (array : ndarray) (original_dtype : dtype)
  : result ndarray :=
  '(h, w) ← shape_hw array;
  channels ← match original_dtype with
             | uint16 | int16 => Ok 2
             | uint32 | int32 => Ok 4
             | _ => Raise UnboundLocalError
             end;
  (* container.view(dtype=original_dtype).reshape(h, w)[:, :] = array *)
  xs ← assign cast original_dtype [h; w] array;
  let container :=
    mk_ndarray uint8 [h; w; channels] (flat_map (encode bo original_dtype) xs) in
  container ← reshape_infer container [h; w];
  container ←
    match arr_shape container with
    | [_; _; 2] => concatenate_axis2 container (zeros [h; w; 1] uint8)
    | _ => Ok container
    end;
  reshape_infer container [h; w].

Definition revert_image_to_original_dtype (image : ndarray) (original_dtype : dtype)
  : result ndarray :=
  '(h, w) ← shape_hw image;
  image ← (if bool_decide (original_dtype ∈ [uint16; int16])
           then slice_axis2 2 image else Ok image);
  v ← view bo image original_dtype;
  v ← reshape v [h; w];
  xs ← assign cast original_dtype [h; w] v;
  Ok (mk_ndarray original_dtype [h; w] xs).

End misc.


(** ** Python values, dictionaries and indexing *)

(** The value of a field of a sample. *)
Inductive value :=
  | Array (a : ndarray)          (* an [np.ndarray] *)
  | Scalar (d : dtype) (z : Z)   (* a NumPy scalar such as [np.int64(3)] *)
  | PyInt (z : Z)
  | PyStr (s : string).

(** A [dict] keeps its keys in insertion order. *)
Module Dict.
Section dict.
Context {V : Type}.

Fixpoint get (k : string) (d : list (string * V)) : option V :=
  match d with
  | [] => None
  | (k', v) :: d' => if decide (k = k') then Some v else get k d'
  end.

Definition mem (k : string) (d : list (string * V)) : bool :=
  bool_decide (k ∈ d.*1).

(** [d[k] = v]: an existing key keeps its place, a new one goes last. *)
Fixpoint set (k : string) (v : V) (d : list (string * V)) : list (string * V) :=
  match d with
  | [] => [(k, v)]
  | (k', v') :: d' =>
      if decide (k = k') then (k, v) :: d' else (k', v') :: set k v d'
  end.

(** What is left of [d] after [d.pop(k)] or [del d[k]]. *)
Fixpoint remove (k : string) (d : list (string * V)) : list (string * V) :=
  match d with
  | [] => []
  | (k', v) :: d' =>
      if decide (k = k') then d' else (k', v) :: remove k d'
  end.
End dict.
End Dict.

Abbreviation dict V := (list (string * V)).
Abbreviation sample := (list (string * value)).

(** [l[i]] for a Python integer [i]: negative indices count from the end. *)
Definition py_index (n : nat) (i : Z) : option nat :=
  if decide (0 ≤ i < Z.of_nat n)%Z then Some (Z.to_nat i)
  else if decide (- Z.of_nat n ≤ i < 0)%Z then Some (Z.to_nat (Z.of_nat n + i))
  else None.

Definition getitem {A} (l : list A) (i : Z) : result A :=
  match py_index (length l) i ≫= (l !!.) with
  | Some x => Ok x
  | None => Raise IndexError
  end.

Definition dict_getitem {V} (d : dict V) (k : string) : result V :=
  match Dict.get k d with
  | Some v => Ok v
  | None => Raise KeyError
  end.

(** ** Stateful code: a state that survives exceptions *)

Record M (S A : Type) : Type := mkM { runM : S → S * result A }.
Arguments mkM {S A} _.
Arguments runM {S A} _ _.

#[global] Instance M_ret {S} : MRet (M S) := λ A a, mkM (λ s, (s, Ok a)).
#[global] Instance M_bind {S} : MBind (M S) := λ A B f m,
  mkM (λ s, match runM m s with
            | (s', Ok a) => runM (f a) s'
            | (s', Raise e) => (s', Raise e)
            end).

Definition raise {S A} (e : exn) : M S A := mkM (λ s, (s, Raise e)).
Definition lift {S A} (r : result A) : M S A := mkM (λ s, (s, r)).
Definition gets {S A} (f : S → A) : M S A := mkM (λ s, (s, Ok (f s))).
Definition modify {S} (f : S → S) : M S unit := mkM (λ s, (f s, Ok ())).

(** [try: m except e: handler] *)
Definition try_except {S A} (m : M S A) (e : exn) (handler : M S A) : M S A :=
  mkM (λ s, match runM m s with
            | (s', Raise e') => if decide (e' = e) then runM handler s' else (s', Raise e')
            | r => r
            end).

Fixpoint for_each {S A} (l : list A) (body : A → M S unit) : M S unit :=
  match l with
  | [] => mret ()
  | x :: l' => body x;; for_each l' body
  end.

(** ** Named shared memory ([multiprocessing.shared_memory]) *)

(** The regions that exist and the names they currently go by; a block is
    the list of its bytes.  Unlinking withdraws the name, the block stays
    for the processes that hold it. *)
Record shm_store := mk_store {
  shm_names : gmap string nat;
  shm_blocks : list (list Z);
}.

(** A [SharedMemory] object of one process. *)
Record SharedMemory := mk_shm {
  shm_name : string;
  shm_block : nat;
  shm_closed : bool;
}.

(** [SharedMemory(name=name, size=size, create=True)]: a fresh region is
    filled with zeros by the system.  The system refuses some strings as
    names of regions (a name with a slash in it, a name that is too long)
    with a plain [OSError]; which ones is up to the platform, and given by
    [name_ok]. *)
Definition shm_create (name_ok : string → bool) (name : string) (size : nat)
  : M shm_store SharedMemory :=
  mkM (λ st,
    if decide (size = 0) then (st, Raise ValueError)
    else if negb (name_ok name) then (st, Raise OSError)
    else match shm_names st !! name with
         | Some _ => (st, Raise FileExistsError)
         | None =>
             let b := length (shm_blocks st) in
             (mk_store (<[name := b]> (shm_names st))
                       (shm_blocks st ++ [replicate size 0%Z]),
              Ok (mk_shm name b false))
         end).

(** [SharedMemory(name=name, size=size, create=False)]: the size asked for
    is ignored, the handle spans the region as it exists. *)
Definition shm_attach (name_ok : string → bool) (name : string)
  : M shm_store SharedMemory :=
  mkM (λ st,
    if negb (name_ok name) then (st, Raise OSError)
    else match shm_names st !! name with
         | Some b => (st, Ok (mk_shm name b false))
         | None => (st, Raise FileNotFoundError)
         end).

Definition shm_unlink (h : SharedMemory) : M shm_store unit :=
  mkM (λ st,
    match shm_names st !! shm_name h with
    | Some _ => (mk_store (delete (shm_name h) (shm_names st)) (shm_blocks st), Ok ())
    | None => (st, Raise FileNotFoundError)
    end).

Definition shm_close (h : SharedMemory) : SharedMemory :=
  mk_shm (shm_name h) (shm_block h) true.

Definition block_bytes (st : shm_store) (b : nat) : list Z :=
  default [] (shm_blocks st !! b).

Definition block_write (b : nat) (offset : nat) (bytes : list Z) (st : shm_store)
  : shm_store :=
  mk_store (shm_names st)
    (alter (λ old, take offset old ++ bytes ++ drop (offset + length bytes) old)
       b (shm_blocks st)).

(** [view[:] = 0] for an array that spans the whole block. *)
Definition block_zero (b : nat) (st : shm_store) : shm_store :=
  mk_store (shm_names st)
    (alter (λ old, replicate (length old) 0%Z) b (shm_blocks st)).

(** ** [nntools/utils/io.py] *)

Inductive imread_flag := IMREAD_UNCHANGED | IMREAD_GRAYSCALE | IMREAD_COLOR.

(** [image[:, :, ::-1]] on a 3-D array. *)
Definition flip_axis2 (a : ndarray) : ndarray :=
  match arr_shape a with
  | [h; w; c] =>
      mk_ndarray (arr_dtype a) [h; w; c]
        (flat_map reverse (chunks c (h * w) (arr_data a)))
  | _ => a
  end.

(** [cv2.imread] is the parameter [imread]; it answers [None] for a file it
    cannot read, on which [image.ndim] fails. *)
Definition read_image {P} (imread : imread_flag → P → option ndarray)
    (filepath : P) (flag : option imread_flag) : result ndarray :=
  let flag := default IMREAD_UNCHANGED flag in
  match imread flag filepath with
  | None => Raise AttributeError
  | Some image =>
      if decide (ndim image = 3) then Ok (flip_axis2 image) else Ok image
  end.

(** ** Python numbers

    [multiplicative_size_factor: float = 1] holds the [int] it defaults to
    or the [float] it is given; a [float] is a double (53 bits of
    precision, rounding to nearest, ties to even). *)

Inductive number :=
  | PyLong (z : Z)
  | PyFloat (f : spec_float).

Definition float_mul : spec_float → spec_float → spec_float := SFmul 53 1024.

(** [float(z)], as the product of a [float] and an [int] converts the
    [int]. *)
Definition float_of_int (z : Z) : result spec_float :=
  match binary_normalize 53 1024 z 0 false with
  | S754_infinity _ => Raise OverflowError
  | f => Ok f
  end.

(** [int(f)]: truncation towards zero. *)
Definition int_of_float (f : spec_float) : result Z :=
  match f with
  | S754_nan => Raise ValueError
  | S754_infinity _ => Raise OverflowError
  | S754_zero _ => Ok 0%Z
  | S754_finite s m e =>
      let a := if (0 <=? e)%Z then (Z.pos m * 2 ^ e)%Z
               else (Z.pos m / 2 ^ (- e))%Z in
      Ok (if s then (- a)%Z else a)
  end.

(** [int(factor * n)] *)
Definition scaled_length (factor : number) (n : nat) : result Z :=
  match factor with
  | PyLong z => Ok (z * Z.of_nat n)%Z
  | PyFloat f => g ← float_of_int (Z.of_nat n); int_of_float (float_mul f g)
  end.

(** [sys.maxsize] of a 64-bit build: the largest length [len] returns. *)
Definition sys_maxsize : Z := (2 ^ 63 - 1)%Z.

(** ** [nntools/dataset/abstract_image_dataset.py] *)

Inductive cache_option_t := CACHE_DISK | CACHE_MEMORY.
Inductive filling_t := FILL_UPSAMPLE | FILL_DOWNSAMPLE.

Inductive tag_t :=
  | TagStr (s : string)
  | TagDict (d : dict value).

(** The composer of a dataset, of which the cache uses two entry points. *)
Record Composition := mk_composition {
  precache_call : sample → sample;
  postcache_call : sample → sample;
}.

(** An entry of [shared_arrays]: a view of a shared block at a dtype and a
    shape, an array of the process, or the 1-D array of the process that
    stands for a field which is not an array. *)
Inductive cache_array :=
  | InShm (block : nat) (d : dtype) (s : list nat)
  | InProcess (a : ndarray)
  | InProcessItems (items : list value).

Record dataset := mk_dataset {
  shape : option (nat * nat);
  auto_pad : bool;
  auto_resize : bool;
  flag : imread_flag;
  use_cache : bool;
  cache_option : option cache_option_t;
  return_indices : bool;
  return_tag : bool;
  multiplicative_size_factor : number;
  dataset_id : string;
  tag : option tag_t;
  composer : option Composition;
  filling_strategy : option filling_t;
  gt_column : option (list string);
  ignore_keys : list string;
  img_filepath : dict (list string);
  gts : dict (list value);
  shared_arrays : dict cache_array;
  cache_with_shared_array : bool;
  cache_initialized : bool;
  cache_filled : bool;
  _is_first_process : bool;
  shms : option (list SharedMemory);
  _cache_items : option nat;
}.

(** Assignment to one attribute. *)
Definition set_use_cache (x : bool) (ds : dataset) : dataset :=
  mk_dataset (shape ds) (auto_pad ds) (auto_resize ds) (flag ds) x
    (cache_option ds) (return_indices ds) (return_tag ds)
    (multiplicative_size_factor ds) (dataset_id ds) (tag ds) (composer ds)
    (filling_strategy ds) (gt_column ds) (ignore_keys ds) (img_filepath ds)
    (gts ds) (shared_arrays ds) (cache_with_shared_array ds)
    (cache_initialized ds) (cache_filled ds) (_is_first_process ds) (shms ds)
    (_cache_items ds).

Definition set_gt_column (x : option (list string)) (ds : dataset) : dataset :=
  mk_dataset (shape ds) (auto_pad ds) (auto_resize ds) (flag ds)
    (use_cache ds) (cache_option ds) (return_indices ds) (return_tag ds)
    (multiplicative_size_factor ds) (dataset_id ds) (tag ds) (composer ds)
    (filling_strategy ds) x (ignore_keys ds) (img_filepath ds) (gts ds)
    (shared_arrays ds) (cache_with_shared_array ds) (cache_initialized ds)
    (cache_filled ds) (_is_first_process ds) (shms ds) (_cache_items ds).

Definition set_img_filepath (x : dict (list string)) (ds : dataset) : dataset :=
  mk_dataset (shape ds) (auto_pad ds) (auto_resize ds) (flag ds)
    (use_cache ds) (cache_option ds) (return_indices ds) (return_tag ds)
    (multiplicative_size_factor ds) (dataset_id ds) (tag ds) (composer ds)
    (filling_strategy ds) (gt_column ds) (ignore_keys ds) x (gts ds)
    (shared_arrays ds) (cache_with_shared_array ds) (cache_initialized ds)
    (cache_filled ds) (_is_first_process ds) (shms ds) (_cache_items ds).

Definition set_gts (x : dict (list value)) (ds : dataset) : dataset :=
  mk_dataset (shape ds) (auto_pad ds) (auto_resize ds) (flag ds)
    (use_cache ds) (cache_option ds) (return_indices ds) (return_tag ds)
    (multiplicative_size_factor ds) (dataset_id ds) (tag ds) (composer ds)
    (filling_strategy ds) (gt_column ds) (ignore_keys ds) (img_filepath ds) x
    (shared_arrays ds) (cache_with_shared_array ds) (cache_initialized ds)
    (cache_filled ds) (_is_first_process ds) (shms ds) (_cache_items ds).

Definition set_shared_arrays (x : dict cache_array) (ds : dataset) : dataset :=
  mk_dataset (shape ds) (auto_pad ds) (auto_resize ds) (flag ds)
    (use_cache ds) (cache_option ds) (return_indices ds) (return_tag ds)
    (multiplicative_size_factor ds) (dataset_id ds) (tag ds) (composer ds)
    (filling_strategy ds) (gt_column ds) (ignore_keys ds) (img_filepath ds)
    (gts ds) x (cache_with_shared_array ds) (cache_initialized ds)
    (cache_filled ds) (_is_first_process ds) (shms ds) (_cache_items ds).

Definition set_cache_initialized (x : bool) (ds : dataset) : dataset :=
  mk_dataset (shape ds) (auto_pad ds) (auto_resize ds) (flag ds)
    (use_cache ds) (cache_option ds) (return_indices ds) (return_tag ds)
    (multiplicative_size_factor ds) (dataset_id ds) (tag ds) (composer ds)
    (filling_strategy ds) (gt_column ds) (ignore_keys ds) (img_filepath ds)
    (gts ds) (shared_arrays ds) (cache_with_shared_array ds) x
    (cache_filled ds) (_is_first_process ds) (shms ds) (_cache_items ds).

Definition set_is_first_process (x : bool) (ds : dataset) : dataset :=
  mk_dataset (shape ds) (auto_pad ds) (auto_resize ds) (flag ds)
    (use_cache ds) (cache_option ds) (return_indices ds) (return_tag ds)
    (multiplicative_size_factor ds) (dataset_id ds) (tag ds) (composer ds)
    (filling_strategy ds) (gt_column ds) (ignore_keys ds) (img_filepath ds)
    (gts ds) (shared_arrays ds) (cache_with_shared_array ds)
    (cache_initialized ds) (cache_filled ds) x (shms ds) (_cache_items ds).

Definition set_shms (x : option (list SharedMemory)) (ds : dataset) : dataset :=
  mk_dataset (shape ds) (auto_pad ds) (auto_resize ds) (flag ds)
    (use_cache ds) (cache_option ds) (return_indices ds) (return_tag ds)
    (multiplicative_size_factor ds) (dataset_id ds) (tag ds) (composer ds)
    (filling_strategy ds) (gt_column ds) (ignore_keys ds) (img_filepath ds)
    (gts ds) (shared_arrays ds) (cache_with_shared_array ds)
    (cache_initialized ds) (cache_filled ds) (_is_first_process ds) x
    (_cache_items ds).

Definition set_cache_items (x : option nat) (ds : dataset) : dataset :=
  mk_dataset (shape ds) (auto_pad ds) (auto_resize ds) (flag ds)
    (use_cache ds) (cache_option ds) (return_indices ds) (return_tag ds)
    (multiplicative_size_factor ds) (dataset_id ds) (tag ds) (composer ds)
    (filling_strategy ds) (gt_column ds) (ignore_keys ds) (img_filepath ds)
    (gts ds) (shared_arrays ds) (cache_with_shared_array ds)
    (cache_initialized ds) (cache_filled ds) (_is_first_process ds) (shms ds)
    x.

(** The object and the shared memory it works on. *)
Record world := mk_world {
  self : dataset;
  shm : shm_store;
}.

Definition attr {A} (f : dataset → A) : M world A := gets (λ w, f (self w)).

Definition update_self (f : dataset → dataset) : M world unit :=
  modify (λ w, mk_world (f (self w)) (shm w)).

Definition on_shm {A} (m : M shm_store A) : M world A :=
  mkM (λ w, let '(st, r) := runM m (shm w) in (mk_world (self w) st, r)).

Definition shape_converter (s : option (nat + nat * nat)) : option (nat * nat) :=
  match s with
  | None => None
  | Some (inl n) => Some (n, n)
  | Some (inr hw) => Some hw
  end.

Definition real_length : M world nat :=
  files ← attr img_filepath;
  image ← lift (dict_getitem files "image");
  mret (length image).

(** [__len__] *)
Definition __len__ : M world Z :=
  factor ← attr multiplicative_size_factor;
  n ← real_length;
  lift (scaled_length factor n).

(** [len(self)]: Python refuses a negative [__len__] and one above
    [sys.maxsize]. *)
Definition len : M world Z :=
  l ← __len__;
  if decide (l < 0)%Z then raise ValueError
  else if decide (sys_maxsize < l)%Z then raise OverflowError
  else mret l.

Fixpoint fold_each {S A B} (l : list A) (acc : B) (body : B → A → M S B) : M S B :=
  match l with
  | [] => mret acc
  | x :: l' => acc' ← body acc x; fold_each l' acc' body
  end.

(** [v.ndim] *)
Definition value_ndim (v : value) : result nat :=
  match v with
  | Array a => Ok (ndim a)
  | Scalar _ _ => Ok 0
  | PyInt _ | PyStr _ => Raise AttributeError
  end.

(** [v[:, :]] and [v[:, :, :]]: [n] full slices. *)
Definition full_slices (n : nat) (v : value) : result ndarray :=
  match v with
  | Array a => if decide (n ≤ ndim a) then Ok a else Raise IndexError
  | Scalar _ _ => Raise IndexError
  | PyInt _ | PyStr _ => Raise TypeError
  end.

(** [a[item]] on the elements [xs] of an array of dtype [d] and shape [s]. *)
Definition array_item (d : dtype) (s : list nat) (xs : list Z) (item : Z)
  : result value :=
  match s with
  | [] => Raise IndexError
  | n :: rest =>
      match py_index n item with
      | None => Raise IndexError
      | Some i =>
          let k := prod_shape rest in
          let slice := take k (drop (i * k) xs) in
          match rest with
          | [] => Ok (Scalar d (default 0%Z (head slice)))
          | _ => Ok (Array (mk_ndarray d rest slice))
          end
      end
  end.

(** Every byte of block [b] is zero. *)
Definition zero_block (st : shm_store) (b : nat) : Prop :=
  Forall (λ x, x = 0%Z) (block_bytes st b).

(** The entry [j] of the bitmap held in block [b] is true. *)
Definition bitmap_true (st : shm_store) (b : nat) (j : nat) : Prop :=
  ∃ x, block_bytes st b !! j = Some x ∧ x ≠ 0%Z.

(** No view held in [shared_arrays] is a view of block [b]. *)
Definition avoids (b : nat) (ds : dataset) : Prop :=
  ∀ k b' d s, (k, InShm b' d s) ∈ shared_arrays ds → b' ≠ b.

(** From [w] to [w'] the bitmap in block [b] was neither moved nor
    written. *)
Definition bitmap_kept (b : nat) (w w' : world) : Prop :=
  _cache_items (self w') = _cache_items (self w)
  ∧ block_bytes (shm w') b = block_bytes (shm w) b
  ∧ (avoids b (self w) → avoids b (self w')).

Section dataset.
Variable bo : byteorder.
Variable cast : dtype → dtype → Z → Z.
(** The names that the system accepts for a region of shared memory. *)
Variable name_ok : string → bool.
(** What [np.ndarray(n, dtype=t)] finds in the memory it is given. *)
Variable uninitialized : string → nat → list value.
(** [cv2.imread], and [resize] and [pad] of
    [nntools.dataset.functional.geometry]. *)
Variable imread : imread_flag → string → option ndarray.
Variable resize pad : option (nat * nat) → ndarray → ndarray.
(** [NNOpt.MISSING_DATA_FLAG] *)
Variable MISSING_DATA_FLAG : string.

Definition resize_and_pad (ds : dataset) (image : ndarray) : ndarray :=
  let image := if auto_resize ds then resize (shape ds) image else image in
  if auto_pad ds then pad (shape ds) image else image.

(** The body of the loop of [load_image]; the base class has no
    [filling_strategy] of its own. *)
Definition load_file (ds : dataset) (filepath : string) : result ndarray :=
  let read :=
    img ← read_image imread filepath (Some (flag ds));
    Ok (resize_and_pad ds img) in
  if decide (filepath = MISSING_DATA_FLAG) then
    match filling_strategy ds with
    | None => Raise AttributeError
    | Some FILL_UPSAMPLE =>
        match shape ds with
        | Some (h, w) => Ok (zeros [h; w] uint8)
        | None => Raise TypeError
        end
    | Some _ => read
    end
  else read.

Fixpoint load_files (ds : dataset) (item : Z) (files : dict (list string))
    (inputs : sample) : result sample :=
  match files with
  | [] => Ok inputs
  | (k, file_list) :: files' =>
      filepath ← getitem file_list item;
      img ← load_file ds filepath;
      load_files ds item files' (Dict.set k (Array img) inputs)
  end.

Definition AbstractImageDataset_load_image (ds : dataset) (item : Z)
  : result sample :=
  load_files ds item (img_filepath ds) [].

(** [np.expand_dims(v, 2)] of a 2-D array. *)
Definition expand_dims2 (v : value) : value :=
  match v with
  | Array a =>
      if decide (ndim a = 2)
      then Array (mk_ndarray (arr_dtype a) (arr_shape a ++ [1]) (arr_data a))
      else v
  | _ => v
  end.

Fixpoint load_gts (item : Z) (tables : dict (list value)) (inputs : sample)
  : result sample :=
  match tables with
  | [] => Ok inputs
  | (k, table) :: tables' =>
      v ← getitem table item;
      load_gts item tables' (Dict.set k v inputs)
  end.

(** [classif_dataset.py]: [ClassificationDataset.load_image] *)
Definition ClassificationDataset_load_image (ds : dataset) (item : Z)
  : result sample :=
  inputs ← AbstractImageDataset_load_image ds item;
  load_gts item (gts ds) (prod_map id expand_dims2 <$> inputs).

(** A dataset with a [gt_column] is a [ClassificationDataset]. *)
Definition load_image (ds : dataset) (item : Z) : result sample :=
  match gt_column ds with
  | Some _ => ClassificationDataset_load_image ds item
  | None => AbstractImageDataset_load_image ds item
  end.

Definition precompose_data (ds : dataset) (data : sample) : sample :=
  match composer ds with
  | Some c => precache_call c data
  | None => data
  end.

(** *** The shared-memory cache *)

Definition append_shm (h : SharedMemory) : M world unit :=
  l ← attr shms;
  match l with
  | Some l => update_self (set_shms (Some (l ++ [h])))
  | None => raise AttributeError
  end.

(** [try: SharedMemory(..., create=True)
     except FileExistsError: SharedMemory(..., create=False)],
    with whether the region was created here. *)
Definition create_or_attach (name : string) (size : nat)
  : M world (SharedMemory * bool) :=
  on_shm (try_except (h ← shm_create name_ok name size; mret (h, true))
            FileExistsError
            (h ← shm_attach name_ok name; mret (h, false))).

(** [np.frombuffer(buffer=shm.buf, dtype=d).reshape(s)] *)
Definition frombuffer_reshape (h : SharedMemory) (d : dtype) (s : list nat)
  : M world cache_array :=
  bytes ← gets (λ w, block_bytes (shm w) (shm_block h));
  if decide (length bytes `mod` itemsize d = 0
             ∧ length bytes / itemsize d = prod_shape s)
  then mret (InShm (shm_block h) d s)
  else raise ValueError.

(** The body of the loop of [init_cache] over the fields of the first
    sample; [shared] is the local dictionary [shared_arrays]. *)
Definition init_cache_field (ds : dataset) (nb_samples : nat)
    (shared : dict cache_array) (field : string * value)
  : M world (dict cache_array) :=
  let '(key, arr) := field in
  match arr with
  | Array a =>
      let memory_shape := nb_samples :: arr_shape a in
      if cache_with_shared_array ds then
        '(h, _) ← create_or_attach
            ("nntools_" +:+ key +:+ "_" +:+ dataset_id ds)
            (nbytes a * nb_samples);
        append_shm h;;
        shared_array ← frombuffer_reshape h (arr_dtype a) memory_shape;
        on_shm (modify (block_zero (shm_block h)));;
        mret (Dict.set key shared_array shared)
      else
        mret (Dict.set key (InProcess (zeros memory_shape (arr_dtype a))) shared)
  | _ =>
      mret (Dict.set key (InProcessItems (uninitialized key nb_samples)) shared)
  end.

Definition init_cache : M world unit :=
  update_self (set_use_cache true);;
  initialized ← attr cache_initialized;
  if initialized : bool then mret () else
  ds ← attr (λ ds, ds);
  arrays ← lift (load_image ds 0);
  let arrays := precompose_data ds arrays in
  nb_samples ← real_length;
  update_self (set_shms (Some []));;
  (if cache_with_shared_array ds then
     '(h, created) ← create_or_attach
         ("nntools_" +:+ dataset_id ds +:+ "_is_item_cached") nb_samples;
     update_self (set_is_first_process created);;
     append_shm h;;
     update_self (set_cache_items (Some (shm_block h)));;
     on_shm (modify (block_zero (shm_block h)))
   else mret ());;
  shared ← fold_each arrays [] (init_cache_field ds nb_samples);
  update_self (set_shared_arrays shared);;
  update_self (set_cache_initialized true).

(** [self._cache_items[item]] *)
Definition cache_items_get (item : Z) : M world bool :=
  view ← attr _cache_items;
  match view with
  | None => raise AttributeError
  | Some b =>
      bytes ← gets (λ w, block_bytes (shm w) b);
      byte ← lift (getitem bytes item);
      mret (bool_decide (byte ≠ 0%Z))
  end.

(** [self._cache_items[item] = True] *)
Definition cache_items_set (item : Z) : M world unit :=
  view ← attr _cache_items;
  match view with
  | None => raise AttributeError
  | Some b =>
      bytes ← gets (λ w, block_bytes (shm w) b);
      match py_index (length bytes) item with
      | None => raise IndexError
      | Some i => on_shm (modify (block_write b i [1%Z]))
      end
  end.

(** [v[item]] for an entry [v] of [shared_arrays]. *)
Definition read_item (v : cache_array) (item : Z) : M world value :=
  match v with
  | InShm b d s =>
      bytes ← gets (λ w, block_bytes (shm w) b);
      lift (array_item d s (frombuffer bo d bytes) item)
  | InProcess a => lift (array_item (arr_dtype a) (arr_shape a) (arr_data a) item)
  | InProcessItems items => lift (getitem items item)
  end.

(** [self.shared_arrays[k][item, :, :] = value] with [n] slices. *)
Definition write_item (k : string) (item : Z) (n : nat) (value : ndarray)
  : M world unit :=
  arrays ← attr shared_arrays;
  target ← lift (dict_getitem arrays k);
  let '(d, s) :=
    match target with
    | InShm _ d s => (d, s)
    | InProcess a => (arr_dtype a, arr_shape a)
    | InProcessItems items => (int64, [length items])
    end in
  match s with
  | [] => raise IndexError
  | m :: rest =>
      if decide (n ≤ length rest) then
        match py_index m item with
        | None => raise IndexError
        | Some i =>
            xs ← lift (assign cast d rest value);
            let offset := i * prod_shape rest in
            match target with
            | InShm b _ _ =>
                on_shm (modify (block_write b (offset * itemsize d)
                                  (flat_map (encode bo d) xs)))
            | InProcess a =>
                let data := take offset (arr_data a) ++ xs
                            ++ drop (offset + length xs) (arr_data a) in
                update_self (set_shared_arrays
                  (Dict.set k (InProcess (mk_ndarray d s data)) arrays))
            | InProcessItems _ => raise IndexError
            end
        end
      else raise IndexError
  end.

(** The body of the loop of [load_array] that stores a fresh sample. *)
Definition store_field (item : Z) (field : string * value) : M world unit :=
  let '(k, array) := field in
  nd ← lift (value_ndim array);
  let n := if decide (nd = 2) then 2 else 3 in
  value ← lift (full_slices n array);
  write_item k item n value.

Definition load_array (item : Z) : M world sample :=
  cached ← attr use_cache;
  if negb cached then
    ds ← attr (λ ds, ds);
    data ← lift (load_image ds item);
    mret (precompose_data ds data)
  else
    initialized ← attr cache_initialized;
    (if initialized : bool then mret () else init_cache);;
    hit ← cache_items_get item;
    if hit : bool then
      arrays ← attr shared_arrays;
      fold_each arrays [] (λ out '(k, v),
        x ← read_item v item; mret (Dict.set k x out))
    else
      ds ← attr (λ ds, ds);
      arrays ← lift (load_image ds item);
      let arrays := precompose_data ds arrays in
      for_each arrays (store_field item);;
      cache_items_set item;;
      mret arrays.

(** The arrays of the dataset that [np.frombuffer] has made on the
    buffer of a handle: the bitmap, and the views of [shared_arrays]. *)
Definition exports (ds : dataset) (h : SharedMemory) : bool :=
  bool_decide (_cache_items ds = Some (shm_block h))
  || existsb (λ kv, match kv.2 with
                    | InShm b _ _ => bool_decide (b = shm_block h)
                    | _ => false
                    end) (shared_arrays ds).

(** [shm.close()] for the handle at place [i] of [self.shms]: it releases
    the buffer of the handle, which Python refuses with [BufferError]
    while an array made on that buffer is alive; a handle that is closed
    has no buffer left. *)
Definition close (i : nat) (h : SharedMemory) : M world unit :=
  ds ← attr (λ ds, ds);
  if shm_closed h then mret ()
  else if exports ds h then raise BufferError
  else update_self (λ ds, set_shms (alter shm_close i <$> shms ds) ds).

Definition __del__ : M world unit :=
  ds ← attr (λ ds, ds);
  if use_cache ds && cache_initialized ds && _is_first_process ds then
    handles ← attr shms;
    match handles with
    | None => raise AttributeError
    | Some handles =>
        for_each (imap pair handles) (λ '(i, h), close i h);;
        (if _is_first_process ds
         then for_each handles (λ h, on_shm (shm_unlink h))
         else mret ());;
        update_self (set_cache_initialized false);;
        update_self (set_is_first_process false)
    end
  else mret ().

(** *** Renaming, subsetting and access *)

(** [if old_key in d.keys(): d[new_key] = d.pop(old_key)] *)
Definition remap_dict {V} (old_key new_key : string) (d : dict V) : dict V :=
  match Dict.get old_key d with
  | Some v => Dict.set new_key v (Dict.remove old_key d)
  | None => d
  end.

Definition AbstractImageDataset_remap (old_key new_key : string) (ds : dataset)
  : dataset :=
  set_shared_arrays (remap_dict old_key new_key (shared_arrays ds))
    (set_gts (remap_dict old_key new_key (gts ds))
       (set_img_filepath (remap_dict old_key new_key (img_filepath ds)) ds)).

(** [l[l.index(old)] = new], left alone when [old] is not in [l]. *)
Fixpoint replace_first (old new : string) (l : list string) : list string :=
  match l with
  | [] => []
  | x :: l' => if decide (x = old) then new :: l' else x :: replace_first old new l'
  end.

Definition remap (old_key new_key : string) (ds : dataset) : dataset :=
  match gt_column ds with
  | Some columns =>
      AbstractImageDataset_remap old_key new_key
        (set_gt_column (Some (replace_first old_key new_key columns)) ds)
  | None => AbstractImageDataset_remap old_key new_key ds
  end.

(** [files[indices]] for a NumPy array of files. *)
Definition take_indices {A} (files : list A) (indices : list Z) : result (list A) :=
  foldr (λ i acc, x ← getitem files i; xs ← acc; Ok (x :: xs)) (Ok []) indices.

Definition subset (indices : list Z) : M world unit :=
  files ← attr img_filepath;
  for_each files (λ '(k, files),
    files' ← lift (take_indices files indices);
    update_self (λ ds, set_img_filepath (Dict.set k files' (img_filepath ds)) ds));;
  tables ← attr gts;
  for_each tables (λ '(k, files),
    files' ← lift (take_indices files indices);
    update_self (λ ds, set_gts (Dict.set k files' (gts ds)) ds)).

Definition filter_data (ds : dataset) (datadict : sample) : sample :=
  filter (λ kv, kv.1 ∉ ignore_keys ds) datadict.

Definition tag_truthy (t : tag_t) : bool :=
  match t with
  | TagStr s => bool_decide (s ≠ "")
  | TagDict d => bool_decide (d ≠ [])
  end.

Definition __getitem__ (index : Z) (return_indices_arg return_tag_arg : bool)
  : M world sample :=
  l ← len;
  if decide (l ≤ Z.abs index)%Z then raise StopIteration else
  n ← real_length;
  let index :=
    if decide (Z.of_nat n ≤ index)%Z then (index `mod` Z.of_nat n)%Z else index in
  inputs ← load_array index;
  ds ← attr (λ ds, ds);
  let outputs :=
    match composer ds with
    | Some c => postcache_call c inputs
    | None => inputs
    end in
  let outputs :=
    if return_indices ds || return_indices_arg
    then Dict.set "index" (PyInt index) outputs else outputs in
  let outputs :=
    match tag ds with
    | Some t =>
        if tag_truthy t && (return_tag ds || return_tag_arg) then
          match t with
          | TagDict d => foldl (λ out kv, Dict.set kv.1 kv.2 out) outputs d
          | TagStr s => Dict.set "tag" (PyStr s) outputs
          end
        else outputs
    | None => outputs
    end in
  mret (filter_data ds outputs).

End dataset.

(** *** Construction

    The class statement runs the class body, decorators included, and
    hands the result to [attrs]; the [__init__] that [attrs] writes stores
    the arguments, computes the defaults, runs the validators in the order
    of the attributes and ends with [__attrs_post_init__], which calls the
    [list_files] of the subclass. *)

Record init_args := mk_init_args {
  arg_shape : option (nat + nat * nat);
  arg_use_cache : bool;
  arg_cache_option : option cache_option_t;
  arg_flag : imread_flag;
  arg_return_indices : bool;
  arg_multiplicative_size_factor : number;
  arg_return_tag : bool;
  arg_id : string;
  arg_tag : option tag_t;
  arg_auto_pad : option bool;
  arg_auto_resize : option bool;
  arg_gt_column : option (list string);
}.

Definition _cache_option_validator (use_cache : bool)
    (value : option cache_option_t) : result unit :=
  if use_cache && bool_decide (value = None) then Raise ValueError else Ok ().

Definition _auto_pad_default (shape : option (nat * nat)) : bool :=
  if shape is None then false else true.

Definition _auto_pad_validator (shape : option (nat * nat)) (value : bool)
  : result unit :=
  if bool_decide (shape = None) && value then Raise ValueError else Ok ().

Definition _auto_resize_default (shape : option (nat * nat)) : bool :=
  if shape is None then false else true.

Definition _auto_resize_validator (shape : option (nat * nat)) (value : bool)
  : result unit :=
  if bool_decide (shape = None) && value then Raise ValueError else Ok ().

Definition __attrs_post_init__ (list_files : dataset → result dataset)
    (ds : dataset) : result dataset :=
  list_files
    (mk_dataset (shape ds) (auto_pad ds) (auto_resize ds) (flag ds)
       (use_cache ds) (cache_option ds) (return_indices ds)
       (return_tag ds) (multiplicative_size_factor ds) (dataset_id ds)
       (tag ds) (composer ds) (filling_strategy ds) (gt_column ds)
       [] [("image", [])] [] [] true false false false None None).

(** What a name of the class body is bound to when a decorator on it is
    evaluated: the attribute that [field()] makes, which has [default]
    and [validator], or the plain default of an annotated attribute. *)
Inductive class_name := AttrsField | PlainDefault.

(** [@name.validator] and [@name.default] *)
Definition decorator (b : class_name) : result unit :=
  match b with
  | AttrsField => Ok ()
  | PlainDefault => Raise AttributeError
  end.

(** The decorators of the class body, in its order:
    [cache_option: Optional[AllowedCacheOptions] = None] binds
    [cache_option] to [None], [auto_pad: bool = field()] and
    [auto_resize: bool = field()] bind their names to fields. *)
Definition class_body : result unit :=
  let cache_option := PlainDefault in
  decorator cache_option;;     (* @cache_option.validator *)
  let auto_pad := AttrsField in
  decorator auto_pad;;         (* @auto_pad.default *)
  decorator auto_pad;;         (* @auto_pad.validator *)
  let auto_resize := AttrsField in
  decorator auto_resize;;      (* @auto_resize.default *)
  decorator auto_resize.       (* @auto_resize.validator *)

(** Construction of a dataset: the class body has to be run before there
    is a class to call. *)
Definition __init__ (list_files : dataset → result dataset) (a : init_args)
  : result dataset :=
  class_body;;
  let shape := shape_converter (arg_shape a) in
  let auto_pad := default (_auto_pad_default shape) (arg_auto_pad a) in
  let auto_resize := default (_auto_resize_default shape) (arg_auto_resize a) in
  _cache_option_validator (arg_use_cache a) (arg_cache_option a);;
  _auto_pad_validator shape auto_pad;;
  _auto_resize_validator shape auto_resize;;
  __attrs_post_init__ list_files
    (mk_dataset shape auto_pad auto_resize (arg_flag a) (arg_use_cache a)
       (arg_cache_option a) (arg_return_indices a) (arg_return_tag a)
       (arg_multiplicative_size_factor a) (arg_id a) (arg_tag a) None None
       (arg_gt_column a) [] [] [] [] false false false false None None).

(** ** Paths and files *)

(** A path is the list of its components. *)
Abbreviation path := (list string).

Fixpoint has_dot (s : string) : bool :=
  match s with
  | EmptyString => false
  | String c s' => bool_decide (c = "."%char) || has_dot s'
  end.

(** The rest of a file name without its last suffix; a dot that ends the
    name starts no suffix. *)
Fixpoint drop_suffix (s : string) : string :=
  match s with
  | EmptyString => EmptyString
  | String c s' =>
      if has_dot s' then String c (drop_suffix s')
      else if bool_decide (c = "."%char) && negb (bool_decide (s' = EmptyString))
      then EmptyString
      else String c s'
  end.

(** [PurePath.with_suffix] on a file name and on a path. *)
Definition name_with_suffix (name suffix : string) : result string :=
  match name with
  | EmptyString => Raise ValueError
  | String c s => Ok (String c (drop_suffix s) +:+ suffix)
  end.

Definition with_suffix (p : path) (suffix : string) : result path :=
  match reverse p with
  | [] => Raise ValueError
  | name :: rest => name' ← name_with_suffix name suffix; Ok (reverse (name' :: rest))
  end.

Definition parent (p : path) : path := take (length p - 1) p.
Definition name (p : path) : string := default "" (last p).

Inductive file :=
  | ImageFile (image : ndarray)   (* what [cv2.imread] decodes from it *)
  | NpyFile (array : ndarray)
  | Directory.

Abbreviation filesystem := (gmap path file).

Definition exists_ (fs : filesystem) (p : path) : bool := bool_decide (is_Some (fs !! p)).

Definition iterdir (fs : filesystem) (p : path) : list path :=
  filter (λ q, q ≠ [] ∧ parent q = p) (map_to_list fs).*1.

(** [p.mkdir(parents=True, exist_ok=True)] *)
Fixpoint mkdir (n : nat) (p : path) (fs : filesystem) : filesystem :=
  match n with
  | O => fs
  | S n' =>
      let fs := mkdir n' p fs in
      let q := take (S n') p in
      if exists_ fs q then fs else <[q := Directory]> fs
  end.

Definition fs_imread (fs : filesystem) (flag : imread_flag) (p : path)
  : option ndarray :=
  match fs !! p with
  | Some (ImageFile image) => Some image
  | _ => None
  end.

Definition np_save (p : path) (array : ndarray) (fs : filesystem) : filesystem :=
  <[p := NpyFile array]> fs.

Definition np_load (fs : filesystem) (p : path) : result ndarray :=
  match fs !! p with
  | Some (NpyFile array) => Ok array
  | Some _ => Raise ValueError
  | None => Raise FileNotFoundError
  end.

(** ** [nntools/dataset/cache/disk.py] *)

Module Metadata.
Record t := mk {
  cache_folder : path;
  is_image : bool;
  can_be_stored_as_image : storable;
}.
End Metadata.

Record DiskCache := mk_disk_cache {
  cache_folders : dict Metadata.t;
  in_memory_items : list string;
  root_cache_folder : option path;
  needs_filling : bool;
  cache_dir : string;
  (* attributes of [AbstractCache] *)
  is_initialized : bool;
  is_item_cached : list bool;
  nb_samples : nat;
}.

Definition set_cache_folders (x : dict Metadata.t) (c : DiskCache) : DiskCache :=
  mk_disk_cache x (in_memory_items c) (root_cache_folder c) (needs_filling c)
    (cache_dir c) (is_initialized c) (is_item_cached c) (nb_samples c).

Definition set_in_memory_items (x : list string) (c : DiskCache) : DiskCache :=
  mk_disk_cache (cache_folders c) x (root_cache_folder c) (needs_filling c)
    (cache_dir c) (is_initialized c) (is_item_cached c) (nb_samples c).

Definition set_root_cache_folder (x : option path) (c : DiskCache) : DiskCache :=
  mk_disk_cache (cache_folders c) (in_memory_items c) x (needs_filling c)
    (cache_dir c) (is_initialized c) (is_item_cached c) (nb_samples c).

Definition set_needs_filling (x : bool) (c : DiskCache) : DiskCache :=
  mk_disk_cache (cache_folders c) (in_memory_items c) (root_cache_folder c) x
    (cache_dir c) (is_initialized c) (is_item_cached c) (nb_samples c).

Definition set_is_initialized (x : bool) (c : DiskCache) : DiskCache :=
  mk_disk_cache (cache_folders c) (in_memory_items c) (root_cache_folder c)
    (needs_filling c) (cache_dir c) x (is_item_cached c) (nb_samples c).

Definition set_is_item_cached (x : list bool) (c : DiskCache) : DiskCache :=
  mk_disk_cache (cache_folders c) (in_memory_items c) (root_cache_folder c)
    (needs_filling c) (cache_dir c) (is_initialized c) x (nb_samples c).

(** The cache object and the file system it works on. *)
Record disk_world := mk_disk_world {
  cache : DiskCache;
  fs : filesystem;
}.

Definition cattr {A} (f : DiskCache → A) : M disk_world A := gets (λ w, f (cache w)).

Definition update_cache (f : DiskCache → DiskCache) : M disk_world unit :=
  modify (λ w, mk_disk_world (f (cache w)) (fs w)).

Definition update_fs (f : filesystem → filesystem) : M disk_world unit :=
  modify (λ w, mk_disk_world (cache w) (f (fs w))).

(** Modelled from the spec: [AbstractCache.init_non_shared_items_tracking]
    is not among the sources; the cached-state bitmap of the disk cache is
    one boolean per item, kept in the memory of the process. *)
Definition init_non_shared_items_tracking : M disk_world unit :=
  update_cache (λ c, set_is_item_cached (replicate (nb_samples c) false) c).

Section disk.
Variable bo : byteorder.
Variable cast : dtype → dtype → Z → Z.
(** The dataset [self.d] the cache is bound to, and the methods of it
    and of [nntools.utils.io] that are not among the sources. *)
Variable d : dataset.
Variable on_disk_keys : list string.
Variable filename : Z → string → result string.
Variable read_from_disk : Z → result sample.
Variable get_precache_data : Z → result sample.
Variable precompose_data : sample → sample.
Variable composer_id : Composition → string.
Variable parse_path : string → path.
Variable save_image : ndarray → path → filesystem → filesystem.

(** [cache_dir], the id of the dataset and that of the composer are each
    the name of one folder or the empty string, which [/] leaves out of
    the path. *)
Definition get_cache_folder : M disk_world path :=
  files ← lift (dict_getitem (img_filepath d) "image");
  first ← lift (getitem files 0);
  let root_img := parent (parse_path first) in
  let folder_name := name root_img in
  c ← lift (if composer d is Some c then Ok c else Raise AttributeError);
  dir ← cattr cache_dir;
  mret (parent root_img ++ ["." +:+ folder_name +:+ "_cache"]
        ++ filter (λ segment, segment ≠ "") [dir; dataset_id d; composer_id c]).

Definition check_if_filling_is_needed : M disk_world bool :=
  folders ← cattr cache_folders;
  n ← cattr nb_samples;
  files ← gets fs;
  mret (existsb (λ kv,
          let v := Metadata.cache_folder kv.2 in
          negb (exists_ files v) || negb (bool_decide (length (iterdir files v) = n)))
        folders).

Definition init_cache_disk : M disk_world unit :=
  initialized ← cattr is_initialized;
  if initialized : bool then mret () else
  root ← get_cache_folder;
  update_cache (set_root_cache_folder (Some root));;
  arrays ← lift (get_precache_data 0);
  init_non_shared_items_tracking;;
  for_each arrays (λ '(k, v),
    match v with
    | Array a =>
        update_cache (λ c, set_cache_folders
          (Dict.set k (Metadata.mk (root ++ [k]) (is_image a) (can_be_stored_as_image a))
             (cache_folders c)) c)
    | _ =>
        if Dict.mem k (gts d)
        then update_cache (λ c, set_in_memory_items (in_memory_items c ++ [k]) c)
        else raise AssertionError
    end);;
  update_cache (λ c, set_is_item_cached (replicate (length (is_item_cached c)) false) c);;
  folders ← cattr cache_folders;
  for_each folders (λ '(k, v),
    update_fs (mkdir (length (Metadata.cache_folder v)) (Metadata.cache_folder v)));;
  needed ← check_if_filling_is_needed;
  update_cache (set_needs_filling needed);;
  update_cache (set_is_initialized true);;
  if needed : bool then mret ()
  else update_cache (λ c, set_is_item_cached (replicate (length (is_item_cached c)) true) c).

(** The file name of an item for a field: the shared prologue of
    [get_cached_item], [check_cache] and [cache_to_disk]. *)
Definition item_name (item : Z) (k : string) : result string :=
  if bool_decide (k ∈ on_disk_keys) then filename item k
  else name ← filename item "image"; name_with_suffix name ".png".

Definition get_cached_item (item : Z) : M disk_world sample :=
  items ← cattr in_memory_items;
  data ← lift (foldl (λ acc k,
                 data ← acc;
                 table ← dict_getitem (gts d) k;
                 v ← getitem table item;
                 Ok (Dict.set k v data)) (Ok []) items);
  folders ← cattr cache_folders;
  files ← gets fs;
  fold_each folders data (λ data '(k, metadata),
    name ← lift (item_name item k);
    let filepath := Metadata.cache_folder metadata ++ [name] in
    if Metadata.is_image metadata then
      image ← lift (read_image (fs_imread files) filepath (Some IMREAD_UNCHANGED));
      mret (Dict.set k (Array image) data)
    else if storable_truth (Metadata.can_be_stored_as_image metadata) then
      p ← lift (with_suffix filepath ".png");
      cached ← lift (read_image (fs_imread files) p (Some IMREAD_UNCHANGED));
      original_dtype ← lift (match Metadata.can_be_stored_as_image metadata with
                             | StoredPacked dt => Ok dt
                             | _ => Raise TypeError
                             end);
      image ← lift (revert_image_to_original_dtype bo cast cached original_dtype);
      mret (Dict.set k (Array image) data)
    else
      p ← lift (with_suffix filepath ".npy");
      array ← lift (np_load files p);
      mret (Dict.set k (Array array) data)).

Fixpoint check_folders (files : filesystem) (item : Z) (folders : dict Metadata.t)
  : result bool :=
  match folders with
  | [] => Ok true
  | (k, metadata) :: folders' =>
      name ← item_name item k;
      let folder := Metadata.cache_folder metadata in
      p ← (if Metadata.is_image metadata then Ok (folder ++ [name])
           else if storable_truth (Metadata.can_be_stored_as_image metadata)
           then name' ← name_with_suffix name ".png"; Ok (folder ++ [name'])
           else name' ← name_with_suffix name ".npy"; Ok (folder ++ [name']));
      if exists_ files p then check_folders files item folders' else Ok false
  end.

Definition check_cache (item : Z) : M disk_world bool :=
  folders ← cattr cache_folders;
  files ← gets fs;
  lift (check_folders files item folders).

(** The array that the codecs are handed for a value. *)
Definition as_array (v : value) : result ndarray :=
  match v with
  | Array a => Ok a
  | Scalar dt z => Ok (mk_ndarray dt [] [z])
  | PyInt z => Ok (mk_ndarray int64 [] [z])
  | PyStr _ => Raise TypeError
  end.

(** [value.dtype] *)
Definition value_dtype (v : value) : result dtype :=
  match v with
  | Array a => Ok (arr_dtype a)
  | Scalar dt _ => Ok dt
  | PyInt _ | PyStr _ => Raise AttributeError
  end.

Definition cache_to_disk (key : string) (value : value) (item : Z)
  : M disk_world unit :=
  name ← lift (item_name item key);
  folders ← cattr cache_folders;
  metadata ← lift (dict_getitem folders key);
  let filepath := Metadata.cache_folder metadata ++ [name] in
  if Metadata.is_image metadata then
    a ← lift (as_array value);
    update_fs (save_image a filepath)
  else if storable_truth (Metadata.can_be_stored_as_image metadata) then
    dt ← lift (value_dtype value);
    a ← lift (as_array value);
    image ← lift (convert_to_image bo cast a dt);
    p ← lift (with_suffix filepath ".png");
    update_fs (save_image image p)
  else
    p ← lift (with_suffix filepath ".npy");
    a ← lift (as_array value);
    update_fs (np_save p a).

(** [self.is_item_cached[item] = True] *)
Definition mark_cached (item : Z) : M disk_world unit :=
  bitmap ← cattr is_item_cached;
  match py_index (length bitmap) item with
  | Some i => update_cache (set_is_item_cached (<[i := true]> bitmap))
  | None => raise IndexError
  end.

(** What [cache_item] does once [check_cache] has answered [False]. *)
Definition recompute (item : Z) : M disk_world sample :=
  arrays ← lift (read_from_disk item);
  let arrays := precompose_data arrays in
  items ← cattr in_memory_items;
  for_each arrays (λ '(k, v),
    if bool_decide (k ∈ items) then mret () else cache_to_disk k v item);;
  mark_cached item;;
  mret arrays.

Definition cache_item (item : Z) : M disk_world sample :=
  complete ← check_cache item;
  if complete : bool then get_cached_item item else recompute item.

Definition DiskCache_getitem (item : Z) : M disk_world sample :=
  bitmap ← cattr is_item_cached;
  cached ← lift (getitem bitmap item);
  if cached : bool then get_cached_item item else cache_item item.

(** [list.remove]: the first occurrence goes. *)
Fixpoint list_remove (x : string) (l : list string) : list string :=
  match l with
  | [] => []
  | y :: l' => if decide (y = x) then l' else y :: list_remove x l'
  end.

(** The loop of [remap] adds a key to [cache_folders] and deletes one
    while it iterates over it: the rename is done, and the iterator, which
    then meets an entry it did not count on, raises [RuntimeError] at its
    next step.  This is what happens on a table with room left for the new
    key, as [init_cache] leaves it; the layout of a table that has been
    through several renames is not part of the model. *)
Definition DiskCache_remap (old_key new_key : string) : M disk_world unit :=
  folders ← cattr cache_folders;
  match Dict.get old_key folders with
  | Some v =>
      update_cache (set_cache_folders
        (Dict.remove old_key (Dict.set new_key v folders)));;
      raise RuntimeError
  | None => mret ()
  end;;
  items ← cattr in_memory_items;
  (if bool_decide (old_key ∈ items)
   then update_cache (set_in_memory_items (list_remove old_key items))
   else mret ());;
  update_cache (λ c, set_in_memory_items (in_memory_items c ++ [new_key]) c).
End disk.

(** A computation on the disk cache that never reads the file system: what
    it returns, what it leaves in the cache object and what it writes are
    the same on every file system. *)
Definition blind {A} (m : M disk_world A) : Prop :=
  ∀ c, ∃ (writes : filesystem → filesystem) (c' : DiskCache) (r : result A),
    ∀ files, runM m (mk_disk_world c files) = (mk_disk_world c' (writes files), r).

(** ** Further methods of [AbstractImageDataset] *)

Definition set_multiplicative_size_factor (x : number) (ds : dataset) : dataset :=
  mk_dataset (shape ds) (auto_pad ds) (auto_resize ds) (flag ds)
    (use_cache ds) (cache_option ds) (return_indices ds) (return_tag ds) x
    (dataset_id ds) (tag ds) (composer ds) (filling_strategy ds)
    (gt_column ds) (ignore_keys ds) (img_filepath ds) (gts ds)
    (shared_arrays ds) (cache_with_shared_array ds) (cache_initialized ds)
    (cache_filled ds) (_is_first_process ds) (shms ds) (_cache_items ds).

Definition set_ignore_keys (x : list string) (ds : dataset) : dataset :=
  mk_dataset (shape ds) (auto_pad ds) (auto_resize ds) (flag ds)
    (use_cache ds) (cache_option ds) (return_indices ds) (return_tag ds)
    (multiplicative_size_factor ds) (dataset_id ds) (tag ds) (composer ds)
    (filling_strategy ds) (gt_column ds) x (img_filepath ds) (gts ds)
    (shared_arrays ds) (cache_with_shared_array ds) (cache_initialized ds)
    (cache_filled ds) (_is_first_process ds) (shms ds) (_cache_items ds).

Definition set_composer (x : option Composition) (ds : dataset) : dataset :=
  mk_dataset (shape ds) (auto_pad ds) (auto_resize ds) (flag ds)
    (use_cache ds) (cache_option ds) (return_indices ds) (return_tag ds)
    (multiplicative_size_factor ds) (dataset_id ds) (tag ds) x
    (filling_strategy ds) (gt_column ds) (ignore_keys ds) (img_filepath ds)
    (gts ds) (shared_arrays ds) (cache_with_shared_array ds)
    (cache_initialized ds) (cache_filled ds) (_is_first_process ds) (shms ds)
    (_cache_items ds).

Definition multiply_size (factor : number) (ds : dataset) : dataset :=
  set_multiplicative_size_factor factor ds.

(** The [composer] setter. *)
Definition composer_setter (comp : Composition) (ds : dataset) : dataset :=
  set_composer (Some comp) ds.

Definition set_ignore_key (key : string) (ds : dataset) : dataset :=
  set_ignore_keys (ignore_keys ds ++ [key]) ds.

Definition clean_filter (ds : dataset) : dataset := set_ignore_keys [] ds.

Definition columns (ds : dataset) : list string * list string :=
  ((img_filepath ds).*1, (gts ds).*1).

(** ** The shared-memory cache as a store of items *)

(** The bytes of item [i] in a block of items of [sz] bytes each. *)
Definition slot (st : shm_store) (b sz i : nat) : list Z :=
  take sz (drop (i * sz) (block_bytes st b)).

(** The blocks the views held in [shared_arrays] look at. *)
Definition entry_blocks (entries : dict cache_array) : list nat :=
  omap (λ e, match e.2 with InShm b _ _ => Some b | _ => None end) entries.

(** A field of a sample has its place in an entry of [shared_arrays] made
    for [n] items: the entry goes by the key of the field and is a view,
    of the dtype and shape of the field, of a block of [n] times the bytes
    of the field; the field is an array of two dimensions or more. *)
Definition fits_entry (n : nat) (st : shm_store)
    (entry : string * cache_array) (field : string * value) : Prop :=
  match entry, field with
  | (k, InShm b d (m :: s)), (k', Array a) =>
      k = k' ∧ m = n ∧ arr_dtype a = d ∧ arr_shape a = s ∧ 2 ≤ ndim a
      ∧ wf_ndarray a ∧ length (block_bytes st b) = n * nbytes a
  | _, _ => False
  end.

(** Slot [i] of the view holds the bytes of the field. *)
Definition holds_item (bo : byteorder) (st : shm_store) (i : nat)
    (entry : string * cache_array) (field : string * value) : Prop :=
  match entry, field with
  | (_, InShm b _ _), (_, Array a) => slot st b (nbytes a) i = tobytes bo a
  | _, _ => False
  end.

(** The names of the regions of a dataset: one for the bitmap, one for
    every field. *)
Definition bitmap_name (ds : dataset) : string :=
  "nntools_" +:+ dataset_id ds +:+ "_is_item_cached".

Definition region_name (ds : dataset) (key : string) : string :=
  "nntools_" +:+ key +:+ "_" +:+ dataset_id ds.

(** A field the shared-memory cache can hold: a well-formed array of two
    dimensions or more that is not empty. *)
Definition cacheable (field : string * value) : Prop :=
  match field.2 with
  | Array a => 2 ≤ ndim a ∧ wf_ndarray a ∧ 0 < size a
  | _ => False
  end.

(** ** The files of the disk cache *)

Section disk_paths.
Variable on_disk_keys : list string.
Variable filename : Z → string → result string.

(** The file of a field of an item: where [cache_to_disk] writes it and
    where [get_cached_item] and [check_cache] look for it. *)
Definition item_path (item : Z) (k : string) (m : Metadata.t) : result path :=
  name ← item_name on_disk_keys filename item k;
  if Metadata.is_image m then Ok (Metadata.cache_folder m ++ [name])
  else if storable_truth (Metadata.can_be_stored_as_image m)
  then name' ← name_with_suffix name ".png"; Ok (Metadata.cache_folder m ++ [name'])
  else name' ← name_with_suffix name ".npy"; Ok (Metadata.cache_folder m ++ [name']).
End disk_paths.

(** What [get_cached_item] makes of the file of a field. *)
Definition read_field (bo : byteorder) (cast : dtype → dtype → Z → Z)
    (files : filesystem) (m : Metadata.t) (p : path) : result ndarray :=
  if Metadata.is_image m then
    read_image (fs_imread files) p (Some IMREAD_UNCHANGED)
  else if storable_truth (Metadata.can_be_stored_as_image m) then
    cached ← read_image (fs_imread files) p (Some IMREAD_UNCHANGED);
    original_dtype ← match Metadata.can_be_stored_as_image m with
                     | StoredPacked dt => Ok dt
                     | _ => Raise TypeError
                     end;
    revert_image_to_original_dtype bo cast cached original_dtype
  else np_load files p.

(** The metadata of a field, as [init_cache] derives it from the array of
    the first sample, describes an array. *)
Definition describes (m : Metadata.t) (a : ndarray) : Prop :=
  Metadata.is_image m = is_image a
  ∧ Metadata.can_be_stored_as_image m = can_be_stored_as_image a.

(** ** Concrete datasets for the examples

    Two 1x2 images of 8-bit pixels, [a.png] and [b.png]; no resizing, no
    padding, no composer. *)

Module Ex.

Definition img_a : ndarray := mk_ndarray uint8 [1; 2] [7; 8]%Z.
Definition img_b : ndarray := mk_ndarray uint8 [1; 2] [9; 10]%Z.

Definition imread (_ : imread_flag) (p : string) : option ndarray :=
  if decide (p = "a.png") then Some img_a
  else if decide (p = "b.png") then Some img_b
  else None.

Definition no_cast (_ _ : dtype) (z : Z) : Z := z.
Definition fresh (_ : string) (n : nat) : list value := replicate n (PyInt 0).

(** Names without a slash and of at most 253 characters. *)
Fixpoint has_slash (s : string) : bool :=
  match s with
  | EmptyString => false
  | String c s' => bool_decide (c = "/"%char) || has_slash s'
  end.

Definition name_ok (s : string) : bool :=
  negb (has_slash s) && bool_decide (String.length s ≤ 253).
Definition keep (_ : option (nat * nat)) (a : ndarray) : ndarray := a.

(** A dataset of the two images, no cache initialized, with the
    shared-memory cache switched on or off. *)
Definition images (cached : bool) : dataset :=
  mk_dataset None false false IMREAD_UNCHANGED cached
    (if cached then Some CACHE_MEMORY else None) false false (PyLong 1) "D" None None
    None None [] [("image", ["a.png"; "b.png"])] [] [] true false false false
    None None.

(** The same images with an integer label each, as a
    [ClassificationDataset] holds them. *)
Definition labelled : dataset :=
  mk_dataset None false false IMREAD_UNCHANGED true (Some CACHE_MEMORY)
    false false (PyLong 1) "D" None None None (Some ["label"]) []
    [("image", ["a.png"; "b.png"])]
    [("label", [Scalar int64 0; Scalar int64 1])] [] true false false false
    None None.

Definition no_shm : shm_store := mk_store ∅ [].

Definition init_cache : M world unit :=
  init_cache name_ok fresh imread keep keep "".

Definition load_array : Z → M world sample :=
  load_array LittleEndian no_cast name_ok fresh imread keep keep "".

Definition dataset_getitem : Z → M world sample :=
  λ i, __getitem__ LittleEndian no_cast name_ok fresh imread keep keep "" i
         false false.

(** What a process sees when it runs [m] on its own object [ds] and the
    shared memory [st]. *)
Definition run {A} (m : M world A) (ds : dataset) (st : shm_store)
  : world * result A :=
  runM m (mk_world ds st).

(** Process A initializes the cache first and creates the regions, then
    fetches item 1; process B, a worker on a copy of the same dataset,
    initializes its cache afterwards. *)
Definition creator : world := (run init_cache (images true) no_shm).1.
Definition filled : world := (runM (load_array 1) creator).1.
Definition attacher : world := (run init_cache (images true) (shm filled)).1.

Definition handles : list SharedMemory :=
  [mk_shm "nntools_D_is_item_cached" 0 false; mk_shm "nntools_image_D" 1 false].

(** A disk cache of one image field and one label kept in memory. *)
Definition image_folder : Metadata.t :=
  Metadata.mk ["data"; ".img_cache"; "D"; "C"; "image"] true StoredAsIs.

Definition disk : disk_world :=
  mk_disk_world
    (mk_disk_cache [("image", image_folder)] ["label"]
       (Some ["data"; ".img_cache"; "D"; "C"]) true "" true [false; false] 2)
    ∅.

(** The same cache with a second field, a 16-bit mask stored packed, and
    the dataset methods it calls: items are named after the images, no
    field has file names of its own, and [save_image] writes the channels
    in the order in which [read_image] reverses them. *)
Definition mask_a : ndarray := mk_ndarray int16 [1; 2] [-2; 258]%Z.
Definition mask_b : ndarray := mk_ndarray int16 [1; 2] [0; -32768]%Z.

Definition mask_folder : Metadata.t :=
  Metadata.mk ["data"; ".img_cache"; "D"; "C"; "mask"] false (StoredPacked int16).

Definition disk2 : disk_world :=
  mk_disk_world
    (mk_disk_cache [("image", image_folder); ("mask", mask_folder)] ["label"]
       (Some ["data"; ".img_cache"; "D"; "C"]) true "" true [false; false] 2)
    ∅.

Definition filename (item : Z) (_ : string) : result string :=
  getitem ["a.png"; "b.png"] item.

Definition read_from_disk (item : Z) : result sample :=
  image ← getitem [img_a; img_b] item;
  mask ← getitem [mask_a; mask_b] item;
  label ← getitem [Scalar int64 0; Scalar int64 1] item;
  Ok [("image", Array image); ("mask", Array mask); ("label", label)].

Definition save_image (a : ndarray) (p : path) (files : filesystem) : filesystem :=
  <[p := ImageFile (flip_axis2 a)]> files.

Definition fetch : Z → M disk_world sample :=
  DiskCache_getitem LittleEndian no_cast labelled [] filename read_from_disk
    id save_image.

Definition mask_file : path := ["data"; ".img_cache"; "D"; "C"; "mask"; "a.png"].
Definition image_file : path := ["data"; ".img_cache"; "D"; "C"; "image"; "a.png"].

(** Item 0 is fetched and cached, then the file of its mask is deleted. *)
Definition cached : disk_world := (runM (fetch 0) disk2).1.
Definition partial : disk_world :=
  mk_disk_world (cache cached) (delete mask_file (fs cached)).

(** The two images counted two and a half times over: the factor is the
    double 2.5, the length 5. *)
Definition two_and_a_half : spec_float := S754_finite false 5629499534213120 (-51).
Definition upsampled : dataset := multiply_size (PyFloat two_and_a_half) (images true).

(** Ten images with the factor 2.3, the double nearest to it. *)
Definition ten_images : dataset :=
  multiply_size (PyFloat (S754_finite false 5179139571476070 (-51)))
    (set_img_filepath
       [("image", ["a.png"; "b.png"; "a.png"; "b.png"; "a.png";
                   "b.png"; "a.png"; "b.png"; "a.png"; "b.png"])]
       (images false)).

(** The labelled dataset with a composer that changes nothing, and a disk
    cache for it that has not been initialized; the images are in
    [data/img]. *)
Definition composed : dataset := composer_setter (mk_composition id id) labelled.
Definition parse_path (s : string) : path := ["data"; "img"; s].
Definition composer_id (_ : Composition) : string := "C".

Definition new_disk : disk_world :=
  mk_disk_world (mk_disk_cache [] [] None false "" false [] 2) ∅.

Definition init_cache_disk : M disk_world unit :=
  init_cache_disk composed read_from_disk composer_id parse_path.

End Ex.
(** * Properties *)

(** One step of a computation in [result]. *)
Ltac run :=
  cbn [mbind mret result_bind result_ret shape_hw arr_shape arr_dtype arr_data].

(** Decisions between closed terms are settled by evaluation. *)
Ltac decide_closed :=
  repeat match goal with
    | |- context [bool_decide ?P] =>
        let v := eval vm_compute in (bool_decide P) in
        change (bool_decide P) with v
    | |- context [decide (?a = 2)] =>
        let v := eval vm_compute in (decide (a = 2)) in
        change (decide (a = 2)) with v
    end;
  cbv iota.

(** ** The packing of [misc.py] on small arrays *)

Example convert_int16 :
  convert_to_image LittleEndian (λ _ _ z, z)
    (mk_ndarray int16 [1; 2] [-2; 258]%Z) int16
  = Ok (mk_ndarray uint8 [1; 2; 3] [254; 255; 0; 2; 1; 0]%Z).
Proof. reflexivity. Qed.

Example revert_int16 :
  revert_image_to_original_dtype LittleEndian (λ _ _ z, z)
    (mk_ndarray uint8 [1; 2; 3] [254; 255; 0; 2; 1; 0]%Z) int16
  = Ok (mk_ndarray int16 [1; 2] [-2; 258]%Z).
Proof. reflexivity. Qed.

Example convert_empty :
  convert_to_image LittleEndian (λ _ _ z, z) (mk_ndarray int16 [0; 2] []) int16
  = Raise ValueError.
Proof. reflexivity. Qed.

(** ** Bytes and chunks *)

Section bytes_facts.
Open Scope Z_scope.

Lemma le_bytes_length n z : length (le_bytes n z) = n.
Proof. revert z; induction n as [|n IH]; intros z; simpl; [done|]. by rewrite IH. Qed.

Lemma le_bytes_range n z : Forall (λ b, 0 ≤ b < 256) (le_bytes n z).
Proof.
  revert z; induction n as [|n IH]; intros z; simpl; constructor; [|apply IH].
  apply Z.mod_pos_bound; lia.
Qed.

Lemma le_value_le_bytes n z : le_value (le_bytes n z) = z mod 256 ^ Z.of_nat n.
Proof.
  revert z; induction n as [|n IH]; intros z.
  - simpl. by rewrite Z.mod_1_r.
  - cbn [le_bytes le_value]. rewrite IH, Nat2Z.inj_succ, Z.pow_succ_r by lia.
    rewrite Z.rem_mul_r; [done|lia|]. apply Z.pow_pos_nonneg; lia.
Qed.

Lemma of_bytes_to_bytes bo n z :
  of_bytes bo (to_bytes bo n z) = z mod 256 ^ Z.of_nat n.
Proof.
  destruct bo; unfold of_bytes, to_bytes.
  - apply le_value_le_bytes.
  - rewrite reverse_involutive. apply le_value_le_bytes.
Qed.

Lemma to_bytes_length bo n z : length (to_bytes bo n z) = n.
Proof.
  destruct bo; unfold to_bytes; [|rewrite length_reverse]; apply le_bytes_length.
Qed.

Lemma to_bytes_range bo n z : Forall (λ b, 0 ≤ b < 256) (to_bytes bo n z).
Proof.
  destruct bo; unfold to_bytes; [apply le_bytes_range|].
  apply Forall_forall. intros b Hb. rewrite elem_of_reverse in Hb.
  revert b Hb. apply Forall_forall, le_bytes_range.
Qed.

Lemma encode_length bo d z : length (encode bo d z) = itemsize d.
Proof. apply to_bytes_length. Qed.

(** Reading back the bytes of an element of the dtype gives the element. *)
Lemma decode_encode bo d z : fits d z → decode bo d (encode bo d z) = z.
Proof.
  unfold fits, decode, encode. rewrite of_bytes_to_bytes.
  destruct d; simpl itemsize; simpl is_signed; cbv iota; simpl andb;
    repeat match goal with
      | |- context [Z.pow ?a ?b] =>
          let v := eval vm_compute in (Z.pow a b) in change (Z.pow a b) with v
      end;
    intros Hz; try (rewrite Z.mod_small by lia; done);
    match goal with
    | |- context [z mod ?m] =>
        destruct (Z.leb_spec0 0 z);
        [ rewrite Z.mod_small by lia
        | replace (z mod m) with (z + m)
            by (apply Z.mod_unique with (-1); lia) ]
    end;
    match goal with
    | |- context [(?a <=? ?b)] => destruct (Z.leb_spec0 a b); lia
    end.
Qed.

Lemma encode_byte bo b : 0 ≤ b < 256 → encode bo uint8 b = [b].
Proof.
  intros Hb. unfold encode, to_bytes; destruct bo; simpl;
    rewrite Z.mod_small by lia; done.
Qed.
End bytes_facts.

Section chunks_facts.
Context {A : Type}.
Implicit Types (l : list A) (ls : list (list A)).

Lemma chunks_length k n l : length (chunks k n l) = n.
Proof. revert l; induction n as [|n IH]; intros l; simpl; [done|]. by rewrite IH. Qed.

(** Cutting a concatenation of [k]-long pieces gives the pieces back. *)
Lemma chunks_concat k ls :
  Forall (λ c, length c = k) ls → chunks k (length ls) (concat ls) = ls.
Proof.
  induction 1 as [|c ls Hc _ IH]; simpl; [done|].
  rewrite take_app_length', drop_app_length' by done. by rewrite IH.
Qed.

Lemma chunks_flat_map {B} k (f : B → list A) (xs : list B) n :
  (∀ x, length (f x) = k) → n = length xs →
  chunks k n (flat_map f xs) = f <$> xs.
Proof.
  intros Hf ->. rewrite flat_map_concat_map.
  rewrite <- (length_fmap f xs). apply chunks_concat.
  rewrite Forall_fmap. apply Forall_forall. intros x _. apply Hf.
Qed.

Lemma concat_chunks k n l : length l = n * k → concat (chunks k n l) = l.
Proof.
  revert l; induction n as [|n IH]; intros l Hl; simpl.
  - by destruct l.
  - rewrite IH, take_drop; [done|]. rewrite length_drop. lia.
Qed.

Lemma chunks_Forall_length k n l :
  length l = n * k → Forall (λ c, length c = k) (chunks k n l).
Proof.
  revert l; induction n as [|n IH]; intros l Hl; simpl; constructor.
  - rewrite length_take. lia.
  - apply IH. rewrite length_drop. lia.
Qed.

Lemma chunks_replicate k n (x : A) :
  chunks k n (replicate (n * k) x) = replicate n (replicate k x).
Proof.
  induction n as [|n IH]; simpl; [done|].
  rewrite replicate_add, take_app_length', drop_app_length'
    by (by rewrite length_replicate).
  by rewrite IH.
Qed.
End chunks_facts.

(** ** Assignment between arrays of one shape and dtype *)

Section numpy_facts.
Variable bo : byteorder.
Variable cast : dtype → dtype → Z → Z.

Lemma broadcast_same s d :
  length d = prod_shape s → broadcast s s d = Some d.
Proof.
  revert d; induction s as [|t s IH]; intros d Hd; [done|].
  cbn [broadcast]. change (prod_shape (t :: s)) with (t * prod_shape s) in Hd.
  destruct (decide (t = t)); [|done].
  rewrite (mapM_Some_2 _ _ (chunks (prod_shape s) t d)); simpl.
  - by rewrite concat_chunks.
  - apply Forall_Forall2_diag.
    eapply Forall_impl; [by apply chunks_Forall_length|].
    intros c Hc; simpl in Hc. by apply IH.
Qed.

(** [dst[...] = a] stores the elements of [a] unchanged when [a] has the
    shape and the dtype of [dst]. *)
Lemma assign_same (a : ndarray) :
  length (arr_data a) = size a →
  assign cast (arr_dtype a) (arr_shape a) a = Ok (arr_data a).
Proof.
  intros Hlen. unfold assign, ndim.
  rewrite Nat.sub_diag. simpl strip_leading.
  replace (strip_leading 0 (arr_shape a)) with (arr_shape a)
    by (by destruct (arr_shape a)).
  rewrite Nat.sub_diag; simpl app.
  rewrite broadcast_same by done.
  f_equal. unfold astype. destruct (decide (arr_dtype a = arr_dtype a)); [|done].
  by rewrite list_fmap_id.
Qed.

Lemma tobytes_uint8 (s : list nat) (bs : list Z) :
  Forall (λ b, 0 ≤ b < 256)%Z bs →
  tobytes bo (mk_ndarray uint8 s bs) = bs.
Proof.
  unfold tobytes; simpl. induction 1 as [|b bs Hb _ IH]; simpl; [done|].
  by rewrite encode_byte, IH.
Qed.

Lemma frombuffer_encode d (xs : list Z) :
  Forall (fits d) xs →
  frombuffer bo d (flat_map (encode bo d) xs) = xs.
Proof.
  intros Hxs. unfold frombuffer.
  assert (0 < itemsize d) as Hpos by (destruct d; simpl; lia).
  assert (length (flat_map (encode bo d) xs) = length xs * itemsize d) as Hlen.
  { clear Hxs. induction xs as [|x xs IH]; simpl; [done|].
    rewrite length_app, encode_length, IH. lia. }
  rewrite Hlen, Nat.div_mul by lia.
  rewrite chunks_flat_map by (done || apply encode_length).
  rewrite <- list_fmap_compose.
  induction Hxs as [|x xs Hx _ IH]; simpl; [done|].
  rewrite decode_encode by done. f_equal. apply IH.
  clear IH Hlen. induction xs as [|y ys IH]; simpl; [done|].
  rewrite length_app, encode_length, IH. lia.
Qed.

Lemma flat_map_encode_range d (xs : list Z) :
  Forall (λ b, 0 ≤ b < 256)%Z (flat_map (encode bo d) xs).
Proof.
  induction xs as [|x xs IH]; simpl; [done|].
  apply Forall_app; split; [apply to_bytes_range|done].
Qed.
End numpy_facts.

(** ** The packed-integer image of a 2-D array *)

Section packed.
Variable bo : byteorder.
Variable cast : dtype → dtype → Z → Z.

Lemma reshape_infer_hw d h w c (bs : list Z) :
  0 < h → 0 < w →
  reshape_infer (mk_ndarray d [h; w; c] bs) [h; w]
  = Ok (mk_ndarray d [h; w; c] bs).
Proof.
  intros Hh Hw. unfold reshape_infer, size; cbn [arr_shape arr_dtype arr_data].
  assert (prod_shape [h; w] ≠ 0) as Hk by (simpl; nia).
  assert (prod_shape [h; w; c] = c * prod_shape [h; w]) as -> by (simpl; nia).
  destruct (decide (prod_shape [h; w] = 0)); [done|].
  rewrite Nat.Div0.mod_mul, Nat.div_mul by done.
  by destruct (decide (0 = 0)).
Qed.

Lemma flat_map_length_const {A B} (f : A → list B) k (xs : list A) :
  (∀ x, length (f x) = k) → length (flat_map f xs) = length xs * k.
Proof.
  intros Hf. induction xs as [|x xs IH]; simpl; [done|].
  rewrite length_app, Hf, IH. lia.
Qed.

(** What [convert_to_image] builds: the bytes of every element, followed
    by a zero byte when the element has two bytes. *)
Definition packed_pixel (d : dtype) (z : Z) : list Z :=
  if decide (itemsize d = 2) then encode bo d z ++ [0%Z] else encode bo d z.

Lemma convert_to_image_packed d h w (xs : list Z) :
  packable d = true → 0 < h → 0 < w → length xs = h * w →
  convert_to_image bo cast (mk_ndarray d [h; w] xs) d
  = Ok (mk_ndarray uint8 [h; w; if decide (itemsize d = 2) then 3 else 4]
          (flat_map (packed_pixel d) xs)).
Proof.
  intros Hd Hh Hw Hlen. unfold convert_to_image. run.
  assert (length xs = size (mk_ndarray d [h; w] xs)) as Hsz
    by (unfold size; simpl; lia).
  pose proof (assign_same cast (mk_ndarray d [h; w] xs) Hsz) as Hassign.
  cbn [arr_dtype arr_shape arr_data] in Hassign.
  destruct d; try discriminate Hd; run; rewrite Hassign; run;
    rewrite reshape_infer_hw by done; run.
  all: unfold packed_pixel; simpl itemsize; simpl decide; cbv iota.
  all: try (rewrite reshape_infer_hw by done; done).
  all: unfold concatenate_axis2; cbn [arr_shape arr_data arr_dtype zeros].
  all: destruct (decide (h = h ∧ w = w)) as [_|[]]; [|done]; run.
  all: rewrite reshape_infer_hw by done; do 2 f_equal.
  all: rewrite chunks_flat_map by (first [apply encode_length | lia]).
  all: replace (prod_shape [h; w; 1]) with (h * w * 1) by (simpl; lia).
  all: rewrite chunks_replicate, zip_with_replicate_r_eq
         by (rewrite length_fmap; lia).
  all: rewrite <- list_fmap_compose, flat_map_concat_map; done.
Qed.

Lemma view_packed d h w (xs : list Z) :
  packable d = true → Forall (fits d) xs →
  view bo (mk_ndarray uint8 [h; w; itemsize d] (flat_map (encode bo d) xs)) d
  = Ok (mk_ndarray d [h; w; 1] xs).
Proof.
  intros Hd Hfits. unfold view. cbn [arr_dtype arr_shape].
  rewrite tobytes_uint8 by apply flat_map_encode_range.
  rewrite frombuffer_encode by done.
  destruct d; try discriminate Hd; reflexivity.
Qed.

Lemma take_packed_pixel d z :
  take (itemsize d) (packed_pixel d z) = encode bo d z.
Proof.
  unfold packed_pixel. destruct (decide (itemsize d = 2)).
  - by rewrite take_app_length' by (by rewrite encode_length).
  - by rewrite take_ge by (by rewrite encode_length).
Qed.

Lemma packed_pixel_length d z :
  packable d = true →
  length (packed_pixel d z) = if decide (itemsize d = 2) then 3 else 4.
Proof.
  intros Hd. unfold packed_pixel.
  destruct (decide (itemsize d = 2)) as [H|H];
    rewrite ?length_app, encode_length; simpl.
  - by rewrite H.
  - destruct d; try discriminate Hd; done.
Qed.

Lemma revert_packed_image d h w (xs : list Z) :
  packable d = true → length xs = h * w → Forall (fits d) xs →
  revert_image_to_original_dtype bo cast
    (mk_ndarray uint8 [h; w; if decide (itemsize d = 2) then 3 else 4]
       (flat_map (packed_pixel d) xs)) d
  = Ok (mk_ndarray d [h; w] xs).
Proof.
  intros Hd Hlen Hfits. unfold revert_image_to_original_dtype. run.
  assert (length xs = size (mk_ndarray d [h; w] xs)) as Hsz
    by (unfold size; simpl; lia).
  pose proof (assign_same cast (mk_ndarray d [h; w] xs) Hsz) as Hassign.
  cbn [arr_dtype arr_shape arr_data] in Hassign.
  pose proof (view_packed d h w xs Hd Hfits) as Hview.
  assert (reshape (mk_ndarray d [h; w; 1] xs) [h; w]
          = Ok (mk_ndarray d [h; w] xs)) as Hreshape.
  { unfold reshape, size. cbn [arr_shape arr_dtype arr_data].
    destruct (decide (prod_shape [h; w] = prod_shape [h; w; 1])) as [_|Hne];
      [done|]. exfalso; apply Hne; simpl; lia. }
  assert (flat_map (take (itemsize d)) (packed_pixel d <$> xs)
          = flat_map (encode bo d) xs) as Htake.
  { clear. induction xs as [|x xs IH]; csimpl; [done|].
    by rewrite take_packed_pixel, IH. }
  destruct d; try discriminate Hd; cbn [itemsize] in *;
    decide_closed; unfold slice_axis2; run;
    cbn [prod_shape foldr Nat.min Nat.mul Nat.add].
  all: try (rewrite (chunks_flat_map 3 (packed_pixel _) xs (h * w))
              by (first [ intros z; by rewrite packed_pixel_length | done ]);
            rewrite Htake).
  all: try (unfold packed_pixel; cbn [itemsize]; decide_closed;
            match goal with
            | |- context [flat_map (λ z, encode bo ?d z) ?l] =>
                change (flat_map (λ z, encode bo d z) l)
                  with (flat_map (encode bo d) l)
            end).
  all: rewrite Hview; run; rewrite Hreshape; run; rewrite Hassign; done.
Qed.
End packed.

(** ** Stateful computations *)

(** Unfolding of the state monad. *)
Ltac runm :=
  cbn [runM mbind mret M_bind M_ret raise lift gets modify attr update_self
       on_shm cattr update_cache update_fs self shm cache fs].

Lemma runM_bind {S A B} (m : M S A) (f : A → M S B) (s : S) :
  runM (m ≫= f) s
  = match runM m s with
    | (s', Ok a) => runM (f a) s'
    | (s', Raise e) => (s', Raise e)
    end.
Proof. reflexivity. Qed.

(** Inversion of a successful sequence [x ← m; k]. *)
Ltac inv_bind H w a E :=
  rewrite runM_bind in H;
  match type of H with
  | context [runM ?m ?s] =>
      destruct (runM m s) as [w [a|?]] eqn:E; [|discriminate H]
  end.

(** Inversion of one step whose effect is known by evaluation. *)
Ltac inv_prim H w a E :=
  inv_bind H w a E;
  cbn [runM attr gets update_self modify lift mret M_ret raise on_shm] in E.

Ltac attrs :=
  cbn [self shm shape auto_pad auto_resize flag use_cache cache_option
       return_indices return_tag multiplicative_size_factor dataset_id tag
       composer filling_strategy gt_column ignore_keys img_filepath gts
       shared_arrays cache_with_shared_array cache_initialized cache_filled
       _is_first_process shms _cache_items
       set_use_cache set_gt_column set_img_filepath set_gts set_shared_arrays
       set_cache_initialized set_is_first_process set_shms set_cache_items] in *.

Lemma real_length_state (w w' : world) r :
  runM real_length w = (w', r) → w' = w.
Proof.
  unfold real_length. rewrite runM_bind. runm.
  destruct (dict_getitem _ _); runm; by intros [= <-].
Qed.

(** Inversion of a step that may have raised. *)
Ltac inv_any H w a E :=
  rewrite runM_bind in H;
  match type of H with
  | context [runM ?m ?s] => destruct (runM m s) as [w [a|?]] eqn:E
  end.

Ltac prim E :=
  cbn [runM attr gets update_self modify lift mret M_ret raise on_shm] in E.

(** ** Dictionaries *)

Section dict_facts.
Context {V : Type}.
Implicit Types (d : dict V) (k : string) (v : V).

Lemma dict_get_None k d : k ∉ d.*1 → Dict.get k d = None.
Proof.
  induction d as [|[k' v'] d IH]; intros Hk; simpl; [done|].
  rewrite fmap_cons in Hk. apply not_elem_of_cons in Hk as [Hne Hk].
  rewrite decide_False by done. by apply IH.
Qed.

Lemma dict_get_Some k v d : Dict.get k d = Some v → k ∈ d.*1.
Proof.
  induction d as [|[k' v'] d IH]; simpl; [done|].
  destruct (decide (k = k')) as [->|]; set_solver.
Qed.

Lemma dict_set_fresh k v d : k ∉ d.*1 → Dict.set k v d = d ++ [(k, v)].
Proof.
  induction d as [|[k' v'] d IH]; intros Hk; simpl; [done|].
  rewrite fmap_cons in Hk. apply not_elem_of_cons in Hk as [Hne Hk].
  rewrite decide_False by done. by rewrite IH.
Qed.

Lemma dict_remove_keys k d : NoDup d.*1 → k ∉ (Dict.remove k d).*1.
Proof.
  induction d as [|[k' v'] d IH]; simpl; [set_solver|].
  rewrite NoDup_cons. intros [Hk' Hd].
  destruct (decide (k = k')) as [->|Hne]; [done|].
  rewrite fmap_cons. set_solver.
Qed.

Lemma dict_remove_absent k d : k ∉ d.*1 → Dict.remove k d = d.
Proof.
  induction d as [|[k' v'] d IH]; intros Hk; simpl; [done|].
  rewrite fmap_cons in Hk. apply not_elem_of_cons in Hk as [Hne Hk].
  rewrite decide_False by done. by rewrite IH.
Qed.

Lemma dict_remove_last k v d : k ∉ d.*1 → Dict.remove k (d ++ [(k, v)]) = d.
Proof.
  induction d as [|[k' v'] d IH]; intros Hk; simpl.
  - by rewrite decide_True.
  - rewrite fmap_cons in Hk. apply not_elem_of_cons in Hk as [Hne Hk].
    rewrite decide_False by done. by rewrite IH.
Qed.

Lemma dict_get_last k v d : k ∉ d.*1 → Dict.get k (d ++ [(k, v)]) = Some v.
Proof.
  induction d as [|[k' v'] d IH]; intros Hk; simpl.
  - by rewrite decide_True.
  - rewrite fmap_cons in Hk. apply not_elem_of_cons in Hk as [Hne Hk].
    rewrite decide_False by done. by apply IH.
Qed.

Lemma dict_get_set_ne k k' v d : k ≠ k' → Dict.get k (Dict.set k' v d) = Dict.get k d.
Proof.
  intros Hne. induction d as [|[k'' v''] d IH]; simpl.
  - by rewrite decide_False.
  - destruct (decide (k' = k'')) as [->|Hne']; simpl.
    + by rewrite !decide_False by done.
    + destruct (decide (k = k'')); [done|apply IH].
Qed.

Lemma dict_set_elem_of k v d (x : string * V) :
  x ∈ Dict.set k v d → x = (k, v) ∨ x ∈ d.
Proof.
  induction d as [|[k' v'] d IH]; simpl.
  - intros Hx. apply list_elem_of_singleton in Hx. by left.
  - destruct (decide (k = k')) as [->|Hne]; intros Hx;
      apply elem_of_cons in Hx as [Hx|Hx].
    + by left.
    + right. apply elem_of_cons. by right.
    + right. apply elem_of_cons. by left.
    + destruct (IH Hx) as [?|?]; [by left|].
      right. apply elem_of_cons. by right.
Qed.

Lemma dict_getitem_elem_of d k v :
  dict_getitem d k = Ok v → (k, v) ∈ d.
Proof.
  unfold dict_getitem. destruct (Dict.get k d) as [v'|] eqn:Hget; [|done].
  intros [= ->]. induction d as [|[k' v'] d IH]; simpl in Hget; [done|].
  destruct (decide (k = k')) as [->|].
  - injection Hget as ->. apply elem_of_cons. by left.
  - apply elem_of_cons. right. by apply IH.
Qed.
End dict_facts.

(** ** Blocks of shared memory *)

Section store_facts.
Implicit Types (st : shm_store) (b : nat).

Lemma zero_block_zero st b : zero_block (block_zero b st) b.
Proof.
  unfold zero_block, block_bytes, block_zero; cbn [shm_blocks].
  rewrite list_lookup_alter_eq. destruct (shm_blocks st !! b); simpl; [|done].
  apply Forall_replicate. done.
Qed.

Lemma zero_block_zero_other st b b' :
  zero_block st b' → zero_block (block_zero b st) b'.
Proof.
  intros Hz. destruct (decide (b = b')) as [->|Hne]; [apply zero_block_zero|].
  unfold zero_block, block_bytes, block_zero in *; cbn [shm_blocks].
  by rewrite list_lookup_alter_ne.
Qed.

Lemma zero_block_create name_ok st st' name size h :
  runM (shm_create name_ok name size) st = (st', Ok h) →
  ∀ b, zero_block st b → zero_block st' b.
Proof.
  unfold shm_create; cbn [runM]. destruct (decide (size = 0)); [done|].
  destruct (name_ok name); [|done]. cbn [negb].
  destruct (shm_names st !! name); [done|].
  intros [= <- <-] b Hz. unfold zero_block, block_bytes in *; cbn [shm_blocks].
  destruct (decide (b < length (shm_blocks st))) as [Hlt|Hge].
  - by rewrite lookup_app_l.
  - rewrite lookup_app_r by lia.
    destruct (b - length (shm_blocks st)) as [|m]; simpl; [|done].
    by apply Forall_replicate.
Qed.

Lemma shm_attach_state name_ok st st' name h :
  runM (shm_attach name_ok name) st = (st', Ok h) → st' = st.
Proof.
  unfold shm_attach; cbn [runM]. destruct (name_ok name); [|done]. cbn [negb].
  destruct (shm_names st !! name); congruence.
Qed.
End store_facts.

(** ** Initialization of the shared-memory cache *)

Section init_facts.
Variable name_ok : string → bool.
Variable fresh : string → nat → list value.
Variable imread : imread_flag → string → option ndarray.
Variable resize pad : option (nat * nat) → ndarray → ndarray.
Variable missing : string.

Lemma create_or_attach_spec (w w' : world) name size h created :
  runM (create_or_attach name_ok name size) w = (w', Ok (h, created)) →
  self w' = self w
  ∧ ∀ b, zero_block (shm w) b → zero_block (shm w') b.
Proof.
  unfold create_or_attach, on_shm, try_except. cbn [runM].
  rewrite !runM_bind.
  destruct (runM (shm_create name_ok name size) (shm w)) as [st1 [h1|e]] eqn:Hcreate.
  - runm. intros [= <- <- <-]. split; [done|].
    by eapply zero_block_create.
  - assert (st1 = shm w) as ->.
    { revert Hcreate. unfold shm_create; cbn [runM].
      destruct (decide (size = 0)); [congruence|].
      destruct (name_ok name); [|cbn; congruence]. cbn [negb].
      destruct (shm_names (shm w) !! name); congruence. }
    destruct (decide (e = FileExistsError)); [|discriminate].
    rewrite runM_bind.
    destruct (runM (shm_attach name_ok name) (shm w)) as [st2 [h2|e2]] eqn:Hattach;
      [|discriminate].
    apply shm_attach_state in Hattach as ->.
    runm. by intros [= <- <- <-].
Qed.

Lemma append_shm_spec (w w' : world) h :
  runM (append_shm h) w = (w', Ok ()) →
  shm w' = shm w ∧ _cache_items (self w') = _cache_items (self w).
Proof.
  unfold append_shm. rewrite runM_bind. runm.
  destruct (shms (self w)); runm; [|discriminate].
  by intros [= <-].
Qed.

(** One turn of the loop keeps zero blocks zero and adds a view of a
    zero block. *)
Lemma init_cache_field_spec (ds : dataset) nb (shared shared' : dict cache_array)
    (field : string * value) (w w' : world) :
  runM (init_cache_field name_ok fresh ds nb shared field) w = (w', Ok shared') →
  (∀ b, zero_block (shm w) b → zero_block (shm w') b)
  ∧ _cache_items (self w') = _cache_items (self w)
  ∧ ∀ k b d s, (k, InShm b d s) ∈ shared' →
      (k, InShm b d s) ∈ shared ∨ zero_block (shm w') b.
Proof.
  destruct field as [key arr]. unfold init_cache_field.
  assert (∀ x, (∀ b d s, x ≠ InShm b d s) →
    runM (mret (Dict.set key x shared) : M world _) w = (w', Ok shared') →
    (∀ b, zero_block (shm w) b → zero_block (shm w') b)
    ∧ _cache_items (self w') = _cache_items (self w)
    ∧ ∀ k b d s, (k, InShm b d s) ∈ shared' →
        (k, InShm b d s) ∈ shared ∨ zero_block (shm w') b) as Hlocal.
  { intros x Hx. runm. intros [= <- <-]. repeat split; [done|].
    intros k b d s [[= -> Heq]|Hin]%dict_set_elem_of; [|by left].
    by destruct (Hx b d s). }
  destruct arr as [a| | |]; try (by apply Hlocal).
  destruct (cache_with_shared_array ds); [|by apply Hlocal].
  clear Hlocal. intros Hrun.
  inv_bind Hrun w1 hc E1. destruct hc as [h created].
  apply create_or_attach_spec in E1 as [Hself1 Hzero1].
  inv_bind Hrun w2 u E2. destruct u.
  apply append_shm_spec in E2 as [Hshm2 Hitems2].
  inv_bind Hrun w3 sa E3.
  assert (w3 = w2 ∧ sa = InShm (shm_block h) (arr_dtype a) (nb :: arr_shape a))
    as [-> ->].
  { revert E3. unfold frombuffer_reshape. rewrite runM_bind. runm.
    destruct (decide _); runm; [|discriminate]. by intros [= <- <-]. }
  revert Hrun. rewrite runM_bind. runm. intros [= <- <-]. cbn [shm self].
  repeat split.
  - intros b Hb. apply zero_block_zero_other. rewrite Hshm2. by apply Hzero1.
  - by rewrite Hitems2, Hself1.
  - intros k b d s [[= -> -> -> ->]|Hin]%dict_set_elem_of; [|by left].
    right. apply zero_block_zero.
Qed.

Lemma init_cache_fields_spec (ds : dataset) nb (arrays : sample)
    (shared shared' : dict cache_array) (w w' : world) :
  runM (fold_each arrays shared (init_cache_field name_ok fresh ds nb)) w
    = (w', Ok shared') →
  (∀ k b d s, (k, InShm b d s) ∈ shared → zero_block (shm w) b) →
  (∀ b, zero_block (shm w) b → zero_block (shm w') b)
  ∧ _cache_items (self w') = _cache_items (self w)
  ∧ ∀ k b d s, (k, InShm b d s) ∈ shared' → zero_block (shm w') b.
Proof.
  revert shared w. induction arrays as [|field arrays IH]; intros shared w.
  - cbn [fold_each]. runm. intros [= <- <-] Hshared. by repeat split.
  - cbn [fold_each]. intros Hrun Hshared.
    inv_bind Hrun w1 shared1 E1.
    apply init_cache_field_spec in E1 as (Hzero1 & Hitems1 & Hnew1).
    apply IH in Hrun as (Hzero & Hitems & Hall).
    + repeat split; [by auto|congruence|done].
    + intros k b d s [Hin|Hz]%Hnew1; [|done]. eapply Hzero1, Hshared, Hin.
Qed.
End init_facts.

(** ** Fetches and the bitmap *)

Lemma bitmap_kept_refl b w : bitmap_kept b w w.
Proof. by repeat split. Qed.

Lemma bitmap_kept_trans b w1 w2 w3 :
  bitmap_kept b w1 w2 → bitmap_kept b w2 w3 → bitmap_kept b w1 w3.
Proof.
  intros (H1 & H2 & H3) (H4 & H5 & H6). repeat split; try congruence. auto.
Qed.

Lemma block_write_other b b' offset bytes st :
  b' ≠ b → block_bytes (block_write b' offset bytes st) b = block_bytes st b.
Proof.
  intros Hne. unfold block_bytes, block_write; cbn [shm_blocks].
  by rewrite list_lookup_alter_ne.
Qed.

Section fetch_facts.
Variable bo : byteorder.
Variable cast : dtype → dtype → Z → Z.

Lemma write_item_kept b k item n value (w w' : world) r :
  avoids b (self w) →
  runM (write_item bo cast k item n value) w = (w', r) →
  bitmap_kept b w w'.
Proof.
  intros Havoid Hrun. unfold write_item in Hrun.
  inv_any Hrun w1 arrays E1; prim E1; simplify_eq.
  inv_any Hrun w2 target E2; prim E2; injection E2 as <- E2;
    [|injection Hrun as <- _; apply bitmap_kept_refl].
  apply dict_getitem_elem_of in E2.
  destruct (match target with
            | InShm _ d s => (d, s)
            | InProcess a => (arr_dtype a, arr_shape a)
            | InProcessItems items => (int64, [length items])
            end) as [d s].
  destruct s as [|m rest];
    [prim Hrun; injection Hrun as <- _; apply bitmap_kept_refl|].
  destruct (decide (n ≤ length rest));
    [|prim Hrun; injection Hrun as <- _; apply bitmap_kept_refl].
  destruct (py_index m item) as [i|];
    [|prim Hrun; injection Hrun as <- _; apply bitmap_kept_refl].
  inv_any Hrun w3 xs E3; prim E3; injection E3 as <- E3;
    [|injection Hrun as <- _; apply bitmap_kept_refl].
  destruct target as [b' d' s'|a|items]; prim Hrun; injection Hrun as <- _.
  - repeat split; [|done]. cbn [shm].
    apply block_write_other. by eapply Havoid.
  - repeat split. intros _ k' b' d' s' Hin. attrs.
    apply dict_set_elem_of in Hin. destruct Hin as [Heq|Hin]; [by simplify_eq|].
    by eapply Havoid.
  - apply bitmap_kept_refl.
Qed.

Lemma store_field_kept b item field (w w' : world) r :
  avoids b (self w) →
  runM (store_field bo cast item field) w = (w', r) →
  bitmap_kept b w w'.
Proof.
  intros Havoid Hrun. destruct field as [k array]. unfold store_field in Hrun.
  inv_any Hrun w1 nd E1; prim E1; injection E1 as <- E1;
    [|injection Hrun as <- _; apply bitmap_kept_refl].
  inv_any Hrun w2 v E2; prim E2; injection E2 as <- E2;
    [|injection Hrun as <- _; apply bitmap_kept_refl].
  by eapply write_item_kept.
Qed.

Lemma store_fields_kept b item (arrays : sample) (w w' : world) r :
  avoids b (self w) →
  runM (for_each arrays (store_field bo cast item)) w = (w', r) →
  bitmap_kept b w w'.
Proof.
  revert w. induction arrays as [|field arrays IH]; intros w Havoid Hrun.
  - cbn [for_each] in Hrun. prim Hrun. injection Hrun as <- _.
    apply bitmap_kept_refl.
  - cbn [for_each] in Hrun. inv_any Hrun w1 u E1;
      pose proof (store_field_kept b _ _ _ _ _ Havoid E1) as Hkept1.
    + eapply bitmap_kept_trans; [done|].
      eapply IH; [|done]. by apply Hkept1.
    + by injection Hrun as <- _.
Qed.

(** Reading the cached fields leaves the state as it is. *)
Lemma read_item_state v item (w w' : world) r :
  runM (read_item bo v item) w = (w', r) → w' = w.
Proof.
  unfold read_item. destruct v.
  - intros Hrun. inv_any Hrun w1 bytes E1; prim E1; simplify_eq.
    prim Hrun. by injection Hrun as <- _.
  - intros Hrun. prim Hrun. by injection Hrun as <- _.
  - intros Hrun. prim Hrun. by injection Hrun as <- _.
Qed.

Lemma read_fields_state item (arrays : dict cache_array) (out : sample)
    (w w' : world) r :
  runM (fold_each arrays out (λ out '(k, v),
          x ← read_item bo v item; mret (Dict.set k x out))) w = (w', r) →
  w' = w.
Proof.
  revert out. induction arrays as [|[k v] arrays IH]; intros out Hrun.
  - cbn [fold_each] in Hrun. prim Hrun. by injection Hrun as <- _.
  - cbn [fold_each] in Hrun. inv_any Hrun w1 out1 E1.
    + inv_any E1 w2 x E2; apply read_item_state in E2 as ->.
      * prim E1. injection E1 as <- _. by eapply IH.
      * discriminate.
    + inv_any E1 w2 x E2; apply read_item_state in E2 as ->.
      * prim E1. discriminate.
      * injection E1 as <- _. by injection Hrun as <- _.
Qed.

Lemma cache_items_get_state item (w w' : world) r :
  runM (cache_items_get item) w = (w', r) → w' = w.
Proof.
  unfold cache_items_get. intros Hrun.
  inv_any Hrun w1 vw E1; prim E1; simplify_eq.
  destruct (_cache_items (self w1)) as [b|];
    [|prim Hrun; by injection Hrun as <- _].
  inv_any Hrun w2 bytes E2; prim E2; simplify_eq.
  inv_any Hrun w3 byte E3; prim E3; injection E3 as <- E3.
  - prim Hrun. by injection Hrun as <- _.
  - by injection Hrun as <- _.
Qed.

Lemma bitmap_true_write st b i j :
  i < length (block_bytes st b) →
  bitmap_true (block_write b i [1%Z] st) b j ↔ j = i ∨ bitmap_true st b j.
Proof.
  intros Hi. unfold bitmap_true, block_bytes, block_write in *.
  cbn [shm_blocks]. rewrite list_lookup_alter_eq.
  destruct (shm_blocks st !! b) as [old|]; simpl in *; [|lia].
  destruct (decide (j = i)) as [->|Hne].
  - rewrite lookup_app_r by (rewrite length_take; lia).
    rewrite length_take, Nat.min_l, Nat.sub_diag by lia. simpl.
    split; [by left|]. intros _. by exists 1%Z.
  - assert ((take i old ++ 1%Z :: drop (i + 1) old) !! j = old !! j) as ->.
    { destruct (decide (j < i)).
      - rewrite lookup_app_l by (rewrite length_take; lia).
        by rewrite lookup_take_lt.
      - rewrite lookup_app_r by (rewrite length_take; lia).
        rewrite length_take, Nat.min_l by lia.
        destruct (j - i) as [|m] eqn:Hm; [lia|]. simpl.
        rewrite lookup_drop. f_equal. lia. }
    split; [by right|]. by intros [?|?].
Qed.

Lemma cache_items_set_spec item b (w w' : world) r :
  _cache_items (self w) = Some b →
  runM (cache_items_set item) w = (w', r) →
  self w' = self w
  ∧ (∀ j, bitmap_true (shm w) b j → bitmap_true (shm w') b j)
  ∧ (∀ j, bitmap_true (shm w') b j →
       bitmap_true (shm w) b j
       ∨ (is_ok r = true
          ∧ py_index (length (block_bytes (shm w) b)) item = Some j)).
Proof.
  intros Hb Hrun. unfold cache_items_set in Hrun.
  inv_any Hrun w1 vw E1; prim E1; simplify_eq. rewrite Hb in Hrun.
  inv_any Hrun w2 bytes E2; prim E2; simplify_eq.
  destruct (py_index _ item) as [i|] eqn:Hi; prim Hrun;
    injection Hrun as <- <-; [|by repeat split; auto].
  assert (i < length (block_bytes (shm w2) b)) as Hlt.
  { revert Hi. unfold py_index. repeat case_decide; intros [= <-]; lia. }
  cbn [self shm]. split; [done|]. split.
  - intros j Hj. apply bitmap_true_write; auto.
  - intros j Hj. apply bitmap_true_write in Hj as [->|Hj]; auto.
Qed.
End fetch_facts.


(** * The claims of the specification *)

(** ** Construction *)

(** C10. The class body evaluates [@cache_option.validator] while
    [cache_option] is bound to its plain default [None]: the decorator
    raises [AttributeError], so that no validator is registered and no
    class is made.  Constructing a dataset, with [use_cache = True] and
    [cache_option = None] as with any other arguments, ends in that
    [AttributeError] and never in the [ValueError] that
    [_cache_option_validator] is written to raise. *)
Theorem construction_stops_at_the_decorator
    (list_files : dataset → result dataset) (a : init_args) :
  class_body = Raise AttributeError
  ∧ __init__ list_files a = Raise AttributeError
  ∧ _cache_option_validator true None = Raise ValueError.
Proof. by repeat split. Qed.

(** ** Packed integers on disk *)

(** C2. For every 2-D array of dtype int16, uint16, int32 or uint32 that
    has elements, whatever values of the dtype these are,
    [revert_image_to_original_dtype] applied to the result of
    [convert_to_image], both with the dtype of the array, gives the array
    back, element for element and whatever the byte order of the
    machine. *)
Theorem packed_round_trip bo cast (a : ndarray) (h w : nat) :
  packable (arr_dtype a) = true →
  arr_shape a = [h; w] →
  0 < h → 0 < w →
  wf_ndarray a →
  (image ← convert_to_image bo cast a (arr_dtype a);
   revert_image_to_original_dtype bo cast image (arr_dtype a)) = Ok a.
Proof.
  destruct a as [d s xs]; cbn [arr_dtype arr_shape].
  intros Hd -> Hh Hw [Hlen Hfits]. unfold size in Hlen; simpl in Hlen, Hfits.
  assert (length xs = h * w) as Hlen' by lia.
  rewrite (convert_to_image_packed bo cast d h w xs) by done. run.
  by apply revert_packed_image.
Qed.

Lemma packed_round_trip_witness :
  let a := mk_ndarray int16 [2; 2] [-32768; -1; 0; 32767]%Z in
  (image ← convert_to_image BigEndian Ex.no_cast a int16;
   revert_image_to_original_dtype BigEndian Ex.no_cast image int16) = Ok a.
Proof.
  apply (packed_round_trip BigEndian Ex.no_cast
           (mk_ndarray int16 [2; 2] [-32768; -1; 0; 32767]%Z) 2 2).
  - reflexivity.
  - reflexivity.
  - lia.
  - lia.
  - split; [reflexivity|].
    repeat constructor; unfold fits; simpl; lia.
Defined.

(** ** Indices out of range *)

Lemma len_state (w : world) : (runM len w).1 = w.
Proof.
  unfold len, __len__, real_length. runm.
  destruct (dict_getitem _ _); runm; [|done].
  destruct (scaled_length _ _); runm; [|done].
  by repeat destruct (decide _).
Qed.

(** The length follows the product of doubles: ten images with the factor
    2.3 have length 23, though the double 2.3 is less than 23/10, and
    index 22 is item 2. *)
Lemma len_rounds_like_float :
  (Ex.run len Ex.ten_images Ex.no_shm).2 = Ok 23%Z
  ∧ (Ex.run (Ex.dataset_getitem 22) Ex.ten_images Ex.no_shm).2
    = Ok [("image", Array Ex.img_a)]
  ∧ (Ex.run (Ex.dataset_getitem 23) Ex.ten_images Ex.no_shm).2
    = Raise StopIteration.
Proof. vm_compute. repeat split. Qed.

(** C5, as amended. For every index whose absolute value is at least
    [len(dataset)], [__getitem__] raises [StopIteration], which is not a
    lookup error, and leaves the dataset and its cache as they were. *)
Theorem getitem_out_of_range bo cast name_ok fresh imread resize pad missing
    (w : world) (index l : Z) (return_indices_arg return_tag_arg : bool) :
  (runM len w).2 = Ok l →
  (l ≤ Z.abs index)%Z →
  runM (__getitem__ bo cast name_ok fresh imread resize pad missing index
          return_indices_arg return_tag_arg) w
  = (w, Raise StopIteration)
  ∧ is_lookup_error StopIteration = false.
Proof.
  intros Hlen Hout. split; [|done].
  unfold __getitem__. rewrite runM_bind.
  pose proof (len_state w) as Hst.
  destruct (runM len w) as [w' r]; simpl in Hlen, Hst; subst.
  destruct (decide (l ≤ Z.abs index)%Z); [done|lia].
Qed.

Lemma getitem_out_of_range_witness :
  Ex.run (Ex.dataset_getitem 23) Ex.ten_images Ex.no_shm
  = (mk_world Ex.ten_images Ex.no_shm, Raise StopIteration)
  ∧ is_lookup_error StopIteration = false.
Proof.
  apply (getitem_out_of_range _ _ _ _ _ _ _ _ _ 23 23);
    [vm_compute; reflexivity|lia].
Defined.

(** C5 as stated fails: index [-1] is outside of [0, 2) and yields the
    sample of item 1; an index of [len(dataset)] or more ends in
    [StopIteration], which is no lookup error. *)
Lemma getitem_negative_index :
  (Ex.run (Ex.dataset_getitem (-1)) (Ex.images false) Ex.no_shm).2
    = Ok [("image", Array Ex.img_b)]
  ∧ (Ex.run (Ex.dataset_getitem (-1)) (Ex.images true) Ex.no_shm).2
    = (Ex.run (Ex.dataset_getitem 1) (Ex.images true) Ex.no_shm).2
  ∧ (Ex.run (Ex.dataset_getitem 2) (Ex.images false) Ex.no_shm).2 = Raise StopIteration
  ∧ is_lookup_error StopIteration = false.
Proof. vm_compute. repeat split. Qed.

(** ** Destruction *)

(** The close loop of [__del__] stops at the first handle on whose buffer
    the dataset still holds an array: nothing is closed, nothing is
    unlinked and no flag is reset. *)
Lemma del_stops_at_first_close (w : world) (h : SharedMemory)
    (handles : list SharedMemory) :
  use_cache (self w) = true →
  cache_initialized (self w) = true →
  _is_first_process (self w) = true →
  shms (self w) = Some (h :: handles) →
  shm_closed h = false →
  exports (self w) h = true →
  runM __del__ w = (w, Raise BufferError).
Proof.
  intros Huse Hinit Hfirst Hshms Hopen Hexp.
  unfold __del__. rewrite runM_bind. runm. rewrite Huse, Hinit, Hfirst.
  cbn [andb]. runm. rewrite Hshms. runm.
  cbn [imap for_each]. rewrite !runM_bind.
  unfold close at 1. rewrite runM_bind. runm. by rewrite Hopen, Hexp.
Qed.

Lemma del_stops_at_first_close_witness :
  runM __del__ Ex.creator = (Ex.creator, Raise BufferError).
Proof.
  apply (del_stops_at_first_close Ex.creator
           (mk_shm "nntools_D_is_item_cached" 0 false)
           [mk_shm "nntools_image_D" 1 false]); reflexivity.
Defined.

(** C9. The process that created the regions holds the bitmap, an array
    made on the buffer of its first handle, when [__del__] runs: the first
    [close] raises [BufferError], and the creator releases and unlinks
    nothing and resets no flag.  A process that attached is stopped by the
    outer test on [_is_first_process]: it does not detach, its handles
    stay open. *)
Theorem del_releases_nothing :
  _is_first_process (self Ex.creator) = true
  ∧ cache_initialized (self Ex.creator) = true
  ∧ runM __del__ Ex.creator = (Ex.creator, Raise BufferError)
  ∧ Forall (λ h, is_Some (shm_names (shm Ex.creator) !! shm_name h)) Ex.handles
  ∧ _is_first_process (self Ex.attacher) = false
  ∧ cache_initialized (self Ex.attacher) = true
  ∧ runM __del__ Ex.attacher = (Ex.attacher, Ok ())
  ∧ shms (self Ex.attacher) = Some Ex.handles
  ∧ Forall (λ h, shm_closed h = false) Ex.handles.
Proof. vm_compute. repeat split; repeat constructor; by eexists. Qed.

(** ** Renaming a field *)

Section remap_facts.
Context {V : Type}.
Implicit Types (d : dict V) (k : string) (v : V).

(** On a dictionary, renaming a key twice is renaming it once. *)
Lemma remap_dict_idempotent old_key new_key d :
  NoDup d.*1 →
  remap_dict old_key new_key (remap_dict old_key new_key d)
  = remap_dict old_key new_key d.
Proof.
  intros Hdup. unfold remap_dict at 2 3.
  destruct (Dict.get old_key d) as [v|] eqn:Hget; [|by unfold remap_dict; rewrite Hget].
  pose proof (dict_remove_keys old_key d Hdup) as Hgone.
  unfold remap_dict. destruct (decide (old_key = new_key)) as [<-|Hne].
  - rewrite dict_set_fresh by done.
    rewrite dict_get_last, dict_remove_last by done.
    by rewrite dict_set_fresh.
  - by rewrite dict_get_set_ne, dict_get_None.
Qed.
End remap_facts.



(** The renaming of [AbstractImageDataset.remap] is idempotent on a
    dataset that is not a [ClassificationDataset]. *)
Lemma AbstractImageDataset_remap_idempotent old_key new_key (ds : dataset) :
  NoDup (img_filepath ds).*1 → NoDup (gts ds).*1 → NoDup (shared_arrays ds).*1 →
  AbstractImageDataset_remap old_key new_key
    (AbstractImageDataset_remap old_key new_key ds)
  = AbstractImageDataset_remap old_key new_key ds.
Proof.
  intros H1 H2 H3. unfold AbstractImageDataset_remap.
  destruct ds; cbn. by rewrite !remap_dict_idempotent.
Qed.

(** C7, on the code. [DiskCache.remap] appends the new key to
    [in_memory_items] on every call, so that a second
    [remap("label", "target")] changes the list again; and for a field
    that has a cache folder the call ends in [RuntimeError], the folder
    renamed and [in_memory_items] not reached. *)
Lemma disk_remap_twice :
  let once := (runM (DiskCache_remap "label" "target") Ex.disk).1 in
  let twice := (runM (DiskCache_remap "label" "target") once).1 in
  in_memory_items (cache once) = ["target"]
  ∧ in_memory_items (cache twice) = ["target"; "target"]
  ∧ (runM (DiskCache_remap "image" "input") Ex.disk).2 = Raise RuntimeError
  ∧ cache_folders (cache (runM (DiskCache_remap "image" "input") Ex.disk).1)
    = [("input", Ex.image_folder)].
Proof. vm_compute. repeat split. Qed.

(** ** Fields that are not arrays *)

(** C6, on the code. With the shared-memory cache, the fetch of an item
    of a dataset with a scalar label stops at the label with
    [IndexError]: [array[:, :, :]] has no meaning for a scalar.  The image
    was written before that, the bitmap entry is not set, and the entry
    of [shared_arrays] for the label is an array of the process, left as
    NumPy allocated it. *)
Lemma load_array_scalar_field :
  let w := Ex.run (Ex.load_array 0) Ex.labelled Ex.no_shm in
  w.2 = Raise IndexError
  ∧ ClassificationDataset_load_image Ex.imread Ex.keep Ex.keep "" Ex.labelled 0
    = Ok [("image", Array (mk_ndarray uint8 [1; 2; 1] [7; 8]%Z));
          ("label", Scalar int64 0)]
  ∧ shm_blocks (shm w.1) = [[0; 0]; [7; 8; 0; 0]]%Z
  ∧ Dict.get "label" (shared_arrays (self w.1))
    = Some (InProcessItems (Ex.fresh "label" 2)).
Proof. vm_compute. repeat split. Qed.

(** ** What a fetch returns *)

(** C1, on the code. With the shared-memory cache, no fetch from a
    dataset with a scalar label returns a sample: the first fetch of an
    item fails with [IndexError], and so does every later one, since the
    bitmap entry is never set. *)
Lemma fetch_with_scalar_field :
  let first := Ex.run (Ex.load_array 1) Ex.labelled Ex.no_shm in
  let second := runM (Ex.load_array 1) first.1 in
  first.2 = Raise IndexError
  ∧ second.2 = Raise IndexError
  ∧ (Ex.run (Ex.dataset_getitem 0) Ex.labelled Ex.no_shm).2 = Raise IndexError.
Proof. vm_compute. repeat split. Qed.


(** ** Zero-filling at initialization *)

(** C3, as amended. A process that initializes the shared-memory cache
    zero-fills the bitmap region and the region of every array field,
    whether it created the region or attached to one that existed: after
    [init_cache] the bitmap and every shared array hold zeros only. *)
Theorem init_cache_zero_fills name_ok fresh imread resize pad missing (w w' : world) :
  cache_initialized (self w) = false →
  cache_with_shared_array (self w) = true →
  runM (init_cache name_ok fresh imread resize pad missing) w = (w', Ok ()) →
  (∃ b, _cache_items (self w') = Some b ∧ zero_block (shm w') b)
  ∧ ∀ k b d s, (k, InShm b d s) ∈ shared_arrays (self w') →
      zero_block (shm w') b.
Proof.
  intros Hinit Hshared Hrun. unfold init_cache in Hrun.
  destruct w as [ds st]; cbn [self shm] in *.
  inv_prim Hrun w1 u E1. injection E1 as <- _.
  inv_prim Hrun w2 i E2. injection E2 as <- <-. attrs. rewrite Hinit in Hrun.
  inv_prim Hrun w3 ds' E3. injection E3 as <- <-. attrs.
  inv_prim Hrun w4 arrays E4. injection E4 as <- E4.
  inv_bind Hrun w5 nb E5. apply real_length_state in E5 as ->.
  inv_prim Hrun w6 u6 E6. injection E6 as <- _. attrs. rewrite Hshared in Hrun.
  inv_bind Hrun w7 u7 E7.
  inv_bind E7 w8 hc E8. destruct hc as [h created].
  apply create_or_attach_spec in E8 as [Hself8 Hzero8]. cbn [self shm] in *.
  inv_prim E7 w9 u9 E9. injection E9 as <- _.
  inv_bind E7 w10 u10 E10. destruct u10.
  apply append_shm_spec in E10 as [Hshm10 Hitems10]. cbn [self shm] in *.
  inv_prim E7 w11 u11 E11. injection E11 as <- _.
  cbn [runM on_shm modify] in E7. injection E7 as <-.
  inv_bind Hrun w12 shared E12.
  apply init_cache_fields_spec in E12 as (Hzero12 & Hitems12 & Hall12);
    [|intros k b d s Hin; by apply elem_of_nil in Hin].
  inv_prim Hrun w13 u13 E13. injection E13 as <- _.
  cbn [runM update_self modify] in Hrun. injection Hrun as <-.
  attrs. split.
  - exists (shm_block h). split; [by rewrite Hitems12|].
    apply Hzero12. apply zero_block_zero.
  - done.
Qed.

Lemma init_cache_zero_fills_witness :
  (∃ b, _cache_items (self Ex.attacher) = Some b
        ∧ zero_block (shm Ex.attacher) b)
  ∧ ∀ k b d s, (k, InShm b d s) ∈ shared_arrays (self Ex.attacher) →
      zero_block (shm Ex.attacher) b.
Proof.
  apply (init_cache_zero_fills Ex.name_ok Ex.fresh Ex.imread Ex.keep Ex.keep ""
           (mk_world (Ex.images true) (shm Ex.filled))).
  - reflexivity.
  - reflexivity.
  - vm_compute. reflexivity.
Defined.

(** C3 as stated fails: process B finds both regions in existence,
    attaches to them, and its [init_cache] replaces item 1, which process
    A had stored in the region of the images, by zeros. *)
Lemma init_cache_attach_rezeroes :
  _is_first_process (self Ex.creator) = true
  ∧ _is_first_process (self Ex.attacher) = false
  ∧ shm_names (shm Ex.attacher) = shm_names (shm Ex.filled)
  ∧ block_bytes (shm Ex.filled) 1 = [0; 0; 9; 10]%Z
  ∧ block_bytes (shm Ex.attacher) 1 = [0; 0; 0; 0]%Z.
Proof. vm_compute. repeat split. Qed.

(** ** The bitmap under fetches *)

(** C4, as amended. Once the cache of a process is initialized, its fetches
    only ever turn bitmap entries from false to true: a fetch clears no
    entry, and the one entry it may set is that of the fetched item, set
    after every field of the item has been written, so that a fetch that
    fails leaves the bitmap as it was.  (No field's array is a view of the
    bitmap's own block.) *)
Theorem load_array_bitmap_monotone bo cast name_ok fresh imread resize pad missing
    (w w' : world) (item : Z) (r : result sample) (b : nat) :
  use_cache (self w) = true →
  cache_initialized (self w) = true →
  _cache_items (self w) = Some b →
  avoids b (self w) →
  runM (load_array bo cast name_ok fresh imread resize pad missing item) w = (w', r) →
  _cache_items (self w') = Some b
  ∧ (∀ j, bitmap_true (shm w) b j → bitmap_true (shm w') b j)
  ∧ (∀ j, bitmap_true (shm w') b j →
       bitmap_true (shm w) b j
       ∨ (is_ok r = true
          ∧ py_index (length (block_bytes (shm w) b)) item = Some j)).
Proof.
  intros Huse Hinit Hb Havoid Hrun. unfold load_array in Hrun.
  inv_any Hrun w1 cached E1; prim E1; simplify_eq. rewrite Huse in Hrun.
  cbn [negb] in Hrun.
  inv_any Hrun w2 initialized E2; prim E2; simplify_eq. rewrite Hinit in Hrun.
  inv_any Hrun w3 u E3; prim E3; simplify_eq.
  inv_any Hrun w4 hit E4; apply cache_items_get_state in E4 as ->;
    [|injection Hrun as <- _; by repeat split; auto].
  destruct hit.
  - inv_any Hrun w5 arrays E5; prim E5; simplify_eq.
    apply read_fields_state in Hrun as ->. by repeat split; auto.
  - inv_any Hrun w5 ds E5; prim E5; simplify_eq.
    inv_any Hrun w6 arrays E6; prim E6; injection E6 as <- E6;
      [|injection Hrun as <- _; by repeat split; auto].
    inv_any Hrun w7 u7 E7;
      apply (store_fields_kept _ _ b) in E7 as (Hitems & Hbytes & Hav);
      [| done | | done].
    + inv_any Hrun w8 u8 E8;
        apply (cache_items_set_spec _ b) in E8 as (Hself & Hmono & Hnew);
        try congruence.
      * prim Hrun. injection Hrun as <- <-. rewrite Hself.
        split; [congruence|]. unfold bitmap_true in *.
        rewrite Hbytes in Hmono, Hnew. split; [done|].
        intros j Hj. destruct (Hnew j Hj) as [?|[_ ?]]; auto.
      * injection Hrun as <- <-. rewrite Hself.
        split; [congruence|]. unfold bitmap_true in *.
        rewrite Hbytes in Hmono, Hnew. split; [done|].
        intros j Hj. destruct (Hnew j Hj) as [?|[? _]]; [auto|done].
    + injection Hrun as <- <-. split; [congruence|].
      unfold bitmap_true. rewrite Hbytes. by split; auto.
Qed.

Lemma load_array_bitmap_monotone_witness :
  _cache_items (self Ex.filled) = Some 0
  ∧ (∀ j, bitmap_true (shm Ex.creator) 0 j → bitmap_true (shm Ex.filled) 0 j)
  ∧ (∀ j, bitmap_true (shm Ex.filled) 0 j →
       bitmap_true (shm Ex.creator) 0 j
       ∨ (is_ok (runM (Ex.load_array 1) Ex.creator).2 = true
          ∧ py_index (length (block_bytes (shm Ex.creator) 0)) 1 = Some j)).
Proof.
  apply (load_array_bitmap_monotone LittleEndian Ex.no_cast Ex.name_ok Ex.fresh Ex.imread
           Ex.keep Ex.keep "" Ex.creator Ex.filled 1).
  - reflexivity.
  - reflexivity.
  - reflexivity.
  - intros k b d s Hin. vm_compute in Hin.
    apply list_elem_of_singleton in Hin. by simplify_eq.
  - vm_compute. reflexivity.
Defined.

(** C4 as stated fails: the regions are still in existence and process A
    still uses them when process B initializes its cache, which turns the
    entry of item 1 back to false. *)
Lemma init_cache_clears_bitmap :
  bitmap_true (shm Ex.filled) 0 1
  ∧ ¬ bitmap_true (shm Ex.attacher) 0 1
  ∧ shm_names (shm Ex.attacher) = shm_names (shm Ex.filled)
  ∧ _cache_items (self Ex.filled) = Some 0
  ∧ _cache_items (self Ex.attacher) = Some 0.
Proof.
  split; [exists 1%Z; by vm_compute|].
  split; [intros (x & Hx & Hne); vm_compute in Hx; by simplify_eq|].
  vm_compute. repeat split.
Qed.

(** ** The disk cache and incomplete items *)

Section blind_facts.
Context {A B : Type}.

Lemma blind_lift (r : result A) : blind (lift r).
Proof. intros c. by exists id, c, r. Qed.

Lemma blind_ret (a : A) : blind (mret a).
Proof. intros c. by exists id, c, (Ok a). Qed.

Lemma blind_raise (e : exn) : blind (raise e : M disk_world A).
Proof. intros c. by exists id, c, (Raise e). Qed.

Lemma blind_cattr (f : DiskCache → A) : blind (cattr f).
Proof. intros c. by exists id, c, (Ok (f c)). Qed.

Lemma blind_bind (m : M disk_world A) (k : A → M disk_world B) :
  blind m → (∀ a, blind (k a)) → blind (m ≫= k).
Proof.
  intros Hm Hk c. destruct (Hm c) as (W1 & c1 & r1 & H1).
  destruct r1 as [a|e].
  - destruct (Hk a c1) as (W2 & c2 & r2 & H2).
    exists (W2 ∘ W1), c2, r2. intros files.
    by rewrite runM_bind, H1, H2.
  - exists W1, c1, (Raise e). intros files. by rewrite runM_bind, H1.
Qed.
End blind_facts.

Lemma blind_update_cache (f : DiskCache → DiskCache) : blind (update_cache f).
Proof. intros c. by exists id, (f c), (Ok ()). Qed.

Lemma blind_update_fs (f : filesystem → filesystem) : blind (update_fs f).
Proof. intros c. by exists f, c, (Ok ()). Qed.

Lemma blind_for_each {A} (l : list A) (body : A → M disk_world unit) :
  (∀ x, blind (body x)) → blind (for_each l body).
Proof.
  intros Hbody. induction l as [|x l IH]; cbn [for_each].
  - apply blind_ret.
  - apply blind_bind; [apply Hbody|]. intros _. apply IH.
Qed.

Section disk_facts.
Variable bo : byteorder.
Variable cast : dtype → dtype → Z → Z.
Variable d : dataset.
Variable on_disk_keys : list string.
Variable filename : Z → string → result string.
Variable read_from_disk : Z → result sample.
Variable precompose_data : sample → sample.
Variable save_image : ndarray → path → filesystem → filesystem.

Lemma blind_cache_to_disk key value item :
  blind (cache_to_disk bo cast on_disk_keys filename save_image key value item).
Proof.
  unfold cache_to_disk.
  apply blind_bind; [apply blind_lift|]; intros name.
  apply blind_bind; [apply blind_cattr|]; intros folders.
  apply blind_bind; [apply blind_lift|]; intros metadata.
  destruct (Metadata.is_image metadata).
  { apply blind_bind; [apply blind_lift|]; intros a. apply blind_update_fs. }
  destruct (storable_truth _).
  - apply blind_bind; [apply blind_lift|]; intros dt.
    apply blind_bind; [apply blind_lift|]; intros a.
    apply blind_bind; [apply blind_lift|]; intros image.
    apply blind_bind; [apply blind_lift|]; intros p. apply blind_update_fs.
  - apply blind_bind; [apply blind_lift|]; intros p.
    apply blind_bind; [apply blind_lift|]; intros a. apply blind_update_fs.
Qed.

Lemma blind_mark_cached item : blind (mark_cached item).
Proof.
  unfold mark_cached. apply blind_bind; [apply blind_cattr|]; intros bitmap.
  destruct (py_index _ item); [apply blind_update_cache|apply blind_raise].
Qed.

Lemma blind_recompute item : blind (recompute bo cast on_disk_keys filename read_from_disk
           precompose_data save_image item).
Proof.
  unfold recompute.
  apply blind_bind; [apply blind_lift|]; intros arrays.
  apply blind_bind; [apply blind_cattr|]; intros items.
  apply blind_bind.
  { apply blind_for_each. intros [k v].
    destruct (bool_decide _); [apply blind_ret|apply blind_cache_to_disk]. }
  intros _. apply blind_bind; [apply blind_mark_cached|].
  intros _. apply blind_ret.
Qed.

Lemma getitem_incomplete item (c : DiskCache) files :
  getitem (is_item_cached c) item = Ok false →
  check_folders on_disk_keys filename files item (cache_folders c) = Ok false →
  runM (DiskCache_getitem bo cast d on_disk_keys filename read_from_disk
          precompose_data save_image item) (mk_disk_world c files)
  = runM (recompute bo cast on_disk_keys filename read_from_disk
            precompose_data save_image item) (mk_disk_world c files).
Proof.
  intros Hbit Hcheck. unfold DiskCache_getitem, cache_item, check_cache.
  rewrite !runM_bind. runm. rewrite Hbit. runm.
  rewrite Hcheck. runm. reflexivity.
Qed.
End disk_facts.

Lemma mark_cached_spec item (w w' : disk_world) u :
  runM (mark_cached item) w = (w', Ok u) →
  getitem (is_item_cached (cache w')) item = Ok true.
Proof.
  unfold mark_cached. intros Hrun.
  inv_prim Hrun w1 bitmap E1. injection E1 as <- <-.
  destruct (py_index _ item) as [i|] eqn:Hi; prim Hrun; [|discriminate].
  injection Hrun as <- _. cbn [cache is_item_cached set_is_item_cached].
  unfold getitem. rewrite length_insert, Hi. cbn.
  assert (i < length (is_item_cached (cache w))) as Hlt.
  { revert Hi. unfold py_index. repeat case_decide; intros [= <-]; lia. }
  by rewrite list_lookup_insert_eq.
Qed.

(** * Further properties of the code *)


(** ** The storage policy of [misc.py] *)

Lemma packable_not_uint8 d : packable d = true → d ≠ uint8.
Proof. by destruct d. Qed.

(** Whenever [can_be_stored_as_image] answers with a dtype, it is the
    dtype of the array, and packing a non-empty array at that dtype
    succeeds and gives an array that [is_image] accepts. *)
Theorem packed_policy_is_storable bo cast (a : ndarray) (d : dtype) :
  can_be_stored_as_image a = StoredPacked d →
  length (arr_data a) = size a →
  0 < size a →
  d = arr_dtype a
  ∧ ∃ image, convert_to_image bo cast a d = Ok image ∧ is_image image = true.
Proof.
  unfold can_be_stored_as_image. destruct (is_image a); [done|].
  destruct (packable (arr_dtype a)) eqn:Hd; [|done].
  destruct (bool_decide (ndim a = 2)) eqn:Hnd; [|done].
  cbn [andb]. intros [= <-] Hlen Hsize. split; [done|].
  apply bool_decide_eq_true in Hnd.
  destruct a as [dt s xs]; unfold ndim, size in *; cbn [arr_shape arr_dtype arr_data] in *.
  destruct s as [|h [|w [|]]]; try discriminate Hnd.
  assert (0 < h ∧ 0 < w) as [Hh Hw] by (simpl in Hsize; nia).
  rewrite (convert_to_image_packed bo cast dt h w xs)
    by (done || simpl in Hlen; lia).
  eexists; split; [reflexivity|].
  unfold is_image; cbn [arr_dtype arr_shape].
  destruct dt; try discriminate Hd; reflexivity.
Qed.

Lemma packed_policy_is_storable_witness :
  int16 = int16
  ∧ ∃ image,
      convert_to_image LittleEndian Ex.no_cast Ex.mask_a int16 = Ok image
      ∧ is_image image = true.
Proof.
  apply (packed_policy_is_storable LittleEndian Ex.no_cast Ex.mask_a int16).
  - reflexivity.
  - reflexivity.
  - vm_compute. lia.
Defined.

(** [convert_to_image] binds its container for the four packable dtypes
    only: for any other dtype it fails with [UnboundLocalError], and for an
    array of fewer than two dimensions with [ValueError] before that. *)
Theorem convert_to_image_unsupported bo cast (a : ndarray) (d : dtype) :
  packable d = false →
  convert_to_image bo cast a d
  = if decide (2 ≤ ndim a) then Raise UnboundLocalError else Raise ValueError.
Proof.
  intros Hd. unfold convert_to_image, shape_hw, ndim.
  destruct (arr_shape a) as [|h [|w s]]; simpl length.
  - by rewrite decide_False by lia.
  - by rewrite decide_False by lia.
  - rewrite decide_True by lia. run. by destruct d.
Qed.

Lemma convert_to_image_unsupported_witness :
  convert_to_image LittleEndian Ex.no_cast Ex.img_a uint8 = Raise UnboundLocalError.
Proof.
  apply (convert_to_image_unsupported LittleEndian Ex.no_cast Ex.img_a uint8).
  reflexivity.
Defined.

(** ** Reading an image *)

Lemma flat_map_reverse_chunks {A} c n (l : list A) :
  length l = n * c →
  chunks c n (flat_map reverse (chunks c n l)) = reverse <$> chunks c n l.
Proof.
  intros Hl.
  pose proof (chunks_concat c (reverse <$> chunks c n l)) as H.
  rewrite length_fmap, chunks_length, <- flat_map_concat_map in H.
  apply H. rewrite Forall_fmap.
  eapply Forall_impl; [by apply chunks_Forall_length|].
  intros x Hx; simpl. by rewrite length_reverse.
Qed.

(** Reversing the channels twice gives the image back. *)
Lemma flip_axis2_involutive (a : ndarray) :
  length (arr_data a) = size a → flip_axis2 (flip_axis2 a) = a.
Proof.
  destruct a as [d s xs]. unfold flip_axis2, size; cbn [arr_shape arr_dtype arr_data].
  destruct s as [|h [|w [|c [|]]]]; try done.
  intros Hlen. cbn [arr_shape arr_dtype arr_data]. f_equal.
  assert (length xs = h * w * c) as Hl by (simpl in Hlen; lia).
  rewrite flat_map_reverse_chunks by done.
  rewrite flat_map_concat_map, <- list_fmap_compose.
  rewrite (list_fmap_ext _ id (chunks c (h * w) xs)), list_fmap_id.
  - by apply concat_chunks.
  - intros i x _. simpl. apply reverse_involutive.
Qed.

(** [read_image] undoes a reversal of the channels: from a file in which
    [cv2.imread] finds the channels of a 3-D image [a] in reverse order,
    it returns [a]. *)
Theorem read_image_reversed {P} (imread : imread_flag → P → option ndarray)
    (filepath : P) (flag : option imread_flag) (a : ndarray) :
  length (arr_data a) = size a →
  ndim a = 3 →
  imread (default IMREAD_UNCHANGED flag) filepath = Some (flip_axis2 a) →
  read_image imread filepath flag = Ok a.
Proof.
  intros Hlen Hnd Hfile. unfold read_image. rewrite Hfile.
  assert (ndim (flip_axis2 a) = 3) as Hnd'.
  { unfold flip_axis2, ndim in *. by destruct (arr_shape a) as [|? [|? [|? [|]]]]. }
  rewrite decide_True by done. by rewrite flip_axis2_involutive.
Qed.

Lemma read_image_reversed_witness :
  read_image (λ _ (_ : string), Some (mk_ndarray uint8 [1; 2; 3] [3; 2; 1; 6; 5; 4]%Z))
    "rgb.png" None
  = Ok (mk_ndarray uint8 [1; 2; 3] [1; 2; 3; 4; 5; 6]%Z).
Proof.
  apply (read_image_reversed _ "rgb.png" None
           (mk_ndarray uint8 [1; 2; 3] [1; 2; 3; 4; 5; 6]%Z)); reflexivity.
Defined.

(** ** Renaming and indexing *)

Section remap_lookup.
Context {V : Type}.
Implicit Types (d : dict V) (k : string) (v : V).

Lemma dict_get_set_eq k v d : Dict.get k (Dict.set k v d) = Some v.
Proof.
  induction d as [|[k' v'] d IH]; simpl.
  - by rewrite decide_True.
  - destruct (decide (k = k')) as [->|Hne]; simpl.
    + by rewrite decide_True.
    + by rewrite decide_False.
Qed.

Lemma dict_get_remove_ne k k' d : k ≠ k' → Dict.get k (Dict.remove k' d) = Dict.get k d.
Proof.
  intros Hne. induction d as [|[k'' v''] d IH]; simpl; [done|].
  destruct (decide (k' = k'')) as [->|Hne']; simpl.
  - by rewrite decide_False.
  - destruct (decide (k = k'')); [done|apply IH].
Qed.

(** [remap] moves the value of the old key to the new key, replacing
    whatever the new key held, removes the old key and leaves every other
    key alone; without the old key it changes nothing. *)
Theorem remap_dict_lookup old_key new_key d :
  NoDup d.*1 →
  old_key ≠ new_key →
  match Dict.get old_key d with
  | Some v =>
      Dict.get new_key (remap_dict old_key new_key d) = Some v
      ∧ Dict.get old_key (remap_dict old_key new_key d) = None
      ∧ ∀ k, k ≠ old_key → k ≠ new_key →
          Dict.get k (remap_dict old_key new_key d) = Dict.get k d
  | None => remap_dict old_key new_key d = d
  end.
Proof.
  intros Hdup Hne. unfold remap_dict.
  destruct (Dict.get old_key d) as [v|] eqn:Hget; [|done]. repeat split.
  - apply dict_get_set_eq.
  - rewrite dict_get_set_ne by done.
    apply dict_get_None. by apply dict_remove_keys.
  - intros k Hk1 Hk2. by rewrite dict_get_set_ne, dict_get_remove_ne.
Qed.
End remap_lookup.

Lemma remap_dict_lookup_witness :
  match Dict.get "image" (img_filepath Ex.labelled) with
  | Some v =>
      Dict.get "input" (remap_dict "image" "input" (img_filepath Ex.labelled)) = Some v
      ∧ Dict.get "image" (remap_dict "image" "input" (img_filepath Ex.labelled)) = None
      ∧ ∀ k, k ≠ "image" → k ≠ "input" →
          Dict.get k (remap_dict "image" "input" (img_filepath Ex.labelled))
          = Dict.get k (img_filepath Ex.labelled)
  | None => remap_dict "image" "input" (img_filepath Ex.labelled)
            = img_filepath Ex.labelled
  end.
Proof.
  apply (remap_dict_lookup "image" "input" (img_filepath Ex.labelled)).
  - apply (bool_decide_unpack _). vm_compute. exact I.
  - discriminate.
Defined.

(** [len] fails as [real_length] does. *)
Lemma len_real_length_raises (w : world) (e : exn) :
  runM real_length w = (w, Raise e) → runM len w = (w, Raise e).
Proof.
  intros H. unfold len. rewrite runM_bind. unfold __len__.
  rewrite runM_bind. runm. by rewrite runM_bind, H.
Qed.

(** The length of a dataset is read off the field ["image"]: once that
    field is renamed, [real_length] and with it [len] and every
    [__getitem__] fail with [KeyError]. *)
Theorem remap_image_breaks_indexing bo cast name_ok fresh imread resize pad missing
    (ds : dataset) (st : shm_store) (new_key : string) (index : Z)
    (return_indices_arg return_tag_arg : bool) :
  NoDup (img_filepath ds).*1 →
  is_Some (Dict.get "image" (img_filepath ds)) →
  new_key ≠ "image" →
  let w := mk_world (remap "image" new_key ds) st in
  runM real_length w = (w, Raise KeyError)
  ∧ runM len w = (w, Raise KeyError)
  ∧ runM (__getitem__ bo cast name_ok fresh imread resize pad missing index
            return_indices_arg return_tag_arg) w = (w, Raise KeyError).
Proof.
  intros Hdup [v Hv] Hne w.
  assert (Dict.get "image" (img_filepath (self w)) = None) as Hget.
  { assert (Dict.get "image" (remap_dict "image" new_key (img_filepath ds)) = None)
      as Hnone.
    { unfold remap_dict. rewrite Hv. rewrite dict_get_set_ne by done.
      apply dict_get_None. by apply dict_remove_keys. }
    subst w. unfold remap, AbstractImageDataset_remap.
    destruct (gt_column ds); by attrs. }
  assert (runM real_length w = (w, Raise KeyError)) as Hreal.
  { unfold real_length. rewrite runM_bind. runm.
    unfold dict_getitem. by rewrite Hget. }
  assert (runM len w = (w, Raise KeyError)) as Hlen.
  { by apply len_real_length_raises. }
  repeat split; [done..|].
  unfold __getitem__. by rewrite runM_bind, Hlen.
Qed.

Lemma remap_image_breaks_indexing_witness :
  let w := mk_world (remap "image" "input" (Ex.images false)) Ex.no_shm in
  runM real_length w = (w, Raise KeyError)
  ∧ runM len w = (w, Raise KeyError)
  ∧ runM (__getitem__ LittleEndian Ex.no_cast Ex.name_ok Ex.fresh Ex.imread Ex.keep Ex.keep
            "" 0 false false) w = (w, Raise KeyError).
Proof.
  apply (remap_image_breaks_indexing LittleEndian Ex.no_cast Ex.name_ok Ex.fresh Ex.imread
           Ex.keep Ex.keep "" (Ex.images false) Ex.no_shm "input" 0 false false).
  - apply (bool_decide_unpack _). vm_compute. exact I.
  - by eexists.
  - discriminate.
Defined.

(** ** Access *)

(** A dataset without images has length zero, whatever its factor. *)
Lemma scaled_length_zero (factor : number) (l : Z) :
  scaled_length factor 0 = Ok l → l = 0%Z.
Proof.
  destruct factor as [z|f]; cbn.
  - intros [= <-]. lia.
  - destruct f as [s|s| |s m e]; cbn; by intros [= <-].
Qed.

(** With a size factor above one, an index between [real_length] and
    [len(dataset)] stands for the index modulo [real_length]: the two
    accesses do the same thing and return the same sample, the reduced
    index included when indices are returned. *)
Theorem getitem_wraps bo cast name_ok fresh imread resize pad missing (w : world)
    (index l : Z) (n : nat) (return_indices_arg return_tag_arg : bool) :
  (runM len w).2 = Ok l →
  (runM real_length w).2 = Ok n →
  (Z.of_nat n ≤ index < l)%Z →
  runM (__getitem__ bo cast name_ok fresh imread resize pad missing index
          return_indices_arg return_tag_arg) w
  = runM (__getitem__ bo cast name_ok fresh imread resize pad missing
            (index `mod` Z.of_nat n) return_indices_arg return_tag_arg) w.
Proof.
  intros Hlen Hreal Hrange.
  assert (0 < Z.of_nat n)%Z as Hn.
  { destruct n; [|lia]. exfalso. revert Hlen.
    unfold len. rewrite runM_bind. unfold __len__.
    rewrite runM_bind. runm. rewrite runM_bind.
    destruct (runM real_length w) as [w2 r2] eqn:Hrl.
    simpl in Hreal; subst. runm.
    destruct (scaled_length _ 0) as [l0|] eqn:Hl0; runm; [|done].
    apply scaled_length_zero in Hl0 as ->.
    rewrite decide_False by lia. rewrite decide_False by (unfold sys_maxsize; lia).
    runm. intros [= <-]. simpl in Hrange. lia. }
  unfold __getitem__. rewrite !runM_bind.
  pose proof (len_state w) as Hst.
  destruct (runM len w) as [w1 r1]; simpl in Hlen, Hst; subst.
  pose proof (Z.mod_pos_bound index (Z.of_nat n) Hn) as Hmod.
  rewrite !decide_False by lia.
  rewrite !runM_bind.
  destruct (runM real_length w) as [w2 r2] eqn:Hrl; simpl in Hreal; subst.
  apply real_length_state in Hrl as ->.
  rewrite decide_True by lia. by rewrite decide_False by lia.
Qed.

Lemma getitem_wraps_witness :
  Ex.run (Ex.dataset_getitem 4) Ex.upsampled Ex.no_shm
  = Ex.run (Ex.dataset_getitem (4 `mod` 2)) Ex.upsampled Ex.no_shm.
Proof.
  apply (getitem_wraps LittleEndian Ex.no_cast Ex.name_ok Ex.fresh Ex.imread
           Ex.keep Ex.keep "" _ 4 5 2 false false).
  - vm_compute. reflexivity.
  - reflexivity.
  - lia.
Defined.

(** ** The shared-memory cache keeps what it is given *)

Section slot_facts.
Implicit Types (st : shm_store) (b sz i j : nat) (bytes : list Z).

Lemma block_bytes_write st b off bytes :
  off + length bytes ≤ length (block_bytes st b) →
  block_bytes (block_write b off bytes st) b
  = take off (block_bytes st b) ++ bytes ++ drop (off + length bytes) (block_bytes st b).
Proof.
  unfold block_bytes, block_write; cbn [shm_blocks]. intros Hlen.
  rewrite list_lookup_alter_eq. destruct (shm_blocks st !! b); simpl in *; [done|].
  destruct bytes; simpl in *; [by rewrite take_nil, drop_nil|lia].
Qed.

Lemma block_write_length st b b' off bytes :
  off + length bytes ≤ length (block_bytes st b) →
  length (block_bytes (block_write b off bytes st) b') = length (block_bytes st b').
Proof.
  intros Hlen. destruct (decide (b' = b)) as [->|Hne].
  - rewrite block_bytes_write by done.
    rewrite !length_app, length_take, length_drop. lia.
  - by rewrite block_write_other.
Qed.

Lemma slot_write_eq st b sz i bytes :
  length bytes = sz →
  (i + 1) * sz ≤ length (block_bytes st b) →
  slot (block_write b (i * sz) bytes st) b sz i = bytes.
Proof.
  intros Hb Hlen. unfold slot. rewrite block_bytes_write by lia.
  rewrite drop_app_length' by (rewrite length_take; lia).
  by rewrite take_app_length'.
Qed.

Lemma slot_write_ne st b sz i j bytes :
  length bytes = sz →
  (i + 1) * sz ≤ length (block_bytes st b) →
  i ≠ j →
  slot (block_write b (i * sz) bytes st) b sz j = slot st b sz j.
Proof.
  intros Hb Hlen Hne. unfold slot. rewrite block_bytes_write by lia.
  set (old := block_bytes st b) in *.
  destruct (decide (j < i)) as [Hlt|Hge].
  - assert ((j + 1) * sz ≤ i * sz) as Hle by nia.
    rewrite drop_app_le by (rewrite length_take; lia).
    rewrite take_app_le by (rewrite length_drop, length_take; lia).
    rewrite !take_drop_commute, take_take. do 2 f_equal. lia.
  - assert ((i + 1) * sz ≤ j * sz) as Hle by nia.
    rewrite app_assoc.
    rewrite drop_app_ge by (rewrite length_app, length_take; lia).
    rewrite length_app, length_take, drop_drop. do 2 f_equal. lia.
Qed.

Lemma slot_write_other st b b' sz off i bytes :
  b ≠ b' → slot (block_write b off bytes st) b' sz i = slot st b' sz i.
Proof. intros Hne. unfold slot. by rewrite block_write_other. Qed.

End slot_facts.

Section chunks_more.
Context {A : Type}.
Implicit Types (l : list A).

Lemma drop_chunks c m j l :
  drop j (chunks c m l) = chunks c (m - j) (drop (j * c) l).
Proof.
  revert m l. induction j as [|j IH]; intros m l.
  - by rewrite Nat.sub_0_r.
  - destruct m as [|m]; [done|]. cbn [chunks]. rewrite skipn_cons, IH.
    rewrite drop_drop. by replace (c + j * c) with (S j * c) by lia.
Qed.

Lemma take_chunks c m k l : k ≤ m → take k (chunks c m l) = chunks c k l.
Proof.
  revert m l. induction k as [|k IH]; intros m l Hk; [done|].
  destruct m as [|m]; [lia|]. cbn [chunks]. rewrite firstn_cons, IH by lia. done.
Qed.

Lemma chunks_prefix c k l : chunks c k (take (k * c) l) = chunks c k l.
Proof.
  revert l. induction k as [|k IH]; intros l; [done|]. cbn [chunks].
  rewrite take_take, Nat.min_l by lia. f_equal.
  rewrite <- (IH (drop c l)). f_equal.
  rewrite take_drop_commute. by replace (c + k * c) with (S k * c) by lia.
Qed.
End chunks_more.

(** The elements of item [i] of a buffer are those whose bytes its slot
    holds. *)
Lemma frombuffer_slot bo d (bytes xs : list Z) (n k i : nat) :
  length bytes = n * (k * itemsize d) →
  i < n →
  take (k * itemsize d) (drop (i * (k * itemsize d)) bytes)
    = flat_map (encode bo d) xs →
  length xs = k →
  Forall (fits d) xs →
  take k (drop (i * k) (frombuffer bo d bytes)) = xs.
Proof.
  intros Hlen Hi Hslot Hk Hfits. unfold frombuffer.
  assert (0 < itemsize d) as Hpos by (destruct d; simpl; lia).
  replace (length bytes `div` itemsize d) with (n * k)
    by (rewrite Hlen; symmetry; rewrite Nat.mul_assoc; apply Nat.div_mul; lia).
  rewrite <- fmap_drop, <- fmap_take, drop_chunks, take_chunks by nia.
  rewrite <- chunks_prefix.
  replace (i * k * itemsize d) with (i * (k * itemsize d)) by lia.
  rewrite Hslot. rewrite chunks_flat_map by (done || apply encode_length).
  rewrite <- list_fmap_compose.
  clear Hslot Hk. induction Hfits as [|x xs Hx _ IH]; [done|].
  csimpl. by rewrite decode_encode, IH.
Qed.

Lemma py_index_nat n i : i < n → py_index n (Z.of_nat i) = Some i.
Proof.
  intros Hi. unfold py_index. rewrite decide_True by lia. by rewrite Nat2Z.id.
Qed.

Lemma tobytes_length bo (a : ndarray) :
  length (arr_data a) = size a → length (tobytes bo a) = nbytes a.
Proof.
  intros Hlen. unfold tobytes, nbytes. rewrite <- Hlen.
  by rewrite (flat_map_length_const _ (itemsize (arr_dtype a)))
    by (intros x; apply encode_length).
Qed.

(** Unfolding of a sequence of steps. *)
Ltac go := repeat first [rewrite runM_bind | progress runm].

Section transparency.
Variable bo : byteorder.
Variable cast : dtype → dtype → Z → Z.

Lemma write_item_fits (ds : dataset) (st : shm_store) k b n i nsl (a : ndarray) :
  Dict.get k (shared_arrays ds) = Some (InShm b (arr_dtype a) (n :: arr_shape a)) →
  i < n →
  nsl ≤ ndim a →
  length (arr_data a) = size a →
  runM (write_item bo cast k (Z.of_nat i) nsl a) (mk_world ds st)
  = (mk_world ds (block_write b (i * nbytes a) (tobytes bo a) st), Ok ()).
Proof.
  intros Hget Hi Hnsl Hlen. unfold write_item.
  runm. unfold dict_getitem. rewrite Hget. runm.
  rewrite decide_True by done. rewrite py_index_nat by done. runm.
  rewrite assign_same by done. runm.
  unfold nbytes, size, tobytes. by rewrite Nat.mul_assoc.
Qed.

Lemma store_field_fits (ds : dataset) (st : shm_store) k b n i (a : ndarray) :
  Dict.get k (shared_arrays ds) = Some (InShm b (arr_dtype a) (n :: arr_shape a)) →
  i < n →
  2 ≤ ndim a →
  length (arr_data a) = size a →
  runM (store_field bo cast (Z.of_nat i) (k, Array a)) (mk_world ds st)
  = (mk_world ds (block_write b (i * nbytes a) (tobytes bo a) st), Ok ()).
Proof.
  intros Hget Hi Hnd Hlen. unfold store_field.
  rewrite runM_bind. runm. unfold full_slices. cbn [value_ndim].
  destruct (decide (ndim a = 2)) as [Heq|Hne].
  - destruct (decide (2 ≤ ndim a)); [|lia]. apply (write_item_fits _ _ _ _ n); (done || lia).
  - destruct (decide (3 ≤ ndim a)); [|lia]. apply (write_item_fits _ _ _ _ n); (done || lia).
Qed.

Lemma fits_entry_length n (st st' : shm_store) e f :
  (∀ b, length (block_bytes st' b) = length (block_bytes st b)) →
  fits_entry n st e f → fits_entry n st' e f.
Proof.
  intros Hlen. destruct e as [k [b d [|m s]|a0|items]], f as [k' [a| | |]]; try done.
  cbn [fits_entry]. by rewrite Hlen.
Qed.

Lemma holds_items_kept (st st' : shm_store) i (es : dict cache_array)
    (fs : sample) :
  (∀ b, b ∈ entry_blocks es → block_bytes st' b = block_bytes st b) →
  Forall2 (holds_item bo st i) es fs → Forall2 (holds_item bo st' i) es fs.
Proof.
  intros Hkept Hheld. induction Hheld as [|e f es fs Hh _ IH]; constructor.
  - destruct e as [k [b d s|a0|items]], f as [k' [a| | |]]; try done.
    cbn [holds_item] in *. unfold slot. rewrite Hkept; [done|]. by left.
  - apply IH. intros b Hb. apply Hkept.
    destruct e as [k [b' d s|a0|items]]; [by right|done|done].
Qed.

Lemma store_fields_fits (ds : dataset) n i (es : dict cache_array) (fs : sample) :
  i < n →
  ∀ st,
  Forall2 (fits_entry n st) es fs →
  (∀ k v, (k, v) ∈ es → Dict.get k (shared_arrays ds) = Some v) →
  NoDup (entry_blocks es) →
  ∃ st',
    runM (for_each fs (store_field bo cast (Z.of_nat i))) (mk_world ds st)
      = (mk_world ds st', Ok ())
    ∧ (∀ b, length (block_bytes st' b) = length (block_bytes st b))
    ∧ (∀ b, b ∉ entry_blocks es → block_bytes st' b = block_bytes st b)
    ∧ Forall2 (holds_item bo st' i) es fs
    ∧ ∀ j other, j ≠ i →
        Forall2 (fits_entry n st) es other →
        Forall2 (holds_item bo st j) es other →
        Forall2 (holds_item bo st' j) es other.
Proof.
  intros Hi. revert fs. induction es as [|e es IH]; intros fs st Hfits Hget Hdup.
  - apply Forall2_nil_inv_l in Hfits as ->. exists st. by repeat split.
  - apply Forall2_cons_inv_l in Hfits as (f & fs' & Hf & Hfits & ->).
    destruct e as [k [b d [|m s]|a0|items]], f as [k' [a| | |]]; try done.
    destruct Hf as (<- & -> & <- & <- & Hnd & [Hlen Hrange] & Hblock).
    cbn [for_each]. rewrite runM_bind.
    rewrite (store_field_fits ds st k b n) by (done || apply Hget; left).
    set (st1 := block_write b (i * nbytes a) (tobytes bo a) st).
    assert (i * nbytes a + length (tobytes bo a) ≤ length (block_bytes st b))
      as Hroom by (rewrite tobytes_length by done; nia).
    assert (∀ b', length (block_bytes st1 b') = length (block_bytes st b'))
      as Hlen1 by (intros b'; by apply block_write_length).
    change (entry_blocks ((k, InShm b (arr_dtype a) (n :: arr_shape a)) :: es))
      with (b :: entry_blocks es) in *.
    apply NoDup_cons in Hdup as [Hb Hdup].
    destruct (IH fs' st1) as (st' & Hrun & Hlen' & Hkept & Hheld & Hothers).
    { eapply Forall2_impl; [done|]. intros e f. by apply fits_entry_length. }
    { intros k' v Hin. apply Hget. by right. }
    { done. }
    exists st'. split; [done|]. split; [|split; [|split]].
    + intros b'. by rewrite Hlen', Hlen1.
    + intros b' Hb'. apply not_elem_of_cons in Hb' as [Hne Hb'].
      rewrite Hkept by done. by apply block_write_other.
    + constructor; [|done]. cbn [holds_item]. unfold slot.
      rewrite Hkept by done. apply slot_write_eq.
      * by apply tobytes_length.
      * nia.
    + intros j other Hj Hfits' Hheld'.
      apply Forall2_cons_inv_l in Hfits' as (f' & other' & Hf' & Hfits' & ->).
      apply Forall2_cons in Hheld' as [Hh' Hheld'].
      constructor.
      * destruct f' as [k' [a'| | |]]; try done. cbn [holds_item] in *.
        destruct Hf' as (_ & _ & _ & _ & _ & _ & Hblock').
        assert (nbytes a' = nbytes a) as Hsz by nia.
        unfold slot in *. rewrite Hkept by done. rewrite Hsz in *.
        rewrite <- Hh'. apply slot_write_ne; [by apply tobytes_length|nia|done].
      * apply Hothers; [done| |].
        -- eapply Forall2_impl; [exact Hfits'|]. intros e f.
           by apply fits_entry_length.
        -- apply (holds_items_kept st); [|done]. intros b' Hb'.
           apply block_write_other. by intros ->.
Qed.

Lemma cache_items_get_nat (ds : dataset) (st : shm_store) b0 i x :
  _cache_items ds = Some b0 →
  block_bytes st b0 !! i = Some x →
  runM (cache_items_get (Z.of_nat i)) (mk_world ds st)
  = (mk_world ds st, Ok (bool_decide (x ≠ 0%Z))).
Proof.
  intros Hb Hx. unfold cache_items_get. runm. rewrite Hb. runm.
  unfold getitem. rewrite py_index_nat by (by eapply lookup_lt_Some).
  cbn [mbind option_bind]. by rewrite Hx.
Qed.

Lemma read_item_fits (ds : dataset) (st : shm_store) n i k b d s (a : ndarray) :
  i < n →
  fits_entry n st (k, InShm b d s) (k, Array a) →
  holds_item bo st i (k, InShm b d s) (k, Array a) →
  runM (read_item bo (InShm b d s) (Z.of_nat i)) (mk_world ds st)
  = (mk_world ds st, Ok (Array a)).
Proof.
  intros Hi Hfits Hheld. destruct s as [|m s]; [done|].
  destruct Hfits as (_ & -> & <- & <- & Hnd & [Hlen Hrange] & Hblock).
  cbn [holds_item] in Hheld. unfold read_item. runm.
  unfold array_item. rewrite py_index_nat by done.
  rewrite (frombuffer_slot bo (arr_dtype a) _ (arr_data a) n).
  - destruct a as [d [|h s] xs]; [unfold ndim in Hnd; simpl in Hnd; lia|done].
  - done.
  - done.
  - done.
  - done.
  - done.
Qed.

Lemma read_fields_fits (ds : dataset) (st : shm_store) n i
    (es : dict cache_array) :
  i < n →
  ∀ (fs out : sample),
  Forall2 (fits_entry n st) es fs →
  Forall2 (holds_item bo st i) es fs →
  NoDup es.*1 →
  (∀ k, k ∈ es.*1 → k ∉ out.*1) →
  runM (fold_each es out (λ out '(k, v),
          x ← read_item bo v (Z.of_nat i); mret (Dict.set k x out)))
       (mk_world ds st)
  = (mk_world ds st, Ok (out ++ fs)).
Proof.
  intros Hi. induction es as [|e es IH]; intros fs out Hfits Hheld Hdup Hout.
  - apply Forall2_nil_inv_l in Hfits as ->. cbn [fold_each]. runm.
    by rewrite app_nil_r.
  - apply Forall2_cons_inv_l in Hfits as (f & fs' & Hf & Hfits & ->).
    apply Forall2_cons in Hheld as [Hh Hheld].
    destruct e as [k [b d s|a0|items]], f as [k' [a| | |]]; try done.
    assert (k' = k) as -> by (destruct s; [done|]; by destruct Hf as [-> _]).
    rewrite fmap_cons in Hdup. apply NoDup_cons in Hdup as [Hk Hdup].
    cbn [fold_each]. rewrite runM_bind. cbn beta iota. rewrite runM_bind.
    rewrite (read_item_fits ds st n i k b d s a) by done. runm.
    rewrite dict_set_fresh by (apply Hout; left).
    rewrite IH with (fs := fs'); try done.
    + by rewrite <- app_assoc.
    + intros k' Hk'. rewrite fmap_app. intros [Hin|Hin]%elem_of_app.
      * revert Hin. apply Hout. by right.
      * apply list_elem_of_singleton in Hin. simpl in Hin. by subst.
Qed.

Lemma dict_get_elem_of {V} (d : dict V) k v :
  NoDup d.*1 → (k, v) ∈ d → Dict.get k d = Some v.
Proof.
  induction d as [|[k' v'] d IH]; intros Hdup Hin; [by apply elem_of_nil in Hin|].
  rewrite fmap_cons in Hdup. apply NoDup_cons in Hdup as [Hk Hdup].
  simpl. apply elem_of_cons in Hin as [[= <- <-]|Hin].
  - by rewrite decide_True.
  - rewrite decide_False; [by apply IH|].
    intros ->. apply Hk. apply list_elem_of_fmap. by exists (k', v).
Qed.

(** A hit on item [i] returns what the views hold for it and changes
    nothing. *)
Lemma load_array_hit (name_ok : string → bool) (fresh : string → nat → list value)
    (imread : imread_flag → string → option ndarray)
    (resize pad : option (nat * nat) → ndarray → ndarray) (missing : string)
    (ds : dataset) (st : shm_store) (n i b0 : nat) (x : Z)
    (stored : sample) :
  use_cache ds = true →
  cache_initialized ds = true →
  _cache_items ds = Some b0 →
  length (block_bytes st b0) = n →
  block_bytes st b0 !! i = Some x →
  x ≠ 0%Z →
  NoDup (shared_arrays ds).*1 →
  Forall2 (fits_entry n st) (shared_arrays ds) stored →
  Forall2 (holds_item bo st i) (shared_arrays ds) stored →
  runM (load_array bo cast name_ok fresh imread resize pad missing (Z.of_nat i))
       (mk_world ds st)
  = (mk_world ds st, Ok stored).
Proof.
  intros Hcache Hinit Hb0 Hn Hbit Hx Hkeys Hfits Hheld.
  assert (i < n) as Hi by (rewrite <- Hn; by eapply lookup_lt_Some).
  unfold load_array. go. rewrite Hcache. cbn [negb]. go.
  rewrite Hinit. go.
  rewrite (cache_items_get_nat ds st b0 i x) by done.
  rewrite bool_decide_eq_true_2 by done. runm.
  apply (read_fields_fits ds st n i (shared_arrays ds) Hi stored []); try done.
  intros k _. apply not_elem_of_nil.
Qed.

Section round_trip.
Variable name_ok : string → bool.
Variable fresh : string → nat → list value.
Variable imread : imread_flag → string → option ndarray.
Variable resize pad : option (nat * nat) → ndarray → ndarray.
Variable missing : string.

(** What a miss on item [i] does to the shared memory. *)
Lemma load_array_miss (ds : dataset) (st : shm_store) (n i b0 : nat)
    (loaded : sample) :
  use_cache ds = true →
  cache_initialized ds = true →
  _cache_items ds = Some b0 →
  length (block_bytes st b0) = n →
  block_bytes st b0 !! i = Some 0%Z →
  NoDup (shared_arrays ds).*1 →
  NoDup (b0 :: entry_blocks (shared_arrays ds)) →
  load_image imread resize pad missing ds (Z.of_nat i) = Ok loaded →
  Forall2 (fits_entry n st) (shared_arrays ds) (precompose_data ds loaded) →
  ∃ st',
    runM (load_array bo cast name_ok fresh imread resize pad missing (Z.of_nat i))
         (mk_world ds st)
      = (mk_world ds st', Ok (precompose_data ds loaded))
    ∧ (∀ b, length (block_bytes st' b) = length (block_bytes st b))
    ∧ (∀ j, j ≠ i → block_bytes st' b0 !! j = block_bytes st b0 !! j)
    ∧ block_bytes st' b0 !! i = Some 1%Z
    ∧ Forall2 (holds_item bo st' i) (shared_arrays ds) (precompose_data ds loaded)
    ∧ ∀ j other, j ≠ i →
        Forall2 (fits_entry n st) (shared_arrays ds) other →
        Forall2 (holds_item bo st j) (shared_arrays ds) other →
        Forall2 (holds_item bo st' j) (shared_arrays ds) other.
Proof.
  intros Hcache Hinit Hb0 Hn Hmiss Hkeys Hblocks Hload Hfits.
  assert (i < n) as Hi by (rewrite <- Hn; by eapply lookup_lt_Some).
  apply NoDup_cons in Hblocks as [Hb0' Hblocks].
  destruct (store_fields_fits ds n i (shared_arrays ds) (precompose_data ds loaded)
              Hi st Hfits) as (st1 & Hstore & Hlen1 & Hkept1 & Hheld1 & Hothers1);
    [intros k v Hin; by apply dict_get_elem_of|done|].
  set (st2 := block_write b0 i [1%Z] st1).
  assert (i + length [1%Z] ≤ length (block_bytes st1 b0)) as Hroom
    by (rewrite Hlen1, Hn; simpl; lia).
  assert (∀ b, b ∈ entry_blocks (shared_arrays ds) →
            block_bytes st2 b = block_bytes st1 b) as Hkept2.
  { intros b Hb. subst st2. apply block_write_other. by intros ->. }
  assert (block_bytes st2 b0
          = take i (block_bytes st b0) ++ [1%Z] ++ drop (i + 1) (block_bytes st b0))
    as Hbitmap.
  { subst st2. rewrite block_bytes_write by done. by rewrite Hkept1. }
  exists st2. repeat split.
  - unfold load_array. go. rewrite Hcache. cbn [negb]. go.
    rewrite Hinit. go.
    rewrite (cache_items_get_nat ds st b0 i 0%Z) by done.
    rewrite bool_decide_eq_false_2 by (intros H; by apply H).
    go. rewrite Hload. go.
    rewrite Hstore. go.
    unfold cache_items_set. go. rewrite Hb0. go.
    rewrite Hlen1, Hn, py_index_nat by done. go. done.
  - intros b. subst st2. rewrite block_write_length by done. apply Hlen1.
  - intros j Hj. rewrite Hbitmap.
    destruct (decide (j < i)).
    + rewrite lookup_app_l by (rewrite length_take; lia).
      by rewrite lookup_take_lt.
    + rewrite lookup_app_r by (rewrite length_take; lia).
      rewrite length_take, Nat.min_l by lia.
      destruct (j - i) as [|m] eqn:Hm; [lia|]. simpl.
      rewrite lookup_drop. f_equal. lia.
  - rewrite Hbitmap.
    rewrite lookup_app_r by (rewrite length_take; lia).
    by rewrite length_take, Nat.min_l, Nat.sub_diag by lia.
  - by apply (holds_items_kept st1).
  - intros j other Hj Hfits' Hheld'.
    apply (holds_items_kept st1); [done|]. by apply Hothers1.
Qed.

(** A miss on item [i] stores the sample so that the next fetch of [i]
    is a hit: after the miss the bit of [i] is set and the views hold the
    sample at [i], and the next fetch of [i] returns the same sample and
    changes nothing, whatever reading the files would give then.  The
    shared-memory cache is transparent for samples of arrays that fit the
    views made for them. *)
Theorem load_array_miss_then_hit (ds : dataset) (st : shm_store) (n i b0 : nat)
    (loaded : sample) :
  use_cache ds = true →
  cache_initialized ds = true →
  _cache_items ds = Some b0 →
  length (block_bytes st b0) = n →
  block_bytes st b0 !! i = Some 0%Z →
  NoDup (shared_arrays ds).*1 →
  NoDup (b0 :: entry_blocks (shared_arrays ds)) →
  load_image imread resize pad missing ds (Z.of_nat i) = Ok loaded →
  Forall2 (fits_entry n st) (shared_arrays ds) (precompose_data ds loaded) →
  ∃ st',
    runM (load_array bo cast name_ok fresh imread resize pad missing (Z.of_nat i))
         (mk_world ds st)
      = (mk_world ds st', Ok (precompose_data ds loaded))
    ∧ block_bytes st' b0 !! i = Some 1%Z
    ∧ Forall2 (holds_item bo st' i) (shared_arrays ds) (precompose_data ds loaded)
    ∧ ∀ name_ok' fresh' imread' resize' pad' missing',
        runM (load_array bo cast name_ok' fresh' imread' resize' pad' missing'
                (Z.of_nat i))
             (mk_world ds st')
        = (mk_world ds st', Ok (precompose_data ds loaded)).
Proof.
  intros Hcache Hinit Hb0 Hn Hmiss Hkeys Hblocks Hload Hfits.
  destruct (load_array_miss ds st n i b0 loaded) as
    (st' & Hrun & Hlen & Hbits & Hbit & Hheld & _); try done.
  exists st'. split; [done|]. split; [done|]. split; [done|].
  intros name_ok' fresh' imread' resize' pad' missing'.
  apply (load_array_hit name_ok' fresh' imread' resize' pad' missing'
           ds st' n i b0 1%Z); try done.
  - by rewrite Hlen.
  - eapply Forall2_impl; [exact Hfits|]. intros e f. by apply fits_entry_length.
Qed.

(** A cached item survives the miss on another one: if the views hold the
    sample of item [j] and its bit is set, then after a miss on item [i]
    the fetch of [j] is still a hit and returns that sample. *)
Theorem load_array_hit_survives_miss (ds : dataset) (st : shm_store)
    (n i j b0 : nat) (x : Z) (loaded stored : sample) :
  use_cache ds = true →
  cache_initialized ds = true →
  _cache_items ds = Some b0 →
  length (block_bytes st b0) = n →
  block_bytes st b0 !! i = Some 0%Z →
  block_bytes st b0 !! j = Some x →
  x ≠ 0%Z →
  NoDup (shared_arrays ds).*1 →
  NoDup (b0 :: entry_blocks (shared_arrays ds)) →
  load_image imread resize pad missing ds (Z.of_nat i) = Ok loaded →
  Forall2 (fits_entry n st) (shared_arrays ds) (precompose_data ds loaded) →
  Forall2 (fits_entry n st) (shared_arrays ds) stored →
  Forall2 (holds_item bo st j) (shared_arrays ds) stored →
  let w' := (runM (load_array bo cast name_ok fresh imread resize pad missing (Z.of_nat i))
               (mk_world ds st)).1 in
  runM (load_array bo cast name_ok fresh imread resize pad missing (Z.of_nat j)) w'
  = (w', Ok stored).
Proof.
  intros Hcache Hinit Hb0 Hn Hmiss Hbit Hx Hkeys Hblocks Hload Hfits Hfits' Hheld'.
  destruct (load_array_miss ds st n i b0 loaded) as
    (st' & Hrun & Hlen & Hbits & _ & _ & Hothers); try done.
  rewrite Hrun. cbn [fst].
  assert (j ≠ i) as Hne by (intros ->; congruence).
  apply (load_array_hit name_ok fresh imread resize pad missing
           ds st' n j b0 x); try done.
  - by rewrite Hlen.
  - by rewrite Hbits.
  - eapply Forall2_impl; [exact Hfits'|]. intros e f. by apply fits_entry_length.
  - by apply Hothers.
Qed.
End round_trip.
End transparency.

Lemma load_array_miss_then_hit_witness :
  ∃ st',
    runM (load_array LittleEndian Ex.no_cast Ex.name_ok Ex.fresh Ex.imread Ex.keep
            Ex.keep "" (Z.of_nat 1))
         (mk_world (self Ex.creator) (shm Ex.creator))
      = (mk_world (self Ex.creator) st',
         Ok (precompose_data (self Ex.creator) [("image", Array Ex.img_b)]))
    ∧ block_bytes st' 0 !! 1 = Some 1%Z
    ∧ Forall2 (holds_item LittleEndian st' 1) (shared_arrays (self Ex.creator))
        (precompose_data (self Ex.creator) [("image", Array Ex.img_b)])
    ∧ ∀ name_ok' fresh' imread' resize' pad' missing',
        runM (load_array LittleEndian Ex.no_cast name_ok' fresh' imread' resize'
                pad' missing' (Z.of_nat 1))
             (mk_world (self Ex.creator) st')
        = (mk_world (self Ex.creator) st',
           Ok (precompose_data (self Ex.creator) [("image", Array Ex.img_b)])).
Proof.
  apply (load_array_miss_then_hit LittleEndian Ex.no_cast Ex.name_ok Ex.fresh
           Ex.imread Ex.keep Ex.keep "" (self Ex.creator) (shm Ex.creator) 2 1 0
           [("image", Array Ex.img_b)]).
  - vm_compute. reflexivity.
  - vm_compute. reflexivity.
  - vm_compute. reflexivity.
  - vm_compute. reflexivity.
  - vm_compute. reflexivity.
  - apply (bool_decide_unpack _). vm_compute. exact I.
  - apply (bool_decide_unpack _). vm_compute. exact I.
  - vm_compute. reflexivity.
  - vm_compute. repeat constructor; discriminate.
Defined.

Lemma load_array_hit_survives_miss_witness :
  let w' := (runM (load_array LittleEndian Ex.no_cast Ex.name_ok Ex.fresh Ex.imread Ex.keep
                     Ex.keep "" (Z.of_nat 0))
               (mk_world (self Ex.filled) (shm Ex.filled))).1 in
  runM (load_array LittleEndian Ex.no_cast Ex.name_ok Ex.fresh Ex.imread Ex.keep Ex.keep ""
          (Z.of_nat 1)) w'
  = (w', Ok [("image", Array Ex.img_b)]).
Proof.
  apply (load_array_hit_survives_miss LittleEndian Ex.no_cast Ex.name_ok Ex.fresh Ex.imread
           Ex.keep Ex.keep "" (self Ex.filled) (shm Ex.filled) 2 0 1 0 1%Z
           [("image", Array Ex.img_a)] [("image", Array Ex.img_b)]).
  - vm_compute. reflexivity.
  - vm_compute. reflexivity.
  - vm_compute. reflexivity.
  - vm_compute. reflexivity.
  - vm_compute. reflexivity.
  - vm_compute. reflexivity.
  - discriminate.
  - apply (bool_decide_unpack _). vm_compute. exact I.
  - apply (bool_decide_unpack _). vm_compute. exact I.
  - vm_compute. reflexivity.
  - vm_compute. repeat constructor; discriminate.
  - vm_compute. repeat constructor; discriminate.
  - vm_compute. repeat constructor.
Defined.

(** ** Initialization on regions that do not exist yet *)

Section init_fresh.
Variable name_ok : string → bool.
Variable fresh : string → nat → list value.
Variable imread : imread_flag → string → option ndarray.
Variable resize pad : option (nat * nat) → ndarray → ndarray.
Variable missing : string.

Lemma create_or_attach_fresh (w : world) name size :
  0 < size →
  name_ok name = true →
  shm_names (shm w) !! name = None →
  runM (create_or_attach name_ok name size) w
  = (mk_world (self w)
       (mk_store (<[name := length (shm_blocks (shm w))]> (shm_names (shm w)))
          (shm_blocks (shm w) ++ [replicate size 0%Z])),
     Ok (mk_shm name (length (shm_blocks (shm w))) false, true)).
Proof.
  intros Hsize Hok Hname. unfold create_or_attach, on_shm, try_except, shm_create.
  cbn [runM mbind M_bind mret M_ret].
  destruct (decide (size = 0)); [lia|]. rewrite Hok. cbn [negb].
  by rewrite Hname.
Qed.

Lemma block_bytes_zero_eq st b :
  block_bytes (block_zero b st) b = replicate (length (block_bytes st b)) 0%Z.
Proof.
  unfold block_bytes, block_zero; cbn [shm_blocks].
  rewrite list_lookup_alter_eq. by destruct (shm_blocks st !! b).
Qed.

Lemma block_bytes_zero_ne st b b' :
  b' ≠ b → block_bytes (block_zero b st) b' = block_bytes st b'.
Proof.
  intros Hne. unfold block_bytes, block_zero; cbn [shm_blocks].
  by rewrite list_lookup_alter_ne.
Qed.

Lemma block_bytes_new blocks names (bytes : list Z) :
  block_bytes (mk_store names (blocks ++ [bytes])) (length blocks) = bytes.
Proof.
  unfold block_bytes; cbn [shm_blocks].
  rewrite lookup_app_r by lia. by rewrite Nat.sub_diag.
Qed.

Lemma block_bytes_old blocks names (bytes : list Z) b :
  b < length blocks →
  block_bytes (mk_store names (blocks ++ [bytes])) b
  = block_bytes (mk_store names blocks) b.
Proof.
  intros Hb. unfold block_bytes; cbn [shm_blocks]. by rewrite lookup_app_l.
Qed.

(** One turn of the loop of [init_cache] for an array whose region does
    not exist yet. *)
Lemma init_cache_field_fresh (ds0 : dataset) n k (a : ndarray)
    (shared : dict cache_array) (w : world) hs :
  cache_with_shared_array ds0 = true →
  0 < n →
  0 < size a →
  name_ok (region_name ds0 k) = true →
  shm_names (shm w) !! region_name ds0 k = None →
  shms (self w) = Some hs →
  ∃ st',
    runM (init_cache_field name_ok fresh ds0 n shared (k, Array a)) w
    = (mk_world
         (set_shms (Some (hs ++ [mk_shm (region_name ds0 k)
                                   (length (shm_blocks (shm w))) false]))
            (self w)) st',
       Ok (Dict.set k (InShm (length (shm_blocks (shm w))) (arr_dtype a)
                         (n :: arr_shape a)) shared))
    ∧ shm_names st'
      = <[region_name ds0 k := length (shm_blocks (shm w))]> (shm_names (shm w))
    ∧ length (shm_blocks st') = S (length (shm_blocks (shm w)))
    ∧ length (block_bytes st' (length (shm_blocks (shm w)))) = n * nbytes a
    ∧ ∀ b, b < length (shm_blocks (shm w)) →
        block_bytes st' b = block_bytes (shm w) b.
Proof.
  intros Hshared Hn Hsize Hvalid Hname Hhs.
  assert (0 < itemsize (arr_dtype a)) as Hpos by (destruct (arr_dtype a); simpl; lia).
  eexists. split.
  - unfold init_cache_field. rewrite Hshared. rewrite runM_bind.
    fold (region_name ds0 k).
    rewrite create_or_attach_fresh by (done || unfold nbytes; nia).
    cbn beta iota. rewrite runM_bind. unfold append_shm. go. rewrite Hhs. go.
    unfold frombuffer_reshape. go. rewrite block_bytes_new.
    rewrite length_replicate.
    rewrite decide_True.
    + go. reflexivity.
    + unfold nbytes. change (prod_shape (n :: arr_shape a)) with (n * size a).
      replace (size a * itemsize (arr_dtype a) * n)
        with (n * size a * itemsize (arr_dtype a)) by lia.
      split; [apply Nat.Div0.mod_mul|apply Nat.div_mul; lia].
  - cbn [shm_names block_zero shm_blocks]. split; [done|]. split; [|split].
    + rewrite length_alter, length_app. simpl. lia.
    + change (mk_store ?n (alter ?f ?b ?l)) with (block_zero b (mk_store n l)).
      cbn [shm_block].
      rewrite block_bytes_zero_eq, length_replicate, block_bytes_new,
        length_replicate. lia.
    + intros b Hb.
      change (mk_store ?n (alter ?f ?b ?l)) with (block_zero b (mk_store n l)).
      cbn [shm_block]. rewrite block_bytes_zero_ne by lia.
      by rewrite block_bytes_old.
Qed.

Lemma fits_entry_grow n (st st' : shm_store) (es : dict cache_array)
    (fs : sample) :
  (∀ b, b ∈ entry_blocks es →
     length (block_bytes st' b) = length (block_bytes st b)) →
  Forall2 (fits_entry n st) es fs → Forall2 (fits_entry n st') es fs.
Proof.
  intros Hkept Hfits. induction Hfits as [|e f es fs Hf _ IH]; constructor.
  - destruct e as [k [b d [|m s]|a0|items]], f as [k' [a| | |]]; try done.
    cbn [fits_entry] in *. rewrite Hkept; [done|]. by left.
  - apply IH. intros b Hb. apply Hkept.
    destruct e as [k [b' d s|a0|items]]; [by right|done|done].
Qed.

(** The loop of [init_cache] over a sample of arrays none of whose
    regions exists yet: every field gets a fresh block of its own. *)
Lemma init_cache_fields_fresh (ds0 : dataset) n (fields : sample) :
  cache_with_shared_array ds0 = true →
  0 < n →
  ∀ (shared : dict cache_array) (w : world) hs,
  Forall cacheable fields →
  NoDup (region_name ds0 <$> fields.*1) →
  (∀ k, k ∈ fields.*1 → name_ok (region_name ds0 k) = true) →
  (∀ k, k ∈ fields.*1 → shm_names (shm w) !! region_name ds0 k = None) →
  (∀ k, k ∈ fields.*1 → k ∉ shared.*1) →
  shms (self w) = Some hs →
  ∃ w' new hs',
    runM (fold_each fields shared (init_cache_field name_ok fresh ds0 n)) w
      = (w', Ok (shared ++ new))
    ∧ self w' = set_shms (Some hs') (self w)
    ∧ new.*1 = fields.*1
    ∧ entry_blocks new = seq (length (shm_blocks (shm w))) (length fields)
    ∧ Forall2 (fits_entry n (shm w')) new fields
    ∧ length (shm_blocks (shm w'))
      = length (shm_blocks (shm w)) + length fields
    ∧ ∀ b, b < length (shm_blocks (shm w)) →
        block_bytes (shm w') b = block_bytes (shm w) b.
Proof.
  intros Hshared Hn. induction fields as [|[k v] fields IH];
    intros shared w hs Hok Hnames Hvalid Habsent Hkeys Hhs.
  - exists w, [], hs. cbn [fold_each]. runm. rewrite app_nil_r.
    repeat split; try done; try (simpl; lia).
    destruct (self w). simpl in *. by subst.
  - apply Forall_cons in Hok as [Hv Hok].
    destruct v as [a| | |]; try done. destruct Hv as (Hnd & Hwf & Hsize).
    rewrite !fmap_cons in Hnames. apply NoDup_cons in Hnames as [Hname Hnames].
    rewrite fmap_cons in Hvalid, Habsent, Hkeys.
    cbn [fst] in Hname, Hvalid, Habsent, Hkeys.
    destruct (init_cache_field_fresh ds0 n k a shared w hs)
      as (st1 & Hrun1 & Hnames1 & Hlen1 & Hblock1 & Hold1); try done.
    { apply Hvalid. by left. }
    { apply Habsent. by left. }
    set (b := length (shm_blocks (shm w))) in *.
    rewrite dict_set_fresh in Hrun1 by (apply Hkeys; by left).
    destruct (IH (shared ++ [(k, InShm b (arr_dtype a) (n :: arr_shape a))])
                (mk_world (set_shms (Some (hs ++ [mk_shm (region_name ds0 k) b false]))
                             (self w)) st1)
                (hs ++ [mk_shm (region_name ds0 k) b false])) as
      (w' & new & hs' & Hrun & Hself & Hk & Hb & Hfits & Hlen & Hold);
      [done|done| | | |done|].
    { intros k' Hk'. apply Hvalid. by right. }
    { intros k' Hk'. cbn [shm]. rewrite Hnames1.
      rewrite lookup_insert_ne.
      - apply Habsent. by right.
      - intros Heq. apply Hname. rewrite Heq.
        apply list_elem_of_fmap. by exists k'. }
    { intros k' Hk'. rewrite fmap_app. intros [Hin|Hin]%elem_of_app.
      - revert Hin. apply Hkeys. by right.
      - apply list_elem_of_singleton in Hin. simpl in Hin. subst k'.
        apply Hname. apply list_elem_of_fmap. by exists k. }
    exists w', ((k, InShm b (arr_dtype a) (n :: arr_shape a)) :: new), hs'. cbn [shm self] in *.
    split; [|split; [|split; [|split; [|split; [|split]]]]].
    + cbn [fold_each]. rewrite runM_bind, Hrun1. cbn beta iota. rewrite Hrun.
      by rewrite <- app_assoc.
    + rewrite Hself. by destruct (self w).
    + by rewrite !fmap_cons, Hk.
    + change (entry_blocks ((k, InShm b (arr_dtype a) (n :: arr_shape a)) :: new)) with (b :: entry_blocks new).
      rewrite Hb, Hlen1. done.
    + constructor; [|done]. cbn [fits_entry].
      rewrite Hold by lia. rewrite Hblock1. destruct Hwf. by repeat split.
    + rewrite Hlen, Hlen1. simpl. lia.
    + intros b' Hb'. rewrite Hold by lia. by apply Hold1.
Qed.

Lemma load_files_ext (ds ds' : dataset) item (files : dict (list string))
    (inputs : sample) :
  (∀ p, load_file imread resize pad missing ds p
        = load_file imread resize pad missing ds' p) →
  load_files imread resize pad missing ds item files inputs
  = load_files imread resize pad missing ds' item files inputs.
Proof.
  intros Hfile. revert inputs. induction files as [|[k l] files IH];
    intros inputs; [done|].
  cbn [load_files]. destruct (getitem l item) as [p|]; [|done].
  cbn. rewrite Hfile. destruct (load_file _ _ _ _ ds' p); [|done]. cbn. apply IH.
Qed.

(** What [load_image] reads of the dataset. *)
Lemma load_image_ext (ds ds' : dataset) item :
  shape ds' = shape ds →
  auto_pad ds' = auto_pad ds →
  auto_resize ds' = auto_resize ds →
  flag ds' = flag ds →
  filling_strategy ds' = filling_strategy ds →
  gt_column ds' = gt_column ds →
  img_filepath ds' = img_filepath ds →
  gts ds' = gts ds →
  load_image imread resize pad missing ds' item
  = load_image imread resize pad missing ds item.
Proof.
  intros Hshape Hpad Hresize Hflag Hfill Hgt Hfiles Hgts.
  assert (∀ p, load_file imread resize pad missing ds' p
               = load_file imread resize pad missing ds p) as Hfile.
  { intros p. unfold load_file, resize_and_pad.
    by rewrite Hshape, Hpad, Hresize, Hflag, Hfill. }
  unfold load_image, ClassificationDataset_load_image,
    AbstractImageDataset_load_image.
  rewrite Hgt, Hfiles, Hgts.
  by rewrite (load_files_ext ds' ds).
Qed.

(** On a dataset whose regions do not exist yet and have names that the
    platform accepts, [init_cache] creates them: the process becomes the first process, the bitmap is a block of
    one zero byte for each item, and every field of the first sample gets
    a view of a block of its own in which each item has its place.  What
    [load_image] and [precompose_data] read of the dataset is left as it
    was. *)
Theorem init_cache_creates_views (ds : dataset) (st : shm_store)
    (files : list string) (loaded : sample) :
  cache_initialized ds = false →
  cache_with_shared_array ds = true →
  Dict.get "image" (img_filepath ds) = Some files →
  0 < length files →
  load_image imread resize pad missing ds 0 = Ok loaded →
  Forall cacheable (precompose_data ds loaded) →
  NoDup (bitmap_name ds :: (region_name ds <$> (precompose_data ds loaded).*1)) →
  (∀ x, x ∈ bitmap_name ds :: (region_name ds <$> (precompose_data ds loaded).*1) →
     name_ok x = true) →
  (∀ x, x ∈ bitmap_name ds :: (region_name ds <$> (precompose_data ds loaded).*1) →
     shm_names st !! x = None) →
  ∃ ds' st',
    runM (init_cache name_ok fresh imread resize pad missing) (mk_world ds st)
      = (mk_world ds' st', Ok ())
    ∧ use_cache ds' = true
    ∧ cache_initialized ds' = true
    ∧ _is_first_process ds' = true
    ∧ _cache_items ds' = Some (length (shm_blocks st))
    ∧ block_bytes st' (length (shm_blocks st)) = replicate (length files) 0%Z
    ∧ NoDup (shared_arrays ds').*1
    ∧ NoDup (length (shm_blocks st) :: entry_blocks (shared_arrays ds'))
    ∧ Forall2 (fits_entry (length files) st') (shared_arrays ds')
        (precompose_data ds loaded)
    ∧ (∀ item, load_image imread resize pad missing ds' item
               = load_image imread resize pad missing ds item)
    ∧ (∀ data, precompose_data ds' data = precompose_data ds data).
Proof.
  intros Hinit Hshared Hfiles Hn Hload Hok Hnames Hvalid Habsent.
  set (first := precompose_data ds loaded) in *.
  set (b0 := length (shm_blocks st)).
  apply NoDup_cons in Hnames as [Hbitmap Hnames].
  set (h0 := mk_shm (bitmap_name ds) b0 false).
  set (st0 := block_zero b0
                (mk_store (<[bitmap_name ds := b0]> (shm_names st))
                   (shm_blocks st ++ [replicate (length files) 0%Z]))).
  set (ds0 := set_cache_items (Some b0)
                (set_shms (Some ([] ++ [h0]))
                   (set_is_first_process true
                      (set_shms (Some []) (set_use_cache true ds))))).
  destruct (init_cache_fields_fresh (set_use_cache true ds) (length files) first
              Hshared Hn [] (mk_world ds0 st0) ([] ++ [h0]))
    as (w' & new & hs' & Hrun & Hself & Hk & Hb & Hfits & Hlen & Hold).
  { done. }
  { done. }
  { intros k Hk. apply Hvalid. right. apply list_elem_of_fmap. by exists k. }
  { intros k Hk. cbn [shm st0 block_zero shm_names].
    rewrite lookup_insert_ne.
    - apply Habsent. right. apply list_elem_of_fmap. by exists k.
    - intros Heq. apply Hbitmap. rewrite Heq.
      apply list_elem_of_fmap. by exists k. }
  { intros k _. apply not_elem_of_nil. }
  { done. }
  destruct w' as [ds1 st1]. cbn [self shm] in *.
  exists (set_cache_initialized true (set_shared_arrays new ds1)), st1.
  assert (length (shm_blocks st0) = S b0) as Hlen0.
  { subst st0. cbn [block_zero shm_blocks].
    rewrite length_alter, length_app. simpl. lia. }
  split; [|split; [|split; [|split; [|split; [|split; [|split;
    [|split; [|split; [|split]]]]]]]]].
  - unfold init_cache. go. attrs. rewrite Hinit. go.
    rewrite (load_image_ext ds) by done. rewrite Hload. go.
    unfold real_length. go. unfold dict_getitem. attrs. rewrite Hfiles. go.
    rewrite Hshared. go.
    fold (bitmap_name ds).
    rewrite create_or_attach_fresh
      by (done || (apply Hvalid; by left) || (apply Habsent; by left)).
    cbn beta iota. go. unfold append_shm. go. attrs. go.
    cbn [shm_block].
    change (precompose_data (set_use_cache true ds) loaded) with first.
    fold b0 h0 st0 ds0. by rewrite Hrun.
  - rewrite Hself. subst ds0. by destruct ds.
  - rewrite Hself. subst ds0. by destruct ds.
  - rewrite Hself. subst ds0. by destruct ds.
  - rewrite Hself. subst ds0. by destruct ds.
  - rewrite Hold by lia. subst st0.
    rewrite block_bytes_zero_eq, block_bytes_new. by rewrite length_replicate.
  - attrs. rewrite Hk. eapply NoDup_fmap_1. exact Hnames.
  - attrs. rewrite Hb, Hlen0. apply NoDup_cons. split.
    + intros Hin%elem_of_seq. lia.
    + apply NoDup_seq.
  - attrs. done.
  - intros item. apply load_image_ext; rewrite Hself; subst ds0; by destruct ds.
  - intros data. unfold precompose_data. rewrite Hself. subst ds0. by destruct ds.
Qed.
End init_fresh.

Lemma init_cache_creates_views_witness :
  ∃ ds' st',
    runM (init_cache Ex.name_ok Ex.fresh Ex.imread Ex.keep Ex.keep "")
         (mk_world (Ex.images true) Ex.no_shm)
      = (mk_world ds' st', Ok ())
    ∧ use_cache ds' = true
    ∧ cache_initialized ds' = true
    ∧ _is_first_process ds' = true
    ∧ _cache_items ds' = Some (length (shm_blocks Ex.no_shm))
    ∧ block_bytes st' (length (shm_blocks Ex.no_shm))
      = replicate (length ["a.png"; "b.png"]) 0%Z
    ∧ NoDup (shared_arrays ds').*1
    ∧ NoDup (length (shm_blocks Ex.no_shm) :: entry_blocks (shared_arrays ds'))
    ∧ Forall2 (fits_entry (length ["a.png"; "b.png"]) st') (shared_arrays ds')
        (precompose_data (Ex.images true) [("image", Array Ex.img_a)])
    ∧ (∀ item, load_image Ex.imread Ex.keep Ex.keep "" ds' item
               = load_image Ex.imread Ex.keep Ex.keep "" (Ex.images true) item)
    ∧ (∀ data, precompose_data ds' data = precompose_data (Ex.images true) data).
Proof.
  apply (init_cache_creates_views Ex.name_ok Ex.fresh Ex.imread Ex.keep Ex.keep ""
           (Ex.images true) Ex.no_shm ["a.png"; "b.png"]
           [("image", Array Ex.img_a)]).
  - reflexivity.
  - reflexivity.
  - reflexivity.
  - simpl. lia.
  - vm_compute. reflexivity.
  - vm_compute. repeat constructor; discriminate.
  - apply (bool_decide_unpack _). vm_compute. exact I.
  - intros x Hx. apply elem_of_cons in Hx as [->|Hx]; [vm_compute; reflexivity|].
    apply list_elem_of_singleton in Hx as ->. vm_compute. reflexivity.
  - intros x _. apply lookup_empty.
Defined.

(** ** Keys left out of the samples *)

Section ignore_facts.
Variable bo : byteorder.
Variable cast : dtype → dtype → Z → Z.
Variable name_ok : string → bool.
Variable fresh : string → nat → list value.
Variable imread : imread_flag → string → option ndarray.
Variable resize pad : option (nat * nat) → ndarray → ndarray.
Variable missing : string.

Lemma on_shm_self {A} (m : M shm_store A) (w w' : world) r :
  runM (on_shm m) w = (w', r) → self w' = self w.
Proof.
  unfold on_shm; cbn [runM]. destruct (runM m (shm w)). by intros [= <- _].
Qed.

Lemma append_shm_ignore_keys h (w w' : world) r :
  runM (append_shm h) w = (w', r) →
  ignore_keys (self w') = ignore_keys (self w).
Proof.
  unfold append_shm. intros Hrun.
  inv_any Hrun w1 l E1; prim E1; simplify_eq.
  destruct (shms (self w1)); prim Hrun; by injection Hrun as <- _.
Qed.

Lemma init_cache_field_ignore_keys ds nb shared field (w w' : world) r :
  runM (init_cache_field name_ok fresh ds nb shared field) w = (w', r) →
  ignore_keys (self w') = ignore_keys (self w).
Proof.
  destruct field as [key arr]. unfold init_cache_field.
  destruct arr as [a| | |]; try (intros Hrun; prim Hrun; by injection Hrun as <- _).
  destruct (cache_with_shared_array ds);
    [|intros Hrun; prim Hrun; by injection Hrun as <- _].
  intros Hrun.
  inv_any Hrun w1 hc E1; apply on_shm_self in E1 as Hself1;
    [|injection Hrun as <- _; by rewrite Hself1].
  destruct hc as [h created].
  inv_any Hrun w2 u2 E2; apply append_shm_ignore_keys in E2 as Hself2;
    [|injection Hrun as <- _; by rewrite Hself2, Hself1].
  inv_any Hrun w3 sa E3.
  - assert (w3 = w2) as ->.
    { revert E3. unfold frombuffer_reshape. rewrite runM_bind. runm.
      destruct (decide _); runm; by intros [= <- _]. }
    inv_any Hrun w4 u4 E4; apply on_shm_self in E4 as Hself4.
    + prim Hrun. injection Hrun as <- _. by rewrite Hself4, Hself2, Hself1.
    + injection Hrun as <- _. by rewrite Hself4, Hself2, Hself1.
  - assert (w3 = w2) as ->.
    { revert E3. unfold frombuffer_reshape. rewrite runM_bind. runm.
      destruct (decide _); runm; by intros [= <- _]. }
    injection Hrun as <- _. by rewrite Hself2, Hself1.
Qed.

Lemma init_cache_fields_ignore_keys ds nb (arrays : sample) shared
    (w w' : world) r :
  runM (fold_each arrays shared (init_cache_field name_ok fresh ds nb)) w = (w', r) →
  ignore_keys (self w') = ignore_keys (self w).
Proof.
  revert shared w. induction arrays as [|field arrays IH]; intros shared w Hrun.
  - cbn [fold_each] in Hrun. prim Hrun. by injection Hrun as <- _.
  - cbn [fold_each] in Hrun.
    inv_any Hrun w1 shared1 E1; apply init_cache_field_ignore_keys in E1 as H1.
    + apply IH in Hrun. congruence.
    + injection Hrun as <- _. done.
Qed.

Lemma init_cache_ignore_keys (w w' : world) r :
  runM (init_cache name_ok fresh imread resize pad missing) w = (w', r) →
  ignore_keys (self w') = ignore_keys (self w).
Proof.
  intros Hrun. unfold init_cache in Hrun. destruct w as [ds st]; cbn [self] in *.
  inv_any Hrun w1 u E1; prim E1; simplify_eq.
  inv_any Hrun w2 i E2; prim E2; simplify_eq. attrs.
  destruct (cache_initialized ds); [prim Hrun; by injection Hrun as <- _|].
  inv_any Hrun w3 ds' E3; prim E3; simplify_eq.
  inv_any Hrun w4 arrays E4; prim E4; injection E4 as <- E4;
    [|by injection Hrun as <- _].
  inv_any Hrun w5 nb E5; apply real_length_state in E5 as ->;
    [|by injection Hrun as <- _].
  inv_any Hrun w6 u6 E6; prim E6; [injection E6 as E6 _|discriminate].
  attrs.
  assert (ignore_keys (self w6) = ignore_keys ds) as Hself6 by (by subst w6).
  clear E6.
  inv_any Hrun w7 u7 E7.
  - assert (ignore_keys (self w7) = ignore_keys ds) as Hself7.
    { destruct (cache_with_shared_array ds);
        [|prim E7; injection E7 as <-; done].
      inv_any E7 w8 hc E8; apply on_shm_self in E8 as Hself8; [|discriminate].
      destruct hc as [h created].
      inv_any E7 w9 u9 E9; prim E9; simplify_eq.
      inv_any E7 w10 u10 E10; apply append_shm_ignore_keys in E10 as Hself10;
        [|discriminate].
      inv_any E7 w11 u11 E11; prim E11; simplify_eq.
      prim E7. injection E7 as <-. cbn [self]. attrs.
      rewrite Hself10. attrs. by rewrite Hself8. }
    inv_any Hrun w12 shared E12; apply init_cache_fields_ignore_keys in E12 as H12;
      [|injection Hrun as <- _; congruence].
    inv_any Hrun w13 u13 E13; prim E13; simplify_eq.
    prim Hrun. injection Hrun as <- _. attrs. congruence.
  - injection Hrun as <- _.
    destruct (cache_with_shared_array ds); [|prim E7; discriminate].
    inv_any E7 w8 hc E8; apply on_shm_self in E8 as Hself8;
      [|injection E7 as <- _; by rewrite Hself8].
    destruct hc as [h created].
    inv_any E7 w9 u9 E9; prim E9; simplify_eq.
    inv_any E7 w10 u10 E10; apply append_shm_ignore_keys in E10 as Hself10;
      [|injection E7 as <- _; rewrite Hself10; attrs; by rewrite Hself8].
    inv_any E7 w11 u11 E11; prim E11; simplify_eq.
Qed.

Lemma write_item_ignore_keys k item n value (w w' : world) r :
  runM (write_item bo cast k item n value) w = (w', r) →
  ignore_keys (self w') = ignore_keys (self w).
Proof.
  intros Hrun. unfold write_item in Hrun.
  inv_any Hrun w1 arrays E1; prim E1; simplify_eq.
  inv_any Hrun w2 target E2; prim E2; injection E2 as <- E2;
    [|by injection Hrun as <- _].
  destruct (match target with
            | InShm _ d s => (d, s)
            | InProcess a => (arr_dtype a, arr_shape a)
            | InProcessItems items => (int64, [length items])
            end) as [d s].
  destruct s as [|m rest]; [prim Hrun; by injection Hrun as <- _|].
  destruct (decide (n ≤ length rest)); [|prim Hrun; by injection Hrun as <- _].
  destruct (py_index m item) as [i|]; [|prim Hrun; by injection Hrun as <- _].
  inv_any Hrun w3 xs E3; prim E3; injection E3 as <- E3;
    [|by injection Hrun as <- _].
  destruct target as [b' d' s'|a|items]; prim Hrun; by injection Hrun as <- _.
Qed.

Lemma store_field_ignore_keys item field (w w' : world) r :
  runM (store_field bo cast item field) w = (w', r) →
  ignore_keys (self w') = ignore_keys (self w).
Proof.
  destruct field as [k array]. intros E. unfold store_field in E.
  inv_any E w2 nd E2; prim E2; injection E2 as <- E2;
    [|by injection E as <- _].
  inv_any E w3 v E3; prim E3; injection E3 as <- E3;
    [|by injection E as <- _].
  by eapply write_item_ignore_keys.
Qed.

Lemma cache_items_set_self item (w w' : world) r :
  runM (cache_items_set item) w = (w', r) → self w' = self w.
Proof.
  intros E. unfold cache_items_set in E.
  inv_any E w9 vw E9; prim E9; simplify_eq.
  destruct (_cache_items (self w9)); [|prim E; by injection E as <- _].
  inv_any E w10 bytes E10; prim E10; simplify_eq.
  destruct (py_index _ item); prim E; by injection E as <- _.
Qed.

Lemma store_fields_ignore_keys item (arrays : sample) (w w' : world) r :
  runM (for_each arrays (store_field bo cast item)) w = (w', r) →
  ignore_keys (self w') = ignore_keys (self w).
Proof.
  revert w. induction arrays as [|[k array] arrays IH]; intros w Hrun.
  - cbn [for_each] in Hrun. prim Hrun. by injection Hrun as <- _.
  - cbn [for_each] in Hrun.
    inv_any Hrun w1 u E1; apply store_field_ignore_keys in E1.
    + apply IH in Hrun. congruence.
    + by injection Hrun as <- _.
Qed.

Lemma load_array_ignore_keys item (w w' : world) r :
  runM (load_array bo cast name_ok fresh imread resize pad missing item) w = (w', r) →
  ignore_keys (self w') = ignore_keys (self w).
Proof.
  intros Hrun. unfold load_array in Hrun.
  inv_any Hrun w1 cached E1; prim E1; simplify_eq.
  destruct (use_cache (self w1)); cbn [negb] in Hrun.
  - inv_any Hrun w2 initialized E2; prim E2; simplify_eq.
    inv_any Hrun w3 u E3.
    + assert (ignore_keys (self w3) = ignore_keys (self w2)) as H3.
      { destruct (cache_initialized (self w2)).
        - prim E3. by injection E3 as <-.
        - by eapply init_cache_ignore_keys. }
      inv_any Hrun w4 hit E4; apply cache_items_get_state in E4 as ->;
        [|by injection Hrun as <- _].
      destruct hit.
      * inv_any Hrun w5 arrays E5; prim E5; simplify_eq.
        by apply read_fields_state in Hrun as ->.
      * inv_any Hrun w5 ds E5; prim E5; simplify_eq.
        inv_any Hrun w6 arrays E6; prim E6; injection E6 as <- E6;
          [|by injection Hrun as <- _].
        inv_any Hrun w7 u7 E7; apply store_fields_ignore_keys in E7 as H7;
          [|injection Hrun as <- _; congruence].
        inv_any Hrun w8 u8 E8; apply cache_items_set_self in E8.
        -- prim Hrun. injection Hrun as <- _. congruence.
        -- injection Hrun as <- _. congruence.
    + injection Hrun as <- _.
      destruct (cache_initialized (self w2)); [prim E3; discriminate|].
      by eapply init_cache_ignore_keys.
  - inv_any Hrun w2 ds E2; prim E2; simplify_eq.
    inv_any Hrun w3 data E3; prim E3; injection E3 as <- E3.
    + prim Hrun. by injection Hrun as <- _.
    + by injection Hrun as <- _.
Qed.

(** [filter_data] is the last thing [__getitem__] does: a sample never
    has a key that was in [ignore_keys] when it was asked for, be it a
    field, the index or a tag. *)
Theorem getitem_leaves_out_ignored_keys (w w' : world) (index : Z)
    (return_indices_arg return_tag_arg : bool) (outputs : sample) (k : string) :
  runM (__getitem__ bo cast name_ok fresh imread resize pad missing index
          return_indices_arg return_tag_arg) w = (w', Ok outputs) →
  k ∈ ignore_keys (self w) →
  k ∉ outputs.*1.
Proof.
  intros Hrun Hk. unfold __getitem__ in Hrun.
  inv_bind Hrun w1 l E1.
  pose proof (len_state w) as Hlen. rewrite E1 in Hlen. cbn [fst] in Hlen. subst w1.
  destruct (decide (l ≤ Z.abs index)%Z); [prim Hrun; discriminate|].
  inv_bind Hrun w2 nb E2. apply real_length_state in E2 as ->.
  inv_bind Hrun w3 inputs E3. apply load_array_ignore_keys in E3.
  inv_prim Hrun w4 ds E4. injection E4 as <- <-.
  prim Hrun. injection Hrun as <- <-.
  unfold filter_data. rewrite E3.
  intros ([k' v] & -> & Hin)%list_elem_of_fmap.
  apply list_elem_of_filter in Hin as [Hnot _]. by apply Hnot.
Qed.
End ignore_facts.

Lemma getitem_leaves_out_ignored_keys_witness :
  "image" ∉ [("index", PyInt 0)].*1.
Proof.
  apply (getitem_leaves_out_ignored_keys LittleEndian Ex.no_cast Ex.name_ok Ex.fresh
           Ex.imread Ex.keep Ex.keep ""
           (mk_world (set_ignore_key "image" (Ex.images false)) Ex.no_shm)
           (mk_world (set_ignore_key "image" (Ex.images false)) Ex.no_shm)
           0 true false).
  - vm_compute. reflexivity.
  - vm_compute. left.
Defined.

(** ** Edge cases of the initialization *)

Section init_edge.
Variable name_ok : string → bool.
Variable fresh : string → nat → list value.
Variable imread : imread_flag → string → option ndarray.
Variable resize pad : option (nat * nat) → ndarray → ndarray.
Variable missing : string.

(** The schema of the cache is read off item 0: on a dataset whose first
    field has no file, [init_cache] fails with [IndexError] before it asks
    for any shared memory, and leaves [use_cache] switched on. *)
Theorem init_cache_empty_dataset (ds : dataset) (st : shm_store)
    (k : string) (rest : dict (list string)) :
  cache_initialized ds = false →
  img_filepath ds = (k, []) :: rest →
  runM (init_cache name_ok fresh imread resize pad missing) (mk_world ds st)
  = (mk_world (set_use_cache true ds) st, Raise IndexError).
Proof.
  intros Hinit Hfiles. unfold init_cache. go. attrs. rewrite Hinit. go.
  unfold load_image, ClassificationDataset_load_image,
    AbstractImageDataset_load_image. attrs. rewrite Hfiles.
  by destruct (gt_column ds).
Qed.
End init_edge.

Lemma init_cache_empty_dataset_witness :
  runM (init_cache Ex.name_ok Ex.fresh Ex.imread Ex.keep Ex.keep "")
       (mk_world (set_img_filepath [("image", [])] (Ex.images true)) Ex.no_shm)
  = (mk_world (set_use_cache true (set_img_filepath [("image", [])] (Ex.images true))) Ex.no_shm,
     Raise IndexError).
Proof.
  apply (init_cache_empty_dataset Ex.name_ok Ex.fresh Ex.imread Ex.keep Ex.keep ""
           _ Ex.no_shm "image" []); reflexivity.
Defined.

(** ** Subsets *)

Lemma dict_set_middle {V} k (v v0 : V) (d1 d2 : dict V) :
  k ∉ d1.*1 → Dict.set k v (d1 ++ (k, v0) :: d2) = d1 ++ (k, v) :: d2.
Proof.
  induction d1 as [|[k' v'] d1 IH]; intros Hk; simpl.
  - by rewrite decide_True.
  - rewrite fmap_cons in Hk. apply not_elem_of_cons in Hk as [Hne Hk].
    rewrite decide_False by done. by rewrite IH.
Qed.

Lemma take_indices_length {A} (files : list A) (indices : list Z) files' :
  take_indices files indices = Ok files' → length files' = length indices.
Proof.
  revert files'. induction indices as [|i indices IH]; intros files'; simpl.
  - by intros [= <-].
  - destruct (getitem files i) as [x|]; [|done]. cbn.
    destruct (take_indices files indices) as [xs|]; [|done]. cbn.
    intros [= <-]. simpl. by rewrite (IH xs).
Qed.

Section subset_facts.
Context {V : Type}.
Variable get : dataset → dict (list V).
Variable set : dict (list V) → dataset → dataset.
Hypothesis get_set : ∀ x ds, get (set x ds) = x.

(** The loop of [subset] over one of the two dictionaries: every list is
    replaced by its selection, under its key and at its place. *)
Lemma subset_loop (indices : list Z) {B} (other : dataset → B) :
  (∀ x ds, other (set x ds) = other ds) →
  ∀ (l pre : dict (list V)) (ds : dataset) (st : shm_store) (w' : world),
  get ds = pre ++ l →
  NoDup (pre ++ l).*1 →
  runM (for_each l (λ '(k, files),
          files' ← lift (take_indices files indices);
          update_self (λ ds, set (Dict.set k files' (get ds)) ds)))
       (mk_world ds st) = (w', Ok ()) →
  ∃ l',
    Forall2 (λ old new, new.1 = old.1 ∧ take_indices old.2 indices = Ok new.2) l l'
    ∧ get (self w') = pre ++ l'
    ∧ other (self w') = other ds
    ∧ shm w' = st.
Proof.
  intros Hother. induction l as [|[k files] l IH]; intros pre ds st w' Hget Hdup Hrun.
  - cbn [for_each] in Hrun. prim Hrun. injection Hrun as <-.
    exists []. by repeat split.
  - cbn [for_each] in Hrun. inv_bind Hrun w1 u E1.
    inv_any E1 w2 files' E2; prim E2; injection E2 as <- E2; [|discriminate].
    prim E1. injection E1 as <-. cbn [self shm] in Hrun.
    rewrite Hget, dict_set_middle in Hrun.
    + apply (IH (pre ++ [(k, files')])) in Hrun as (l' & Hl' & Hget' & Hother' & Hshm).
      * exists ((k, files') :: l'). repeat split; try done.
        -- by constructor.
        -- by rewrite Hget', <- app_assoc.
        -- by rewrite Hother', Hother.
      * by rewrite get_set, <- app_assoc.
      * by rewrite <- app_assoc, !fmap_app, !fmap_cons in *.
    + rewrite fmap_app, fmap_cons in Hdup.
      apply NoDup_app in Hdup as (_ & Hdisj & _).
      intros Hin. apply (Hdisj k Hin). by left.
Qed.
End subset_facts.

(** [subset] replaces the list of every field, images and ground truths
    alike, by its selection at the indices, and touches nothing else; the
    dataset then has as many items as there are indices. *)
Theorem subset_selects (ds : dataset) (st : shm_store) (indices : list Z)
    (w' : world) :
  NoDup (img_filepath ds).*1 →
  NoDup (gts ds).*1 →
  runM (subset indices) (mk_world ds st) = (w', Ok ()) →
  Forall2 (λ old new, new.1 = old.1 ∧ take_indices old.2 indices = Ok new.2)
    (img_filepath ds) (img_filepath (self w'))
  ∧ Forall2 (λ old new, new.1 = old.1 ∧ take_indices old.2 indices = Ok new.2)
      (gts ds) (gts (self w'))
  ∧ shm w' = st
  ∧ (is_Some (Dict.get "image" (img_filepath ds)) →
     runM real_length w' = (w', Ok (length indices))).
Proof.
  intros Hfiles Hgts Hrun. unfold subset in Hrun.
  inv_prim Hrun w1 files E1. injection E1 as <- <-. cbn [self] in Hrun.
  inv_bind Hrun w2 u2 E2. destruct u2.
  destruct (subset_loop img_filepath set_img_filepath (λ x ds, eq_refl) indices gts
              (λ x ds, eq_refl) (img_filepath ds) [] ds st w2 eq_refl Hfiles E2)
    as (files' & Hsel & Hget & Hother & Hshm).
  inv_prim Hrun w3 tables E3. injection E3 as <- <-.
  destruct w2 as [ds2 st2]. cbn [self shm] in *. subst st2.
  assert (NoDup ([] ++ gts ds2).*1) as Hgts2 by (by rewrite Hother).
  destruct (subset_loop gts set_gts (λ x ds, eq_refl) indices img_filepath
              (λ x ds, eq_refl) (gts ds2) [] ds2 st w' eq_refl Hgts2 Hrun)
    as (tables' & Hsel' & Hget' & Hother' & Hshm').
  cbn [app] in *. rewrite Hother', Hget, Hget', <- Hother.
  repeat split; try done.
  intros [image Himage]. unfold real_length. go.
  rewrite Hother', Hget. unfold dict_getitem.
  clear -Hsel Himage. revert Himage.
  induction Hsel as [|[k old] [k' new] l l' [Hk Hnew] _ IH]; [done|].
  cbn [fst snd] in *. subst k'. simpl.
  destruct (decide ("image" = k)) as [<-|Hne].
  - intros _. go. by rewrite (take_indices_length old indices new).
  - done.
Qed.

Lemma subset_selects_witness :
  Forall2 (λ old new, new.1 = old.1 ∧ take_indices old.2 [1; 1; 0]%Z = Ok new.2)
    (img_filepath Ex.labelled)
    (img_filepath (self (runM (subset [1; 1; 0]%Z) (mk_world Ex.labelled Ex.no_shm)).1))
  ∧ Forall2 (λ old new, new.1 = old.1 ∧ take_indices old.2 [1; 1; 0]%Z = Ok new.2)
      (gts Ex.labelled)
      (gts (self (runM (subset [1; 1; 0]%Z) (mk_world Ex.labelled Ex.no_shm)).1))
  ∧ shm (runM (subset [1; 1; 0]%Z) (mk_world Ex.labelled Ex.no_shm)).1 = Ex.no_shm
  ∧ (is_Some (Dict.get "image" (img_filepath Ex.labelled)) →
     runM real_length (runM (subset [1; 1; 0]%Z) (mk_world Ex.labelled Ex.no_shm)).1
     = ((runM (subset [1; 1; 0]%Z) (mk_world Ex.labelled Ex.no_shm)).1,
        Ok (length [1; 1; 0]%Z))).
Proof.
  apply (subset_selects Ex.labelled Ex.no_shm [1; 1; 0]%Z).
  - apply (bool_decide_unpack _). vm_compute. exact I.
  - apply (bool_decide_unpack _). vm_compute. exact I.
  - vm_compute. reflexivity.
Defined.

(** ** The disk cache: what a miss leaves on the disk *)

Lemma with_suffix_snoc (folder : path) (name suffix : string) :
  with_suffix (folder ++ [name]) suffix
  = name' ← name_with_suffix name suffix; Ok (folder ++ [name']).
Proof.
  unfold with_suffix. rewrite reverse_app. change (reverse [name]) with [name].
  cbn [app].
  destruct (name_with_suffix name suffix) as [name'|]; [|done].
  change (Ok (reverse (name' :: reverse folder)) = Ok (folder ++ [name'])).
  by rewrite reverse_cons, reverse_involutive.
Qed.

Lemma exists_insert (files : filesystem) (p q : path) (f : file) :
  exists_ (<[p := f]> files) q = true ↔ q = p ∨ exists_ files q = true.
Proof.
  unfold exists_. rewrite !bool_decide_eq_true.
  destruct (decide (q = p)) as [->|Hne].
  - rewrite lookup_insert_eq. split; [by left|by eexists].
  - rewrite lookup_insert_ne by done. split; [by right|by intros [?|?]].
Qed.

Ltac primd E :=
  cbn [runM cattr gets update_cache update_fs modify lift mret M_ret raise] in E.

Section complete_facts.
Variable bo : byteorder.
Variable cast : dtype → dtype → Z → Z.
Variable d : dataset.
Variable on_disk_keys : list string.
Variable filename : Z → string → result string.
Variable read_from_disk : Z → result sample.
Variable precompose_data : sample → sample.
Variable save_image : ndarray → path → filesystem → filesystem.

(** What is asked of [save_image]: it leaves a file at the path it is
    given and removes none. *)
Hypothesis save_image_creates :
  ∀ a p files, exists_ (save_image a p files) p = true.
Hypothesis save_image_keeps :
  ∀ a p q files, exists_ files q = true → exists_ (save_image a p files) q = true.

Lemma check_folders_Forall files item (folders : dict Metadata.t) :
  check_folders on_disk_keys filename files item folders = Ok true
  ↔ Forall (λ km, check_folders on_disk_keys filename files item [km] = Ok true)
      folders.
Proof.
  induction folders as [|[k m] folders IH]; [by split|].
  rewrite Forall_cons, <- IH. cbn [check_folders].
  destruct (item_name on_disk_keys filename item k) as [name|]; cbn;
    [|split; [done|by intros [? _]]].
  destruct (if Metadata.is_image m then _ else _) as [p|]; cbn;
    [|split; [done|by intros [? _]]].
  destruct (exists_ files p); [|split; [done|by intros [? _]]].
  split; [by split|by intros [_ ?]].
Qed.

Lemma check_folders_mono files files' item (folders : dict Metadata.t) :
  (∀ q, exists_ files q = true → exists_ files' q = true) →
  check_folders on_disk_keys filename files item folders = Ok true →
  check_folders on_disk_keys filename files' item folders = Ok true.
Proof.
  intros Hmono. induction folders as [|[k m] folders IH]; [done|].
  cbn [check_folders].
  destruct (item_name on_disk_keys filename item k) as [name|]; cbn; [|done].
  destruct (if Metadata.is_image m then _ else _) as [p|]; cbn; [|done].
  destruct (exists_ files p) eqn:Hp; [|done].
  rewrite (Hmono p Hp). apply IH.
Qed.

(** A field that [cache_to_disk] has written is found by [check_cache]
    where it looks for it. *)
Lemma cache_to_disk_creates key v item metadata (w w' : disk_world) :
  Dict.get key (cache_folders (cache w)) = Some metadata →
  runM (cache_to_disk bo cast on_disk_keys filename save_image key v item) w
    = (w', Ok ()) →
  cache w' = cache w
  ∧ (∀ q, exists_ (fs w) q = true → exists_ (fs w') q = true)
  ∧ check_folders on_disk_keys filename (fs w') item [(key, metadata)] = Ok true.
Proof.
  intros Hget Hrun. unfold cache_to_disk in Hrun.
  inv_prim Hrun w1 nm E1. injection E1 as <- E1.
  inv_prim Hrun w2 folders E2. injection E2 as <- <-.
  inv_prim Hrun w3 m E3. injection E3 as <- E3.
  unfold dict_getitem in E3. rewrite Hget in E3. injection E3 as <-.
  cbn [check_folders]. rewrite E1. cbn.
  destruct (Metadata.is_image metadata).
  { inv_prim Hrun w4 a E4. injection E4 as <- E4.
    prim Hrun. injection Hrun as <-. cbn [cache fs].
    repeat split; [by auto|]. cbn. by rewrite save_image_creates. }
  destruct (storable_truth _).
  - inv_prim Hrun w4 dt E4. injection E4 as <- E4.
    inv_prim Hrun w5 a E5. injection E5 as <- E5.
    inv_prim Hrun w6 image E6. injection E6 as <- E6.
    inv_prim Hrun w7 p E7. injection E7 as <- E7.
    prim Hrun. injection Hrun as <-. cbn [cache fs].
    rewrite with_suffix_snoc in E7.
    destruct (name_with_suffix nm ".png") as [name'|]; [|done].
    injection E7 as <-.
    repeat split; [by auto|]. cbn. by rewrite save_image_creates.
  - inv_prim Hrun w4 p E4. injection E4 as <- E4.
    inv_prim Hrun w5 a E5. injection E5 as <- E5.
    prim Hrun. injection Hrun as <-. cbn [cache fs].
    rewrite with_suffix_snoc in E4.
    destruct (name_with_suffix nm ".npy") as [name'|]; [|done].
    injection E4 as <-. unfold np_save.
    repeat split.
    + intros q Hq. apply exists_insert. by right.
    + cbn. rewrite (proj2 (exists_insert _ _ _ _)); [done|by left].
Qed.

Lemma cache_loop_creates (arrays : sample) (items : list string) item :
  ∀ (w w' : disk_world),
  runM (for_each arrays (λ '(k, v),
          if bool_decide (k ∈ items) then mret ()
          else cache_to_disk bo cast on_disk_keys filename save_image k v item)) w
    = (w', Ok ()) →
  cache w' = cache w
  ∧ (∀ q, exists_ (fs w) q = true → exists_ (fs w') q = true)
  ∧ ∀ k metadata, k ∈ arrays.*1 → k ∉ items →
      Dict.get k (cache_folders (cache w)) = Some metadata →
      check_folders on_disk_keys filename (fs w') item [(k, metadata)] = Ok true.
Proof.
  induction arrays as [|[k v] arrays IH]; intros w w' Hrun.
  - cbn [for_each] in Hrun. prim Hrun. injection Hrun as <-.
    repeat split; [done|]. intros k m Hk. by apply elem_of_nil in Hk.
  - cbn [for_each] in Hrun. inv_bind Hrun w1 u E1. destruct u.
    apply IH in Hrun as (Hcache & Hmono & Hall).
    destruct (bool_decide (k ∈ items)) eqn:Hitems.
    + prim E1. injection E1 as <-. repeat split; [done..|].
      intros k' m Hk' Hnot Hget. rewrite fmap_cons in Hk'.
      apply elem_of_cons in Hk' as [->|Hk']; [|by apply Hall].
      apply bool_decide_eq_true in Hitems. by destruct Hnot.
    + assert (∀ m, Dict.get k (cache_folders (cache w)) = Some m →
                cache w1 = cache w
                ∧ (∀ q, exists_ (fs w) q = true → exists_ (fs w1) q = true)
                ∧ check_folders on_disk_keys filename (fs w1) item [(k, m)]
                  = Ok true) as Hstep.
      { intros m Hm. by eapply cache_to_disk_creates. }
      assert (is_Some (Dict.get k (cache_folders (cache w)))) as [m Hm].
      { revert E1. unfold cache_to_disk. rewrite runM_bind. runm.
        destruct (item_name _ _ _ _); runm; [|done].
        unfold dict_getitem. destruct (Dict.get k _); [by eexists|done]. }
      destruct (Hstep m Hm) as (Hcache1 & Hmono1 & Hk).
      repeat split.
      * congruence.
      * auto.
      * intros k' m' Hk' Hnot Hget. rewrite fmap_cons in Hk'.
        destruct (decide (k' = k)) as [->|Hne].
        -- rewrite Hm in Hget. injection Hget as <-.
           by eapply check_folders_mono.
        -- apply elem_of_cons in Hk' as [?|Hk']; [done|].
           apply Hall; [done|done|by rewrite Hcache1].
Qed.

Lemma get_cached_fold_state files item (folders : dict Metadata.t) :
  ∀ (data : sample) (w w' : disk_world) r,
  runM (fold_each folders data (λ data '(k, metadata),
    nm ← lift (item_name on_disk_keys filename item k);
    let filepath := Metadata.cache_folder metadata ++ [nm] in
    if Metadata.is_image metadata then
      image ← lift (read_image (fs_imread files) filepath (Some IMREAD_UNCHANGED));
      mret (Dict.set k (Array image) data)
    else if storable_truth (Metadata.can_be_stored_as_image metadata) then
      p ← lift (with_suffix filepath ".png");
      cached ← lift (read_image (fs_imread files) p (Some IMREAD_UNCHANGED));
      original_dtype ← lift (match Metadata.can_be_stored_as_image metadata with
                             | StoredPacked dt => Ok dt
                             | _ => Raise TypeError
                             end);
      image ← lift (revert_image_to_original_dtype bo cast cached original_dtype);
      mret (Dict.set k (Array image) data)
    else
      p ← lift (with_suffix filepath ".npy");
      array ← lift (np_load files p);
      mret (Dict.set k (Array array) data))) w = (w', r) →
  w' = w.
Proof.
  induction folders as [|[k m] l IH]; intros data w w' r Hrun.
  - cbn [fold_each] in Hrun. primd Hrun. by simplify_eq.
  - cbn [fold_each] in Hrun. rewrite runM_bind in Hrun.
    match type of Hrun with
    | context [runM ?m w] => destruct (runM m w) as [w5 [data'|e]] eqn:E5
    end.
    + assert (w5 = w) as ->; [|by eapply IH].
      revert E5. clear. go.
      destruct (item_name _ _ _ _); go; [|by intros [= <- _]].
      destruct (Metadata.is_image m); go.
      { destruct (read_image _ _ _); go; by intros [= <- _]. }
      destruct (storable_truth _); go.
      * destruct (with_suffix _ _); go; [|by intros [= <- _]].
        destruct (read_image _ _ _); go; [|by intros [= <- _]].
        destruct (Metadata.can_be_stored_as_image m); go;
          try by intros [= <- _].
        destruct (revert_image_to_original_dtype _ _ _ _); go; by intros [= <- _].
      * destruct (with_suffix _ _); go; [|by intros [= <- _]].
        destruct (np_load _ _); go; by intros [= <- _].
    + injection Hrun as <- _.
      revert E5. clear. go.
      destruct (item_name _ _ _ _); go; [|by intros [= <- _]].
      destruct (Metadata.is_image m); go.
      { destruct (read_image _ _ _); go; by intros [= <- _]. }
      destruct (storable_truth _); go.
      * destruct (with_suffix _ _); go; [|by intros [= <- _]].
        destruct (read_image _ _ _); go; [|by intros [= <- _]].
        destruct (Metadata.can_be_stored_as_image m); go;
          try by intros [= <- _].
        destruct (revert_image_to_original_dtype _ _ _ _); go; by intros [= <- _].
      * destruct (with_suffix _ _); go; [|by intros [= <- _]].
        destruct (np_load _ _); go; by intros [= <- _].
Qed.

Lemma get_cached_item_state item (w w' : disk_world) r :
  runM (get_cached_item bo cast d on_disk_keys filename item) w = (w', r) →
  w' = w.
Proof.
  unfold get_cached_item. intros Hrun.
  inv_any Hrun w1 items E1; primd E1; simplify_eq.
  inv_any Hrun w2 data E2; primd E2; [|by simplify_eq].
  injection E2 as <- E2.
  inv_any Hrun w3 folders E3; primd E3; simplify_eq.
  inv_any Hrun w4 files E4; primd E4; simplify_eq.
  by eapply get_cached_fold_state.
Qed.

(** After [cache_item] has returned the sample of an item, the item is
    complete on the disk: [check_cache] finds a file for every cached
    field, whether the files were there before or have just been written.
    (Every cached field is a field of the sample that is not kept in
    memory.) *)
Theorem cache_item_completes (c : DiskCache) (files : filesystem) (item : Z)
    (raw s : sample) (w' : disk_world) :
  NoDup (cache_folders c).*1 →
  read_from_disk item = Ok raw →
  (∀ k, k ∈ (cache_folders c).*1 →
     k ∈ (precompose_data raw).*1 ∧ k ∉ in_memory_items c) →
  runM (cache_item bo cast d on_disk_keys filename read_from_disk
          precompose_data save_image item) (mk_disk_world c files)
    = (w', Ok s) →
  runM (check_cache on_disk_keys filename item) w' = (w', Ok true).
Proof.
  intros Hdup Hraw Hfields Hrun. unfold cache_item in Hrun.
  inv_bind Hrun w1 complete E1.
  assert (w1 = mk_disk_world c files
          ∧ check_folders on_disk_keys filename files item (cache_folders c)
            = Ok complete) as [-> Hcheck].
  { revert E1. unfold check_cache. go. destruct (check_folders _ _ _ _ _); [|done].
    by intros [= <- <-]. }
  destruct complete.
  - apply get_cached_item_state in Hrun as ->. done.
  - unfold recompute in Hrun. rewrite Hraw in Hrun.
    inv_prim Hrun w2 arrays E2. injection E2 as <- <-.
    inv_prim Hrun w3 items E3. injection E3 as <- <-.
    inv_bind Hrun w4 u4 E4. destruct u4.
    apply cache_loop_creates in E4 as (Hcache & Hmono & Hall).
    cbn [cache fs] in *.
    inv_bind Hrun w5 u5 E5.
    prim Hrun. injection Hrun as <- _.
    assert (cache_folders (cache w5) = cache_folders c ∧ fs w5 = fs w4)
      as [Hfolders Hfs].
    { revert E5. unfold mark_cached. rewrite runM_bind. runm.
      destruct (py_index _ item); runm; [|done].
      intros [= <-]. cbn [cache fs]. by rewrite Hcache. }
    unfold check_cache. go. rewrite Hfolders, Hfs.
    rewrite (proj2 (check_folders_Forall (fs w4) item (cache_folders c))); [done|].
    apply Forall_forall. intros [k m] Hin.
    destruct (Hfields k) as [Hk Hmem].
    { apply list_elem_of_fmap. by exists (k, m). }
    apply Hall; [done|done|]. by apply dict_get_elem_of.
Qed.
End complete_facts.

Lemma cache_item_completes_witness :
  runM (check_cache [] Ex.filename 0) Ex.cached = (Ex.cached, Ok true).
Proof.
  apply (cache_item_completes LittleEndian Ex.no_cast Ex.labelled []
           Ex.filename Ex.read_from_disk id Ex.save_image
           (λ a p files, proj2 (exists_insert files p p _) (or_introl eq_refl))
           (λ a p q files H, proj2 (exists_insert files p q _) (or_intror H))
           (cache Ex.disk2) (fs Ex.disk2) 0
           [("image", Array Ex.img_a); ("mask", Array Ex.mask_a);
            ("label", Scalar int64 0)]
           [("image", Array Ex.img_a); ("mask", Array Ex.mask_a);
            ("label", Scalar int64 0)]).
  - apply (bool_decide_unpack _). vm_compute. exact I.
  - reflexivity.
  - intros k Hk. apply (bool_decide_unpack _).
    cbn in Hk. apply elem_of_cons in Hk as [->|Hk];
      [|apply list_elem_of_singleton in Hk as ->]; vm_compute; exact I.
  - vm_compute. reflexivity.
Defined.

(** ** Initialization of the disk cache *)

Section init_disk_facts.
Variable d : dataset.
Variable get_precache_data : Z → result sample.
Variable composer_id : Composition → string.
Variable parse_path : string → path.

Lemma init_folders_loop root (arrays : sample) :
  ∀ (w w' : disk_world),
  runM (for_each arrays (λ '(k, v),
    match v with
    | Array a =>
        update_cache (λ c, set_cache_folders
          (Dict.set k (Metadata.mk (root ++ [k]) (is_image a)
                         (can_be_stored_as_image a))
             (cache_folders c)) c)
    | _ =>
        if Dict.mem k (gts d)
        then update_cache (λ c, set_in_memory_items (in_memory_items c ++ [k]) c)
        else raise AssertionError
    end)) w = (w', Ok ()) →
  is_item_cached (cache w') = is_item_cached (cache w)
  ∧ nb_samples (cache w') = nb_samples (cache w)
  ∧ fs w' = fs w.
Proof.
  induction arrays as [|[k v] arrays IH]; intros w w' Hrun.
  - cbn [for_each] in Hrun. primd Hrun. by simplify_eq.
  - cbn [for_each] in Hrun. inv_bind Hrun w1 u E1.
    apply IH in Hrun as (H1 & H2 & H3). rewrite H1, H2, H3. clear -E1.
    destruct v as [a| | |]; try destruct (Dict.mem k (gts d));
      primd E1; by simplify_eq.
Qed.

Lemma mkdir_loop (folders : dict Metadata.t) :
  ∀ (w w' : disk_world),
  runM (for_each folders (λ '(k, v),
    update_fs (mkdir (length (Metadata.cache_folder v)) (Metadata.cache_folder v))))
    w = (w', Ok ()) →
  cache w' = cache w.
Proof.
  induction folders as [|[k v] folders IH]; intros w w' Hrun.
  - cbn [for_each] in Hrun. primd Hrun. by simplify_eq.
  - cbn [for_each] in Hrun. inv_bind Hrun w1 u E1.
    apply IH in Hrun as ->. primd E1. by simplify_eq.
Qed.

(** [init_cache] of the disk cache flags the items all at once: as
    cached when every cache folder exists and holds as many entries as
    the dataset has samples, whatever their names, and as not cached
    otherwise. *)
Theorem init_cache_disk_flags (c : DiskCache) (files : filesystem)
    (w' : disk_world) :
  is_initialized c = false →
  runM (init_cache_disk d get_precache_data composer_id parse_path)
       (mk_disk_world c files) = (w', Ok ()) →
  is_initialized (cache w') = true
  ∧ is_item_cached (cache w')
    = replicate (nb_samples c) (negb (needs_filling (cache w')))
  ∧ (needs_filling (cache w') = false
     ↔ ∀ k m, (k, m) ∈ cache_folders (cache w') →
         exists_ (fs w') (Metadata.cache_folder m) = true
         ∧ length (iterdir (fs w') (Metadata.cache_folder m)) = nb_samples c).
Proof.
  intros Hinit Hrun. unfold init_cache_disk in Hrun.
  inv_any Hrun w1 i E1; primd E1; simplify_eq. cbn [cache] in Hrun.
  rewrite Hinit in Hrun.
  inv_bind Hrun w2 root E2.
  assert (w2 = mk_disk_world c files) as ->.
  { revert E2. unfold get_cache_folder. clear. go.
    destruct (dict_getitem _ _); go; [|by intros [= <- _]].
    destruct (getitem _ _); go; [|by intros [= <- _]].
    destruct (composer d); go; by intros [= <- _]. }
  clear E2.
  inv_any Hrun w3 u3 E3; primd E3; simplify_eq.
  inv_any Hrun w4 arrays E4; primd E4; simplify_eq.
  inv_any Hrun w5 u5 E5; [|done].
  unfold init_non_shared_items_tracking in E5. primd E5. simplify_eq.
  inv_bind Hrun w6 u6 E6. destruct u6.
  apply init_folders_loop in E6 as (Hbits6 & Hn6 & Hfs6).
  cbn [cache fs is_item_cached nb_samples set_is_item_cached
       set_root_cache_folder] in *.
  inv_any Hrun w7 u7 E7; primd E7; simplify_eq.
  inv_any Hrun w8 folders E8; primd E8; simplify_eq.
  cbn [cache fs cache_folders set_is_item_cached] in *.
  inv_bind Hrun w9 u9 E9. destruct u9.
  apply mkdir_loop in E9 as Hcache9. cbn [cache] in Hcache9.
  inv_bind Hrun w10 needed E10.
  assert (w10 = w9
          ∧ needed = existsb (λ kv,
              let v := Metadata.cache_folder kv.2 in
              negb (exists_ (fs w9) v)
              || negb (bool_decide (length (iterdir (fs w9) v)
                                    = nb_samples (cache w9))))
              (cache_folders (cache w9))) as [-> Hneeded].
  { revert E10. unfold check_if_filling_is_needed. go. by intros [= <- <-]. }
  clear E10.
  inv_any Hrun w11 u11 E11; primd E11; simplify_eq.
  inv_any Hrun w12 u12 E12; primd E12; simplify_eq.
  assert (is_item_cached (cache w9) = replicate (nb_samples c) false
          ∧ nb_samples (cache w9) = nb_samples c) as [Hbits9 Hn9].
  { rewrite Hcache9. cbn [is_item_cached nb_samples set_is_item_cached].
    by rewrite Hbits6, length_replicate. }
  rewrite Hn9 in Hrun. clear E9 Hcache9.
  set (needed := existsb (λ kv : string * Metadata.t,
             let v := Metadata.cache_folder kv.2 in
             negb (exists_ (fs w9) v)
             || negb (bool_decide (length (iterdir (fs w9) v) = nb_samples c)))
          (cache_folders (cache w9))) in *.
  assert (cache_folders (cache w') = cache_folders (cache w9)
          ∧ fs w' = fs w9
          ∧ needs_filling (cache w') = needed
          ∧ is_initialized (cache w') = true
          ∧ is_item_cached (cache w') = replicate (nb_samples c) (negb needed))
    as (Hf & Hfs & Hneed & Hi & Hb).
  { destruct needed; primd Hrun; simplify_eq;
      cbn [cache fs cache_folders needs_filling is_initialized is_item_cached
           set_needs_filling set_is_initialized set_is_item_cached];
      repeat split; try done.
    by rewrite Hbits9, length_replicate. }
  rewrite Hneed.
  split; [done|]. split; [done|].
  rewrite Hf, Hfs. subst needed. rewrite <- not_true_iff_false, existsb_exists.
  split.
  - intros Hnone k m Hin.
    destruct (exists_ (fs w9) (Metadata.cache_folder m)) eqn:Hex.
    + split; [done|].
      destruct (decide (length (iterdir (fs w9) (Metadata.cache_folder m))
                        = nb_samples c)) as [|Hne]; [done|].
      destruct Hnone. exists (k, m). split; [by apply list_elem_of_In|].
      cbn. rewrite Hex. cbn. by rewrite bool_decide_eq_false_2.
    + destruct Hnone. exists (k, m). split; [by apply list_elem_of_In|].
      cbn. by rewrite Hex.
  - intros Hall ([k m] & Hin%list_elem_of_In & Hbad).
    destruct (Hall k m Hin) as [Hex Hlen]. cbn in Hbad.
    rewrite Hex, Hlen in Hbad. cbn in Hbad.
    by rewrite bool_decide_eq_true_2 in Hbad.
Qed.
End init_disk_facts.

Lemma init_cache_disk_flags_witness :
  let w' := (runM Ex.init_cache_disk Ex.new_disk).1 in
  is_initialized (cache w') = true
  ∧ is_item_cached (cache w')
    = replicate (nb_samples (cache Ex.new_disk)) (negb (needs_filling (cache w')))
  ∧ (needs_filling (cache w') = false
     ↔ ∀ k m, (k, m) ∈ cache_folders (cache w') →
         exists_ (fs w') (Metadata.cache_folder m) = true
         ∧ length (iterdir (fs w') (Metadata.cache_folder m))
           = nb_samples (cache Ex.new_disk)).
Proof.
  apply (init_cache_disk_flags Ex.composed Ex.read_from_disk Ex.composer_id
           Ex.parse_path (cache Ex.new_disk) (fs Ex.new_disk)).
  - reflexivity.
  - vm_compute. reflexivity.
Defined.

(** ** Samples of a classification dataset *)

Lemma dict_get_fmap {V W} (f : V → W) k (d : dict V) :
  Dict.get k (prod_map id f <$> d) = f <$> Dict.get k d.
Proof.
  induction d as [|[k' v] d IH]; [done|]. cbn.
  destruct (decide (k = k')); [done|apply IH].
Qed.

Lemma expand_dims2_ndim (v : value) (a : ndarray) :
  expand_dims2 v = Array a → ndim a ≠ 2.
Proof.
  destruct v as [a0| | |]; try done. unfold expand_dims2.
  destruct (decide (ndim a0 = 2)) as [Heq|Hne]; intros [= <-]; [|done].
  unfold ndim in *. cbn. rewrite length_app, Heq. simpl. lia.
Qed.

Lemma load_gts_spec (item : Z) (tables : dict (list value)) :
  ∀ (inputs s : sample),
  load_gts item tables inputs = Ok s →
  (∀ k, k ∉ tables.*1 → Dict.get k s = Dict.get k inputs)
  ∧ (NoDup tables.*1 →
     ∀ k table, (k, table) ∈ tables →
       ∃ v, getitem table item = Ok v ∧ Dict.get k s = Some v).
Proof.
  induction tables as [|[k table] tables IH]; intros inputs s Hrun.
  - injection Hrun as <-. split; [done|]. intros _ k table Hin.
    by apply elem_of_nil in Hin.
  - cbn [load_gts] in Hrun.
    destruct (getitem table item) as [v|] eqn:Hv; [|done]. cbn in Hrun.
    apply IH in Hrun as [Hother Hlabels]. split.
    + intros k' Hk'. rewrite fmap_cons in Hk'.
      apply not_elem_of_cons in Hk' as [Hne Hk'].
      rewrite Hother by done. by apply dict_get_set_ne.
    + rewrite fmap_cons. intros [Hk Hdup]%NoDup_cons k' table' Hin.
      apply elem_of_cons in Hin as [[= -> ->]|Hin]; [|by apply Hlabels].
      exists v. split; [done|]. rewrite Hother by done.
      apply dict_get_set_eq.
Qed.

Section classification.
Variable imread : imread_flag → string → option ndarray.
Variable resize pad : option (nat * nat) → ndarray → ndarray.
Variable missing : string.

(** A sample of a classification dataset holds, under the key of every
    ground truth, the entry of its table for the item; its other fields
    are the images, none of them two-dimensional: a 2-D image has been
    given a channel axis. *)
Theorem classification_sample (ds : dataset) (columns : list string)
    (item : Z) (s : sample) :
  gt_column ds = Some columns →
  NoDup (gts ds).*1 →
  load_image imread resize pad missing ds item = Ok s →
  (∀ k table, (k, table) ∈ gts ds →
     ∃ v, getitem table item = Ok v ∧ Dict.get k s = Some v)
  ∧ (∀ k a, k ∉ (gts ds).*1 → Dict.get k s = Some (Array a) → ndim a ≠ 2).
Proof.
  intros Hcol Hdup Hrun. unfold load_image in Hrun. rewrite Hcol in Hrun.
  unfold ClassificationDataset_load_image in Hrun.
  destruct (AbstractImageDataset_load_image _ _ _ _ _ _) as [inputs|]; [|done].
  cbn in Hrun. apply load_gts_spec in Hrun as [Hother Hlabels].
  split; [by apply Hlabels|].
  intros k a Hk Hget. rewrite Hother, dict_get_fmap in Hget by done.
  destruct (Dict.get k inputs) as [v|]; [|done]. injection Hget as Hv.
  by eapply expand_dims2_ndim.
Qed.
End classification.

Lemma classification_sample_witness :
  (∀ k table, (k, table) ∈ gts Ex.labelled →
     ∃ v, getitem table 1 = Ok v
          ∧ Dict.get k [("image", Array (mk_ndarray uint8 [1; 2; 1] [9; 10]%Z));
                        ("label", Scalar int64 1)] = Some v)
  ∧ (∀ k a, k ∉ (gts Ex.labelled).*1 →
       Dict.get k [("image", Array (mk_ndarray uint8 [1; 2; 1] [9; 10]%Z));
                   ("label", Scalar int64 1)] = Some (Array a) →
       ndim a ≠ 2).
Proof.
  apply (classification_sample Ex.imread Ex.keep Ex.keep "" Ex.labelled ["label"] 1).
  - reflexivity.
  - apply (bool_decide_unpack _). vm_compute. exact I.
  - vm_compute. reflexivity.
Defined.
(** ** The disk cache: a hit after a miss *)

Lemma read_field_ext (bo : byteorder) (cast : dtype → dtype → Z → Z)
    (files files' : filesystem) (m : Metadata.t) (p : path) :
  files' !! p = files !! p →
  read_field bo cast files' m p = read_field bo cast files m p.
Proof.
  intros Hp. unfold read_field, read_image, fs_imread, np_load. by rewrite Hp.
Qed.

Lemma packed_image_length bo d (xs : list Z) :
  packable d = true →
  length (flat_map (packed_pixel bo d) xs)
  = length xs * (if decide (itemsize d = 2) then 3 else 4).
Proof.
  intros Hd. apply flat_map_length_const. intros x. by apply packed_pixel_length.
Qed.

Section hit_facts.
Variable bo : byteorder.
Variable cast : dtype → dtype → Z → Z.
Variable d : dataset.
Variable on_disk_keys : list string.
Variable filename : Z → string → result string.
Variable read_from_disk : Z → result sample.
Variable precompose_data : sample → sample.
Variable save_image : ndarray → path → filesystem → filesystem.

(** What is asked of [save_image]: [read_image] gets back from the file
    the image that was saved, and no other file is touched. *)
Hypothesis save_image_reads :
  ∀ a p files, length (arr_data a) = size a →
    read_image (fs_imread (save_image a p files)) p (Some IMREAD_UNCHANGED) = Ok a.
Hypothesis save_image_others :
  ∀ a p q files, q ≠ p → save_image a p files !! q = files !! q.

(** A field that [cache_to_disk] has written reads back as it was. *)
Lemma cache_to_disk_writes key (a : ndarray) item m (w w' : disk_world) :
  Dict.get key (cache_folders (cache w)) = Some m →
  describes m a →
  wf_ndarray a →
  0 < size a →
  runM (cache_to_disk bo cast on_disk_keys filename save_image key (Array a) item) w
    = (w', Ok ()) →
  ∃ p,
    item_path on_disk_keys filename item key m = Ok p
    ∧ cache w' = cache w
    ∧ read_field bo cast (fs w') m p = Ok a
    ∧ ∀ q, q ≠ p → fs w' !! q = fs w !! q.
Proof.
  intros Hget [Himage Hstore] [Hlen Hfits] Hsize Hrun. unfold cache_to_disk in Hrun.
  inv_any Hrun w1 nm E1; primd E1; [|by simplify_eq]. injection E1 as <- E1.
  inv_any Hrun w2 folders E2; primd E2; simplify_eq.
  inv_any Hrun w3 m' E3; primd E3; [|by simplify_eq]. injection E3 as <- E3.
  unfold dict_getitem in E3. rewrite Hget in E3. injection E3 as <-.
  unfold item_path, read_field. rewrite E1. cbn.
  destruct (Metadata.is_image m) eqn:Him.
  { primd Hrun. cbn in Hrun. injection Hrun as <-. cbn [cache fs].
    eexists. split; [done|]. split; [done|]. split.
    - by apply save_image_reads.
    - intros q Hq. by apply save_image_others. }
  rewrite Hstore in *. unfold can_be_stored_as_image in *.
  rewrite <- Himage in *.
  destruct (packable (arr_dtype a) && bool_decide (ndim a = 2)) eqn:Hpack;
    cbn [storable_truth] in *.
  - apply andb_true_iff in Hpack as [Hd Hnd]. apply bool_decide_eq_true in Hnd.
    destruct a as [dt s xs]; unfold ndim, size in *;
      cbn [arr_shape arr_dtype arr_data value_dtype as_array] in *.
    destruct s as [|h [|w0 [|]]]; try discriminate Hnd.
    inv_any Hrun w4 dt' E4; primd E4; simplify_eq.
    inv_any Hrun w5 a' E5; primd E5; simplify_eq.
    inv_any Hrun w6 image E6; primd E6; [|by simplify_eq]. injection E6 as <- E6.
    inv_any Hrun w7 p E7; primd E7; [|by simplify_eq]. injection E7 as <- E7.
    primd Hrun. injection Hrun as <-. cbn [cache fs].
    rewrite with_suffix_snoc in E7.
    destruct (name_with_suffix nm ".png") as [name'|]; [|done].
    injection E7 as <-. cbn.
    eexists. split; [done|]. split; [done|].
    assert (0 < h ∧ 0 < w0) as [Hh Hw] by (simpl in Hsize; nia).
    assert (length xs = h * w0) as Hxs by (simpl in Hlen; lia).
    rewrite convert_to_image_packed in E6 by done. injection E6 as <-.
    split.
    + rewrite save_image_reads.
      * cbn. by apply revert_packed_image.
      * unfold size. cbn [arr_data arr_shape].
        rewrite packed_image_length by done. rewrite Hxs.
        destruct (decide (itemsize _ = 2)); simpl; lia.
    + intros q Hq. by apply save_image_others.
  - inv_any Hrun w4 p E4; primd E4; [|by simplify_eq]. injection E4 as <- E4.
    primd Hrun. cbn in Hrun. injection Hrun as <-. cbn [cache fs].
    rewrite with_suffix_snoc in E4.
    destruct (name_with_suffix nm ".npy") as [name'|]; [|done].
    injection E4 as <-. cbn. unfold np_save.
    eexists. split; [done|]. split; [done|]. split.
    + unfold np_load. by rewrite lookup_insert_eq.
    + intros q Hq. by rewrite lookup_insert_ne.
Qed.

Lemma item_path_folder item k m p :
  item_path on_disk_keys filename item k m = Ok p →
  ∃ nm, p = Metadata.cache_folder m ++ [nm].
Proof.
  unfold item_path. destruct (item_name _ _ _ _) as [nm|]; [|done]. cbn.
  destruct (Metadata.is_image m); [intros [= <-]; by eexists|].
  destruct (storable_truth _);
    destruct (name_with_suffix nm _) as [nm'|]; try done;
    cbn; intros [= <-]; by eexists.
Qed.

Lemma folders_apart (folders : dict Metadata.t) k k' m m' :
  NoDup (Metadata.cache_folder <$> folders.*2) →
  (k, m) ∈ folders → (k', m') ∈ folders → k ≠ k' →
  Metadata.cache_folder m ≠ Metadata.cache_folder m'.
Proof.
  induction folders as [|[k0 m0] folders IH]; intros Hdup Hin Hin' Hne.
  { by apply elem_of_nil in Hin. }
  rewrite !fmap_cons in Hdup. apply NoDup_cons in Hdup as [Hm0 Hdup].
  cbn [snd] in Hm0.
  assert (∀ k1 m1, (k1, m1) ∈ folders →
            Metadata.cache_folder m1 ∈ Metadata.cache_folder <$> folders.*2)
    as Hmem.
  { intros k1 m1 H1. apply list_elem_of_fmap. exists m1. split; [done|].
    apply list_elem_of_fmap. by exists (k1, m1). }
  apply elem_of_cons in Hin as [[= -> ->]|Hin];
    apply elem_of_cons in Hin' as [[= -> ->]|Hin'].
  - done.
  - intros Heq. apply Hm0. rewrite Heq. by eapply Hmem.
  - intros Heq. apply Hm0. rewrite <- Heq. by eapply Hmem.
  - by apply IH.
Qed.

Lemma get_cached_step files item k m (data : sample) (w : disk_world) :
  runM (nm ← lift (item_name on_disk_keys filename item k);
        let filepath := Metadata.cache_folder m ++ [nm] in
        if Metadata.is_image m then
          image ← lift (read_image (fs_imread files) filepath
                          (Some IMREAD_UNCHANGED));
          mret (Dict.set k (Array image) data)
        else if storable_truth (Metadata.can_be_stored_as_image m) then
          p ← lift (with_suffix filepath ".png");
          cached ← lift (read_image (fs_imread files) p (Some IMREAD_UNCHANGED));
          original_dtype ← lift (match Metadata.can_be_stored_as_image m with
                                 | StoredPacked dt => Ok dt
                                 | _ => Raise TypeError
                                 end);
          image ← lift (revert_image_to_original_dtype bo cast cached
                          original_dtype);
          mret (Dict.set k (Array image) data)
        else
          p ← lift (with_suffix filepath ".npy");
          array ← lift (np_load files p);
          mret (Dict.set k (Array array) data)) w
  = (w, p ← item_path on_disk_keys filename item k m;
        a ← read_field bo cast files m p;
        Ok (Dict.set k (Array a) data)).
Proof.
  unfold item_path, read_field. go.
  destruct (item_name _ _ _ _) as [nm|]; go; [|done]. cbn.
  destruct (Metadata.is_image m); go.
  { cbn. by destruct (read_image _ _ _). }
  destruct (storable_truth _); go; rewrite with_suffix_snoc;
    destruct (name_with_suffix nm _) as [nm'|]; go; try done; cbn.
  - destruct (read_image _ _ _); go; [|done]. cbn.
    destruct (Metadata.can_be_stored_as_image m); go; try done. cbn.
    by destruct (revert_image_to_original_dtype _ _ _ _).
  - by destruct (np_load _ _).
Qed.

Section loops.
Variable item : Z.
Variable arrays : sample.
Variable folders : dict Metadata.t.
Variable items : list string.
Hypothesis arrays_keys : NoDup arrays.*1.
Hypothesis folders_keys : NoDup folders.*1.
Hypothesis folders_distinct : NoDup (Metadata.cache_folder <$> folders.*2).
Hypothesis fields :
  ∀ k m, (k, m) ∈ folders →
    (k ∉ items)
    ∧ (∃ a, (k, Array a) ∈ arrays ∧ describes m a ∧ wf_ndarray a ∧ 0 < size a).

(** The write loop of [cache_item]: the file of each field it has gone
    through reads back as the field, and no other file has changed. *)
Lemma cache_loop_writes (l : sample) :
  ∀ (w w' : disk_world),
  (∀ e, e ∈ l → e ∈ arrays) →
  NoDup l.*1 →
  cache_folders (cache w) = folders →
  runM (for_each l (λ '(k, v),
          if bool_decide (k ∈ items) then mret ()
          else cache_to_disk bo cast on_disk_keys filename save_image k v item)) w
    = (w', Ok ()) →
  cache w' = cache w
  ∧ (∀ q, (∀ k m p, (k, m) ∈ folders → k ∈ l.*1 →
             item_path on_disk_keys filename item k m = Ok p → q ≠ p) →
       fs w' !! q = fs w !! q)
  ∧ ∀ k m, (k, m) ∈ folders → k ∈ l.*1 →
      ∃ p a, item_path on_disk_keys filename item k m = Ok p
             ∧ (k, Array a) ∈ arrays
             ∧ read_field bo cast (fs w') m p = Ok a.
Proof.
  induction l as [|[k v] l IH]; intros w w' Hsub Hdup Hfolders Hrun.
  - cbn [for_each] in Hrun. primd Hrun. injection Hrun as <-.
    split; [done|]. split; [done|]. intros k m _ Hk. by apply elem_of_nil in Hk.
  - cbn [for_each] in Hrun. inv_bind Hrun w1 u E1. destruct u.
    rewrite fmap_cons in Hdup. apply NoDup_cons in Hdup as [Hk Hdup].
    cbn [fst] in Hk.
    destruct (bool_decide (k ∈ items)) eqn:Hitems.
    + primd E1. injection E1 as <-.
      apply IH in Hrun as (Hcache & Hframe & Hall); [|intros e He; apply Hsub; by right|done|done].
      split; [done|]. split.
      * intros q Hq. apply Hframe. intros k' m' p' Hin Hk'. apply Hq; [done|].
        rewrite fmap_cons. by right.
      * intros k' m' Hin Hk'. rewrite fmap_cons in Hk'.
        apply elem_of_cons in Hk' as [->|Hk']; [|by apply Hall].
        apply bool_decide_eq_true in Hitems. by destruct (fields _ _ Hin) as [[] _].
    + assert (is_Some (Dict.get k (cache_folders (cache w)))) as [m Hm].
      { revert E1. unfold cache_to_disk. rewrite runM_bind. runm.
        destruct (item_name _ _ _ _); runm; [|done].
        unfold dict_getitem. destruct (Dict.get k _); [by eexists|done]. }
      assert ((k, m) ∈ folders) as Hin.
      { rewrite <- Hfolders. apply dict_getitem_elem_of.
        unfold dict_getitem. by rewrite Hm. }
      destruct (fields _ _ Hin) as (_ & a & Ha & Hdesc & Hwf & Hsize).
      assert (v = Array a) as ->.
      { assert ((k, v) ∈ arrays) as Hv by (apply Hsub; by left).
        apply dict_get_elem_of in Hv, Ha; try done. congruence. }
      apply (cache_to_disk_writes k a item m) in E1
        as (p & Hp & Hcache1 & Hread1 & Hothers1); try done.
      apply IH in Hrun as (Hcache & Hframe & Hall);
        [|intros e He; apply Hsub; by right|done|by rewrite Hcache1].
      assert (fs w' !! p = fs w1 !! p) as Hkeep.
      { apply Hframe. intros k' m' p' Hin' Hk' Hp' ->.
        destruct (item_path_folder _ _ _ _ Hp) as [nm ->].
        destruct (item_path_folder _ _ _ _ Hp') as [nm' Heq].
        apply app_inj_tail in Heq as [Heq _]. revert Heq.
        apply (folders_apart folders k k'); try done. by intros ->. }
      split; [congruence|]. split.
      * intros q Hq. rewrite Hframe.
        -- apply Hothers1. apply (Hq k m p); [done| |done].
           rewrite fmap_cons. by left.
        -- intros k' m' p' Hin' Hk'. apply Hq; [done|].
           rewrite fmap_cons. by right.
      * intros k' m' Hin' Hk'. rewrite fmap_cons in Hk'.
        destruct (decide (k' = k)) as [->|Hne].
        -- assert (m' = m) as ->.
           { apply dict_get_elem_of in Hin, Hin'; try done. congruence. }
           exists p, a. repeat split; [done..|].
           by rewrite (read_field_ext _ _ (fs w1)).
        -- apply elem_of_cons in Hk' as [?|Hk']; [done|]. by apply Hall.
Qed.

(** The read loop of [get_cached_item] over fields whose files read
    back as the fields of the sample. *)
Lemma get_cached_fold_reads files (l : dict Metadata.t) :
  ∀ (data : sample) (w : disk_world),
  NoDup l.*1 →
  (∀ k m, (k, m) ∈ l →
     ∃ p a, item_path on_disk_keys filename item k m = Ok p
            ∧ (k, Array a) ∈ arrays
            ∧ read_field bo cast files m p = Ok a) →
  ∃ s',
    runM (fold_each l data (λ data '(k, metadata),
      nm ← lift (item_name on_disk_keys filename item k);
      let filepath := Metadata.cache_folder metadata ++ [nm] in
      if Metadata.is_image metadata then
        image ← lift (read_image (fs_imread files) filepath
                        (Some IMREAD_UNCHANGED));
        mret (Dict.set k (Array image) data)
      else if storable_truth (Metadata.can_be_stored_as_image metadata) then
        p ← lift (with_suffix filepath ".png");
        cached ← lift (read_image (fs_imread files) p (Some IMREAD_UNCHANGED));
        original_dtype ← lift (match Metadata.can_be_stored_as_image metadata with
                               | StoredPacked dt => Ok dt
                               | _ => Raise TypeError
                               end);
        image ← lift (revert_image_to_original_dtype bo cast cached
                        original_dtype);
        mret (Dict.set k (Array image) data)
      else
        p ← lift (with_suffix filepath ".npy");
        array ← lift (np_load files p);
        mret (Dict.set k (Array array) data))) w = (w, Ok s')
    ∧ (∀ k, k ∈ l.*1 → Dict.get k s' = Dict.get k arrays)
    ∧ (∀ k, k ∉ l.*1 → Dict.get k s' = Dict.get k data).
Proof.
  induction l as [|[k m] l IH]; intros data w Hdup Hall.
  - exists data. cbn [fold_each]. runm. split; [done|]. split; [|done].
    intros k Hk. by apply elem_of_nil in Hk.
  - rewrite fmap_cons in Hdup. apply NoDup_cons in Hdup as [Hk Hdup].
    cbn [fst] in Hk.
    destruct (Hall k m) as (p & a & Hp & Ha & Hread); [by left|].
    destruct (IH (Dict.set k (Array a) data) w Hdup) as (s' & Hrun & Hin & Hout).
    { intros k' m' Hin'. apply Hall. by right. }
    exists s'. split; [|split].
    + cbn [fold_each]. rewrite runM_bind, get_cached_step, Hp. cbn.
      rewrite Hread. cbn. done.
    + intros k' Hk'. rewrite fmap_cons in Hk'.
      destruct (decide (k' = k)) as [->|Hne].
      * rewrite Hout by done. rewrite dict_get_set_eq.
        symmetry. by apply dict_get_elem_of.
      * apply elem_of_cons in Hk' as [?|Hk']; [done|]. by apply Hin.
    + intros k' Hk'. rewrite fmap_cons in Hk'.
      apply not_elem_of_cons in Hk' as [Hne Hk'].
      rewrite Hout by done. by apply dict_get_set_ne.
Qed.
End loops.

Lemma in_memory_fold item (items : list string) :
  (∀ k, k ∈ items →
     ∃ table v, Dict.get k (gts d) = Some table ∧ getitem table item = Ok v) →
  ∀ acc : sample,
  ∃ data,
    foldl (λ acc k,
             data ← acc;
             table ← dict_getitem (gts d) k;
             v ← getitem table item;
             Ok (Dict.set k v data)) (Ok acc) items = Ok data.
Proof.
  induction items as [|k items IH]; intros Hall acc; [by eexists|].
  destruct (Hall k) as (table & v & Htable & Hv); [by left|].
  cbn [foldl]. cbn. unfold dict_getitem. rewrite Htable. cbn. rewrite Hv. cbn.
  apply IH. intros k' Hk'. apply Hall. by right.
Qed.

End hit_facts.

Lemma flip_axis2_ndim (a : ndarray) : ndim (flip_axis2 a) = ndim a.
Proof.
  unfold flip_axis2, ndim. destruct a as [dt s xs]. cbn.
  by destruct s as [|? [|? [|? [|]]]].
Qed.

(** The [save_image] of the examples is one that [read_image] reads
    back. *)
Lemma example_save_image_reads (a : ndarray) (p : path) (files : filesystem) :
  length (arr_data a) = size a →
  read_image (fs_imread (Ex.save_image a p files)) p (Some IMREAD_UNCHANGED)
  = Ok a.
Proof.
  intros Hlen. unfold read_image, fs_imread, Ex.save_image.
  rewrite lookup_insert_eq. cbn. rewrite flip_axis2_ndim.
  destruct (decide (ndim a = 3)) as [Hnd|Hnd].
  - by rewrite flip_axis2_involutive.
  - unfold flip_axis2, ndim in *.
    destruct a as [dt [|? [|? [|? [|]]]] xs]; cbn in *; done.
Qed.


(** ** The disk cache: an incomplete item is written anew *)

(** A file that [get_cached_item] can read is there. *)
Lemma read_field_exists (bo : byteorder) (cast : dtype → dtype → Z → Z)
    (files : filesystem) (m : Metadata.t) (p : path) (a : ndarray) :
  read_field bo cast files m p = Ok a → exists_ files p = true.
Proof.
  unfold read_field, read_image, fs_imread, np_load, exists_. intros Hread.
  apply bool_decide_eq_true. destruct (files !! p) as [f|]; [by eexists|].
  exfalso. destruct (Metadata.is_image m); [done|].
  by destruct (storable_truth _).
Qed.

Lemma getitem_py_index {A} (l : list A) (i : Z) (x : A) :
  getitem l i = Ok x → is_Some (py_index (length l) i).
Proof.
  unfold getitem. destruct (py_index (length l) i); [by eexists|done].
Qed.

Section miss_facts.
Variable bo : byteorder.
Variable cast : dtype → dtype → Z → Z.
Variable d : dataset.
Variable on_disk_keys : list string.
Variable filename : Z → string → result string.
Variable read_from_disk : Z → result sample.
Variable precompose_data : sample → sample.
Variable save_image : ndarray → path → filesystem → filesystem.

(** [cache_to_disk] goes through for a non-empty well-formed array that
    the metadata of its field describes and whose file has a name. *)
Lemma cache_to_disk_runs key (a : ndarray) item m p (w : disk_world) :
  Dict.get key (cache_folders (cache w)) = Some m →
  describes m a →
  wf_ndarray a →
  0 < size a →
  item_path on_disk_keys filename item key m = Ok p →
  ∃ files',
    runM (cache_to_disk bo cast on_disk_keys filename save_image key (Array a) item) w
    = (mk_disk_world (cache w) files', Ok ()).
Proof.
  intros Hget [Himage Hstore] [Hlen Hfits] Hsize Hp.
  unfold item_path in Hp.
  destruct (item_name on_disk_keys filename item key) as [nm|] eqn:Hnm; [|done].
  cbn in Hp.
  unfold cache_to_disk. go. rewrite Hnm. go.
  unfold dict_getitem. rewrite Hget. go.
  destruct (Metadata.is_image m) eqn:Him.
  { go. by eexists. }
  rewrite Hstore in *. unfold can_be_stored_as_image in *.
  rewrite <- Himage in *.
  destruct (packable (arr_dtype a) && bool_decide (ndim a = 2)) eqn:Hpack;
    cbn [storable_truth] in *.
  - apply andb_true_iff in Hpack as [Hd Hnd]. apply bool_decide_eq_true in Hnd.
    destruct a as [dt s xs]; unfold ndim, size in *;
      cbn [arr_shape arr_dtype arr_data value_dtype as_array] in *.
    destruct s as [|h [|w0 [|]]]; try discriminate Hnd.
    assert (0 < h ∧ 0 < w0) as [Hh Hw] by (simpl in Hsize; nia).
    assert (length xs = h * w0) as Hxs by (simpl in Hlen; lia).
    go. rewrite convert_to_image_packed by done. go.
    rewrite with_suffix_snoc.
    destruct (name_with_suffix nm ".png") as [name'|]; [|done].
    go. by eexists.
  - go. rewrite with_suffix_snoc.
    destruct (name_with_suffix nm ".npy") as [name'|]; [|done].
    go. by eexists.
Qed.

Section loops.
Variable item : Z.
Variable arrays : sample.
Variable folders : dict Metadata.t.
Variable items : list string.
Hypothesis arrays_keys : NoDup arrays.*1.
Hypothesis folders_keys : NoDup folders.*1.
Hypothesis covered :
  ∀ k v, (k, v) ∈ arrays → k ∈ items ∨ k ∈ folders.*1.
Hypothesis fields :
  ∀ k m, (k, m) ∈ folders →
    (∃ p, item_path on_disk_keys filename item k m = Ok p)
    ∧ (∃ a, (k, Array a) ∈ arrays ∧ describes m a ∧ wf_ndarray a ∧ 0 < size a).

(** The write loop of [cache_item] goes through. *)
Lemma cache_loop_runs (l : sample) :
  ∀ (w : disk_world),
  (∀ e, e ∈ l → e ∈ arrays) →
  cache_folders (cache w) = folders →
  ∃ files',
    runM (for_each l (λ '(k, v),
            if bool_decide (k ∈ items) then mret ()
            else cache_to_disk bo cast on_disk_keys filename save_image k v item)) w
    = (mk_disk_world (cache w) files', Ok ()).
Proof.
  induction l as [|[k v] l IH]; intros w Hsub Hfolders.
  - exists (fs w). cbn [for_each]. go. by destruct w.
  - assert ((k, v) ∈ arrays) as Hkv by (apply Hsub; by left).
    assert (∀ e, e ∈ l → e ∈ arrays) as Hsub'
      by (intros e He; apply Hsub; by right).
    cbn [for_each]. rewrite runM_bind.
    destruct (bool_decide (k ∈ items)) eqn:Hitems.
    + go. by apply IH.
    + apply bool_decide_eq_false in Hitems.
      destruct (covered k v Hkv) as [?|Hk]; [done|].
      apply list_elem_of_fmap in Hk as ([k' m] & -> & Hin). cbn [fst] in *.
      destruct (fields _ _ Hin) as ([p Hp] & a & Ha & Hdesc & Hwf & Hsize).
      assert (v = Array a) as ->.
      { apply dict_get_elem_of in Hkv, Ha; try done. congruence. }
      destruct (cache_to_disk_runs k' a item m p w) as [files1 Hrun1]; try done.
      { rewrite Hfolders. by apply dict_get_elem_of. }
      rewrite Hrun1.
      destruct (IH (mk_disk_world (cache w) files1) Hsub' Hfolders)
        as [files' Hrun].
      exists files'. by rewrite Hrun.
Qed.
End loops.

(** What [cache_item] does on a miss goes through and returns the
    pre-cache transform of what the source reads. *)
Lemma recompute_runs (c : DiskCache) (files : filesystem) (item : Z)
    (raw : sample) (x : bool) :
  getitem (is_item_cached c) item = Ok x →
  read_from_disk item = Ok raw →
  NoDup (cache_folders c).*1 →
  NoDup (precompose_data raw).*1 →
  (∀ k v, (k, v) ∈ precompose_data raw →
     k ∈ in_memory_items c ∨ k ∈ (cache_folders c).*1) →
  (∀ k m, (k, m) ∈ cache_folders c →
     (∃ p, item_path on_disk_keys filename item k m = Ok p)
     ∧ (∃ a, (k, Array a) ∈ precompose_data raw
             ∧ describes m a ∧ wf_ndarray a ∧ 0 < size a)) →
  ∃ w',
    runM (recompute bo cast on_disk_keys filename read_from_disk
            precompose_data save_image item) (mk_disk_world c files)
    = (w', Ok (precompose_data raw)).
Proof.
  intros Hbit Hraw Hkeys Hdup Hcovered Hfields.
  destruct (cache_loop_runs item (precompose_data raw) (cache_folders c)
              (in_memory_items c) Hdup Hkeys Hcovered Hfields
              (precompose_data raw) (mk_disk_world c files))
    as [files' Hloop]; [done|done|].
  apply getitem_py_index in Hbit as [i Hi].
  unfold recompute. rewrite Hraw. go. rewrite Hloop. go.
  unfold mark_cached. go. rewrite Hi. go. by eexists.
Qed.
End miss_facts.



(** The partial state itself: the entry of item 0 is not set, the file of
    the image is there with another image in it, that of the mask is
    missing.  The fetch returns the sample and leaves both files with the
    fields of the sample in them. *)
Lemma partial_state_rewritten :
  let stale := mk_disk_world (cache Ex.disk2) {[ Ex.image_file := ImageFile Ex.img_b ]} in
  let w' := (runM (Ex.fetch 0) stale).1 in
  check_folders [] Ex.filename (fs stale) 0 (cache_folders (cache stale)) = Ok false
  ∧ exists_ (fs stale) Ex.image_file = true
  ∧ exists_ (fs stale) Ex.mask_file = false
  ∧ (runM (Ex.fetch 0) stale).2
    = Ok [("image", Array Ex.img_a); ("mask", Array Ex.mask_a);
          ("label", Scalar int64 0)]
  ∧ is_item_cached (cache w') = [true; false]
  ∧ read_field LittleEndian Ex.no_cast (fs w') Ex.image_folder Ex.image_file
    = Ok Ex.img_a
  ∧ read_field LittleEndian Ex.no_cast (fs w') Ex.mask_folder Ex.mask_file
    = Ok Ex.mask_a.
Proof. vm_compute. repeat split. Qed.
